(** * Cursor usage tracker: event ingestion and reconciliation pipeline

    A shallow embedding of [src/storage/data_storage.js] (class
    [DataStorage]), of the normalizer [parseUsageEvent] and the collection
    methods ([fetchAllEvents], [collectFromAPI],
    [collectActiveEventsForUpdates], [collectUsageData]) of
    [src/collectors/data_collector.js] and of the [CONFIG] object of
    [src/config/constants.js], followed by the properties of the
    specification that concern them.

    Conventions of the embedding.
    - A JavaScript number that is read from JSON is finite; money and token
      figures are exact rationals ([Qc], so that [!==] is Leibniz
      disequality), instants are integers (epoch milliseconds, [Z]).
      Where the source can produce [NaN] ([parseFloat], [parseInt],
      arithmetic on [undefined]) the type [JS.num] adds it explicitly.
    - A property that may be [undefined] is an [option].
    - The page-size controller multiplies and rounds in binary64
      ([Double], over the IEEE 754 operations of [SpecFloat]); an integer
      read from JSON is below [2^53], where binary64 holds it exactly.
    - [Date.now()] and [Math.random()] are inputs: every operation takes the
      clock reading [now], the normalizer takes the random id suffix.
    - The two JSON documents on disk are the state ([FS.t]); an [async]
      method is a function from state to state. *)

From Stdlib Require Import ZArith QArith Qcanon String Ascii List Bool.
From Stdlib Require Import Lia Permutation Sorted.
From Stdlib Require SpecFloat.
From stdpp Require Import base option numbers strings list gmap fin_maps.
Import ListNotations.

Local Open Scope Z_scope.

(** ** JavaScript values *)

Module JS.

(** A number that may be [NaN]. *)
Inductive num (A : Type) : Type :=
| Num (a : A)
| NaN.
Arguments Num {A} a.
Arguments NaN {A}.

(** [undefined] converts to [NaN], a number to itself. *)
Definition ToNumber {A} (x : option A) : num A :=
  match x with Some a => Num a | None => NaN end.

Definition lift2 {A} (f : A → A → A) (x y : num A) : num A :=
  match x, y with
  | Num a, Num b => Num (f a b)
  | _, _ => NaN
  end.

Definition mul : num Z → num Z → num Z := lift2 Z.mul.
Definition sub : num Z → num Z → num Z := lift2 Z.sub.

(** Comparisons with [NaN] are false. *)
Definition geb (x y : num Z) : bool :=
  match x, y with
  | Num a, Num b => b <=? a
  | _, _ => false
  end.

Definition gtb (x y : num Z) : bool :=
  match x, y with
  | Num a, Num b => b <? a
  | _, _ => false
  end.

(** [q > 0] on rationals. *)
Definition Qc_pos (q : Qc) : bool := bool_decide (0 < q)%Qc.

Definition num_pos (x : num Qc) : bool :=
  match x with Num q => Qc_pos q | NaN => false end.

(** Truthiness: [0] and [NaN] are falsy, so are the empty string and
    [undefined]. *)
Definition truthy_Qc (q : Qc) : bool := negb (bool_decide (q = 0%Qc)).

Definition truthy_str (s : string) : bool := negb (String.eqb s "").

(** [x || d] *)
Definition or_Qc (x : option Qc) (d : Qc) : Qc :=
  match x with
  | Some q => if truthy_Qc q then q else d
  | None => d
  end.

Definition or_str (x : option string) (d : string) : string :=
  match x with
  | Some s => if truthy_str s then s else d
  | None => d
  end.

Definition or_Z (x : Z) (d : Z) : Z := if x =? 0 then d else x.

(** [x === s] for a property [x] and a string literal [s]. *)
Definition is_str (x : option string) (s : string) : bool :=
  match x with Some t => String.eqb t s | None => false end.

(** [s.split('_')[0]]: the characters before the first underscore. *)
Fixpoint split0 (s : string) : string :=
  match s with
  | EmptyString => EmptyString
  | String c r => if Ascii.eqb c "_" then EmptyString else String c (split0 r)
  end.

(** [s.startsWith(p)] *)
Definition startsWith (s p : string) : bool := String.prefix p s.

End JS.

(** ** Binary64 numbers *)

Module Double.

Definition t := SpecFloat.spec_float.

Definition prec : Z := 53.
Definition emax : Z := 1024.

(** The number an integer converts to: itself when binary64 holds it,
    the nearest binary64 number otherwise. *)
Definition of_Z (n : Z) : t := SpecFloat.binary_normalize prec emax n 0 false.

Definition mul : t → t → t := SpecFloat.SFmul prec emax.
Definition div : t → t → t := SpecFloat.SFdiv prec emax.

(** A decimal literal [num / den] stands for the binary64 number nearest
    to it: [1.5] is exact, [0.7] is [6305039478318694 * 2^-53]. *)
Definition literal (num den : Z) : t := div (of_Z num) (of_Z den).

Definition eqb : t → t → bool := SpecFloat.SFeqb.
Definition ltb : t → t → bool := SpecFloat.SFltb.

(** [Math.min] and [Math.max] of two numbers neither of which is [NaN]. *)
Definition min (x y : t) : t := if ltb y x then y else x.
Definition max (x y : t) : t := if ltb x y then y else x.

(** [Math.round] of a finite number, as it is read back from JSON: the
    nearest integer, a half rounds up. An infinite result is written as
    [null], which every reader of the page size replaces by its default
    as it does for [0]; it is kept as [0]. *)
Definition round (x : t) : Z :=
  match x with
  | SpecFloat.S754_finite s m e =>
      let v := SpecFloat.cond_Zopp s (Z.pos m) in
      if 0 <=? e then v * 2 ^ e
      else (2 * v + 2 ^ (- e)) / 2 ^ (- e + 1)
  | _ => 0
  end.

End Double.

(** ** Data model *)

(** [tokenUsage] of a raw vendor record. *)
Module RawTokenUsage.
Record t := mk {
  inputTokens : option Qc;
  outputTokens : option Qc;
  cacheReadTokens : option Qc;
  cacheWriteTokens : option Qc;
  totalCents : option Qc
}.
End RawTokenUsage.

(** A record of the vendor's [usageEventsDisplay] array. [detailsMaxMode]
    is the path [details.toolCallComposer.maxMode]. *)
Module RawVendorEvent.
Record t := mk {
  timestamp : option string;
  kind : option string;
  model : option string;
  tokenUsage : option RawTokenUsage.t;
  requestsCosts : option Qc;
  usageBasedCosts : option string;
  customSubscriptionName : option string;
  maxMode : option bool;
  detailsMaxMode : option bool
}.
End RawVendorEvent.

Module TokenUsage.
Record t := mk {
  inputTokens : option Qc;
  outputTokens : option Qc;
  cacheReadTokens : option Qc;
  cacheWriteTokens : option Qc;
  totalTokens : option Qc
}.
End TokenUsage.

Module CostInfo.
Record t := mk {
  totalCents : Qc;
  requestsCosts : Qc;
  usageBasedCosts : JS.num Qc;
  isIncluded : bool;
  isFree : bool;
  displayCost : Qc;
  originalCost : option Qc;
  discountedCost : option Qc;
  discount : option Qc
}.
End CostInfo.

(** The canonical event. [date] is the time value of the [Date]. *)
Module Event.
Record t := mk {
  id : string;
  date : Z;
  model : string;
  kind : string;
  kindDisplay : string;
  tokens : option Qc;
  tokenUsage : option TokenUsage.t;
  cost : option Qc;
  costInfo : option CostInfo.t;
  credits : option Qc;
  maxMode : option bool;
  source : string;
  rawData : option RawVendorEvent.t
}.
End Event.

Module SyncMetadata.
Inductive strategy := full | incremental.
Record t := mk {
  lastSuccessfulSync : Z;
  adaptivePageSize : Z;
  syncStrategy : strategy
}.
End SyncMetadata.

(** The persisted usage document. [lastSyncDate] is the watermark: the
    decimal string of an instant, kept as that instant. *)
Module UsageDataset.
Record t := mk {
  timestamp : Z;
  lastSyncDate : Z;
  totalEvents : nat;
  syncMetadata : option SyncMetadata.t;
  events : list Event.t
}.
End UsageDataset.

(** ** Event normalizer ([data_collector.js]) *)

Definition Qc_of_Z (z : Z) : Qc := Q2Qc (inject_Z z).

Module DataCollector.

Import RawVendorEvent.

(** Field assignments on the [costInfo] object under construction. *)
Definition set_totalCents (v : Qc) (c : CostInfo.t) : CostInfo.t :=
  CostInfo.mk v (CostInfo.requestsCosts c) (CostInfo.usageBasedCosts c)
    (CostInfo.isIncluded c) (CostInfo.isFree c) (CostInfo.displayCost c)
    (CostInfo.originalCost c) (CostInfo.discountedCost c) (CostInfo.discount c).

Definition set_originalCost (v : Qc) (c : CostInfo.t) : CostInfo.t :=
  CostInfo.mk (CostInfo.totalCents c) (CostInfo.requestsCosts c)
    (CostInfo.usageBasedCosts c) (CostInfo.isIncluded c) (CostInfo.isFree c)
    (CostInfo.displayCost c) (Some v) (CostInfo.discountedCost c)
    (CostInfo.discount c).

Definition set_requestsCosts (v : Qc) (c : CostInfo.t) : CostInfo.t :=
  CostInfo.mk (CostInfo.totalCents c) v (CostInfo.usageBasedCosts c)
    (CostInfo.isIncluded c) (CostInfo.isFree c) (CostInfo.displayCost c)
    (CostInfo.originalCost c) (CostInfo.discountedCost c) (CostInfo.discount c).

Definition set_usageBasedCosts (v : JS.num Qc) (c : CostInfo.t) : CostInfo.t :=
  CostInfo.mk (CostInfo.totalCents c) (CostInfo.requestsCosts c) v
    (CostInfo.isIncluded c) (CostInfo.isFree c) (CostInfo.displayCost c)
    (CostInfo.originalCost c) (CostInfo.discountedCost c) (CostInfo.discount c).

Definition set_isIncluded (v : bool) (c : CostInfo.t) : CostInfo.t :=
  CostInfo.mk (CostInfo.totalCents c) (CostInfo.requestsCosts c)
    (CostInfo.usageBasedCosts c) v (CostInfo.isFree c) (CostInfo.displayCost c)
    (CostInfo.originalCost c) (CostInfo.discountedCost c) (CostInfo.discount c).

Definition set_isFree (v : bool) (c : CostInfo.t) : CostInfo.t :=
  CostInfo.mk (CostInfo.totalCents c) (CostInfo.requestsCosts c)
    (CostInfo.usageBasedCosts c) (CostInfo.isIncluded c) v
    (CostInfo.displayCost c) (CostInfo.originalCost c)
    (CostInfo.discountedCost c) (CostInfo.discount c).

Definition set_displayCost (v : Qc) (c : CostInfo.t) : CostInfo.t :=
  CostInfo.mk (CostInfo.totalCents c) (CostInfo.requestsCosts c)
    (CostInfo.usageBasedCosts c) (CostInfo.isIncluded c) (CostInfo.isFree c) v
    (CostInfo.originalCost c) (CostInfo.discountedCost c) (CostInfo.discount c).

(** The vendor kinds of the first and of the second branch of the
    display-cost chain. *)
Definition included_plan_kind (k : option string) : bool :=
  JS.is_str k "USAGE_EVENT_KIND_CUSTOM_SUBSCRIPTION"
  || JS.is_str k "USAGE_EVENT_KIND_INCLUDED_IN_PRO"
  || JS.is_str k "USAGE_EVENT_KIND_INCLUDED_IN_BUSINESS"
  || JS.is_str k "USAGE_EVENT_KIND_INCLUDED_IN_PRO_PLUS"
  || JS.is_str k "USAGE_EVENT_KIND_INCLUDED_IN_ULTRA".

Definition not_charged_kind (k : option string) : bool :=
  JS.is_str k "USAGE_EVENT_KIND_ERRORED_NOT_CHARGED"
  || JS.is_str k "USAGE_EVENT_KIND_ABORTED_NOT_CHARGED".

Section Normalizer.

(** The host functions [parseInt] and [parseFloat]. *)
Variable parseInt : string → JS.num Z.
Variable parseFloat : string → JS.num Qc.

(** "Parse timestamp": the instant of the record when it is later than
    2020-01-01, the clock otherwise. For a number beyond
    8640000000000000 [new Date(ts)] is an Invalid Date, which has no
    time value; [date] then holds the number itself, and an event is a
    dated one only when its timestamp is within that bound. *)
Definition parse_date (now : Z) (event : t) : Z :=
  match timestamp event with
  | Some s =>
      if JS.truthy_str s then
        match parseInt s with
        | JS.Num ts => if 1577836800000 <? ts then ts else now
        | JS.NaN => now
        end
      else now
  | None => now
  end.

(** "Parse detailed token usage". *)
Definition parse_tokenUsage (event : t) : TokenUsage.t :=
  match tokenUsage event with
  | Some tu =>
      let i := JS.or_Qc (RawTokenUsage.inputTokens tu) 0%Qc in
      let o := JS.or_Qc (RawTokenUsage.outputTokens tu) 0%Qc in
      let cr := JS.or_Qc (RawTokenUsage.cacheReadTokens tu) 0%Qc in
      let cw := JS.or_Qc (RawTokenUsage.cacheWriteTokens tu) 0%Qc in
      TokenUsage.mk (Some i) (Some o) (Some cr) (Some cw)
        (Some (i + o + cr + cw)%Qc)
  | None =>
      TokenUsage.mk (Some 0%Qc) (Some 0%Qc) (Some 0%Qc) (Some 0%Qc) (Some 0%Qc)
  end.

(** "Parse detailed cost information": the three guarded copies. *)
Definition costInfo_init : CostInfo.t :=
  CostInfo.mk 0%Qc 0%Qc (JS.Num 0%Qc) false false 0%Qc (Some 0%Qc) None None.

Definition copy_totalCents (event : t) (c : CostInfo.t) : CostInfo.t :=
  match tokenUsage event with
  | Some tu =>
      match RawTokenUsage.totalCents tu with
      | Some cents =>
          if JS.truthy_Qc cents
          then set_originalCost (cents / Qc_of_Z 100)%Qc (set_totalCents cents c)
          else c
      | None => c
      end
  | None => c
  end.

Definition copy_requestsCosts (event : t) (c : CostInfo.t) : CostInfo.t :=
  match requestsCosts event with
  | Some r => if JS.truthy_Qc r then set_requestsCosts r c else c
  | None => c
  end.

Definition copy_usageBasedCosts (event : t) (c : CostInfo.t) : CostInfo.t :=
  match usageBasedCosts event with
  | Some s =>
      if JS.truthy_str s && negb (String.eqb s "-")
      then set_usageBasedCosts (parseFloat s) c
      else c
  | None => c
  end.

(** "Determine if cost is included in plan": the if / else-if chain. *)
Definition choose_displayCost (event : t) (c : CostInfo.t) : CostInfo.t :=
  if included_plan_kind (kind event) then
    set_displayCost 0%Qc (set_isIncluded true c)
  else if not_charged_kind (kind event) then
    set_displayCost 0%Qc (set_isFree true c)
  else if JS.Qc_pos (CostInfo.totalCents c) then
    set_displayCost (CostInfo.totalCents c / Qc_of_Z 100)%Qc c
  else if JS.num_pos (CostInfo.usageBasedCosts c) then
    match CostInfo.usageBasedCosts c with
    | JS.Num u => set_displayCost u c
    | JS.NaN => c
    end
  else if JS.Qc_pos (CostInfo.requestsCosts c) then
    set_displayCost (CostInfo.requestsCosts c) c
  else c.

Definition parse_costInfo (event : t) : CostInfo.t :=
  choose_displayCost event
    (copy_usageBasedCosts event
       (copy_requestsCosts event
          (copy_totalCents event costInfo_init))).

(** "Parse kind with detailed mapping": slug and label. *)
Definition parse_kind (event : t) : string * string :=
  if JS.is_str (kind event) "USAGE_EVENT_KIND_CUSTOM_SUBSCRIPTION" then
    if JS.is_str (customSubscriptionName event) "pro-free-trial" then
      ("pro-free-trial", "Pro Free Trial")
    else if JS.is_str (customSubscriptionName event) "free" then
      ("free", "Free")
    else
      ("custom_subscription",
       JS.or_str (customSubscriptionName event) "Custom Subscription")
  else if JS.is_str (kind event) "USAGE_EVENT_KIND_INCLUDED_IN_PRO" then
    ("included_pro", "Included in Pro")
  else if JS.is_str (kind event) "USAGE_EVENT_KIND_INCLUDED_IN_BUSINESS" then
    ("included_business", "Included in Business")
  else if JS.is_str (kind event) "USAGE_EVENT_KIND_INCLUDED_IN_PRO_PLUS" then
    ("included_pro_plus", "Included in Pro+")
  else if JS.is_str (kind event) "USAGE_EVENT_KIND_INCLUDED_IN_ULTRA" then
    ("included_ultra", "Included in Ultra")
  else if JS.is_str (kind event) "USAGE_EVENT_KIND_ERRORED_NOT_CHARGED" then
    ("errored_not_charged", "Errored, Not Charged")
  else if JS.is_str (kind event) "USAGE_EVENT_KIND_ABORTED_NOT_CHARGED" then
    ("aborted_not_charged", "Aborted, Not Charged")
  else if JS.is_str (kind event) "USAGE_EVENT_KIND_USAGE_BASED" then
    ("usage_based", "Usage Based")
  else if JS.is_str (kind event) "USAGE_EVENT_KIND_USER_API_KEY" then
    ("user_api_key", "User API Key")
  else ("unknown", "Unknown").

Definition parse_model (event : t) : string :=
  let m := JS.or_str (model event) "auto" in
  if String.eqb m "default" then "auto" else m.

Definition parse_maxMode (event : t) : bool :=
  match maxMode event with
  | Some b => b
  | None =>
      match detailsMaxMode event with
      | Some b => b
      | None => false
      end
  end.

(** [parseUsageEvent(event)]; [rnd] is the nine characters of
    [Math.random().toString(36).substr(2, 9)]. On a record of this type
    no step throws, so the [catch] branch returning [null] is not
    reached. *)
Definition parseUsageEvent (now : Z) (rnd : string) (event : t) : Event.t :=
  let tokenUsage := parse_tokenUsage event in
  let costInfo := parse_costInfo event in
  let k := parse_kind event in
  Event.mk
    (default "undefined" (timestamp event) +:+ "_" +:+ rnd)
    (parse_date now event)
    (parse_model event)
    (fst k)
    (snd k)
    (TokenUsage.totalTokens tokenUsage)
    (Some tokenUsage)
    (Some (CostInfo.displayCost costInfo))
    (Some costInfo)
    (Some (match requestsCosts event with
           | Some r =>
               if JS.truthy_Qc r then r else CostInfo.requestsCosts costInfo
           | None => CostInfo.requestsCosts costInfo
           end))
    (Some (parse_maxMode event))
    "API"
    (Some event).

End Normalizer.

End DataCollector.

(** ** Arrays and insertion-ordered maps *)

Module Arr.

Section Arr.
Context {A : Type}.

(** [Array.prototype.sort(cmp)]: a stable sort; [a] goes after [b] when
    [cmp a b > 0]. *)
Fixpoint insert (cmp : A → A → Z) (x : A) (l : list A) : list A :=
  match l with
  | [] => [x]
  | y :: r => if 0 <? cmp x y then y :: insert cmp x r else x :: y :: r
  end.

Fixpoint sort (cmp : A → A → Z) (l : list A) : list A :=
  match l with
  | [] => []
  | x :: r => insert cmp x (sort cmp r)
  end.

(** [findIndex(p)]; [None] stands for [-1]. *)
Fixpoint findIndex (p : A → bool) (l : list A) : option nat :=
  match l with
  | [] => None
  | x :: r => if p x then Some O else S <$> findIndex p r
  end.

(** [slice(0, n)]; a negative [n] counts from the end. *)
Definition slice0 (n : Z) (l : list A) : list A :=
  if n <? 0 then take (Z.to_nat (Z.max (Z.of_nat (length l) + n) 0)) l
  else take (Z.to_nat n) l.

(** [new Map(entries)]: a later entry for a key already present
    replaces the value and keeps the position of the key. *)
Fixpoint Map_set (k : string) (v : A) (m : list (string * A)) : list (string * A) :=
  match m with
  | [] => [(k, v)]
  | (k', v') :: r =>
      if String.eqb k' k then (k', v) :: r else (k', v') :: Map_set k v r
  end.

Definition Map_new (entries : list (string * A)) : list (string * A) :=
  fold_left (fun m kv => Map_set (fst kv) (snd kv) m) entries [].

Definition Map_values (m : list (string * A)) : list A := map snd m.

End Arr.

End Arr.

(** ** Statistics document *)

(** An entry of [byModel] and of [byKind]. *)
Module Agg.
Record t := mk {
  count : nat;
  tokens : Qc;
  cost : Qc;
  credits : Qc;
  inputTokens : Qc;
  outputTokens : Qc;
  cacheReadTokens : Qc;
  cacheWriteTokens : Qc;
  maxMode : nat
}.
Definition zero : t := mk 0 0%Qc 0%Qc 0%Qc 0%Qc 0%Qc 0%Qc 0%Qc 0.
End Agg.

(** An entry of [byDate]. *)
Module DateAgg.
Record t := mk { count : nat; tokens : Qc; cost : Qc }.
Definition zero : t := mk 0 0%Qc 0%Qc.
End DateAgg.

Module RecentEvent.
Record t := mk {
  id : string;
  date : Z;
  model : string;
  kind : string;
  kindDisplay : string;
  tokens : option Qc;
  cost : option Qc;
  tokenUsage : option TokenUsage.t;
  costInfo : option CostInfo.t;
  credits : option Qc;
  maxMode : bool
}.
End RecentEvent.

(** [byDate] is keyed by the UTC calendar day; the day string
    [toISOString().split('T')[0]] is represented by the number of the day
    since the epoch. *)
Module Stats.
Record t := mk {
  timestamp : Z;
  totalEvents : nat;
  totalTokens : Qc;
  totalCost : Qc;
  estimatedCost : Qc;
  totalMaxMode : nat;
  byModel : gmap string Agg.t;
  byKind : gmap string Agg.t;
  byDate : gmap Z DateAgg.t;
  recentEvents : list RecentEvent.t
}.
End Stats.

(** The files of the data directory: [usage_data.json] and [stats.json]. *)
Module FS.
Record t := mk {
  USAGE_DATA_FILE : option UsageDataset.t;
  STATS_FILE : option Stats.t
}.
End FS.

(** ** Configuration ([constants.js]) *)

(** The numeric settings of the [CONFIG] object literal, as a map from
    property name to value; [env] holds the integer values of the
    environment variables that are set. A property the literal does not
    define reads as [undefined], that is [None]. *)
Definition CONFIG (env : gmap string Z) : gmap string Z :=
  list_to_map [
    ("WEB_PORT", JS.or_Z (default 0 (env !! "WEB_PORT")) 3000);
    ("TIMEOUT", JS.or_Z (default 0 (env !! "TIMEOUT")) 30000);
    ("API_TIMEOUT", JS.or_Z (default 0 (env !! "API_TIMEOUT")) 10000);
    ("COLLECTION_INTERVAL", JS.or_Z (default 0 (env !! "COLLECTION_INTERVAL")) 100000);
    ("MAX_RETRIES", JS.or_Z (default 0 (env !! "MAX_RETRIES")) 3);
    ("PAGE_SIZE", JS.or_Z (default 0 (env !! "PAGE_SIZE")) 100)
  ].

(** The configuration the README documents: [CONFIG] extended with the
    two settings of the active-event check, 24 hours and 100 events. *)
Definition CONFIG_documented (env : gmap string Z) : gmap string Z :=
  <["ACTIVE_EVENTS_CHECK_HOURS" := 24]>
    (<["ACTIVE_EVENTS_MAX_COUNT" := 100]> (CONFIG env)).

(** ** Storage ([data_storage.js]) *)

Module DataStorage.

(** [a !== b] on values of one type. *)
Definition sne {A} `{EqDecision A} (a b : A) : bool := bool_decide (a ≠ b).

(** The comparator [(a, b) => new Date(b.date) - new Date(a.date)]. *)
Definition by_date_desc (a b : Event.t) : Z := Event.date b - Event.date a.

Definition loadUsageData (fs : FS.t) : option UsageDataset.t :=
  FS.USAGE_DATA_FILE fs.

(** *** calculateStats *)

(** [maxMode], the raw record first. *)
Definition resolve_maxMode (event : Event.t) : bool :=
  match Event.rawData event ≫= RawVendorEvent.maxMode with
  | Some b => b
  | None =>
      match Event.maxMode event with
      | Some b => b
      | None => false
      end
  end.

Definition eventCost (event : Event.t) : Qc :=
  match Event.costInfo event ≫= CostInfo.originalCost with
  | Some oc => if JS.truthy_Qc oc then oc else JS.or_Qc (Event.cost event) 0%Qc
  | None => JS.or_Qc (Event.cost event) 0%Qc
  end.

(** The guard of the two paid-cost totals. *)
Definition charged (event : Event.t) : bool :=
  sne (Event.kind event) "errored_not_charged"
  && sne (Event.kind event) "USAGE_EVENT_KIND_ERRORED_NOT_CHARGED".

(** The updates of one [byModel] or [byKind] entry; [withCost] tells
    whether the cost is added. *)
Definition agg_add (event : Event.t) (maxMode withCost : bool) (a : Agg.t) : Agg.t :=
  let tu f :=
    match Event.tokenUsage event with
    | Some u => fun x : Qc => (x + JS.or_Qc (f u) 0%Qc)%Qc
    | None => fun x : Qc => x
    end in
  Agg.mk
    (S (Agg.count a))
    (Agg.tokens a + JS.or_Qc (Event.tokens event) 0%Qc)%Qc
    (if withCost then (Agg.cost a + eventCost event)%Qc else Agg.cost a)
    (Agg.credits a + JS.or_Qc (Event.credits event) 0%Qc)%Qc
    (tu TokenUsage.inputTokens (Agg.inputTokens a))
    (tu TokenUsage.outputTokens (Agg.outputTokens a))
    (tu TokenUsage.cacheReadTokens (Agg.cacheReadTokens a))
    (tu TokenUsage.cacheWriteTokens (Agg.cacheWriteTokens a))
    (if maxMode then S (Agg.maxMode a) else Agg.maxMode a).

Definition date_add (event : Event.t) (a : DateAgg.t) : DateAgg.t :=
  DateAgg.mk
    (S (DateAgg.count a))
    (DateAgg.tokens a + JS.or_Qc (Event.tokens event) 0%Qc)%Qc
    (DateAgg.cost a + eventCost event)%Qc.

Definition model_key (event : Event.t) : string :=
  JS.or_str (Some (Event.model event)) "unknown".

Definition kind_key (event : Event.t) : string :=
  JS.or_str (Some (Event.kind event)) "unknown".

Definition date_key (event : Event.t) : Z := Event.date event / 86400000.

(** [byModel] and [byKind] are plain objects, and the test
    [!stats.byModel[model]] also sees what every object inherits from
    [Object.prototype]: under a key that names one of these properties
    the test finds a function (for [__proto__] the prototype itself), so
    no entry is created and the updates that follow are written to that
    inherited value, not to the statistics. What is written to
    [Object.prototype] under [__proto__] is inherited by every object from
    then on; the embedding does not follow that. *)
Definition Object_prototype_keys : list string :=
  ["constructor"; "__defineGetter__"; "__defineSetter__"; "hasOwnProperty";
   "__lookupGetter__"; "__lookupSetter__"; "isPrototypeOf";
   "propertyIsEnumerable"; "toString"; "valueOf"; "__proto__";
   "toLocaleString"].

Definition inherited (key : string) : bool :=
  existsb (String.eqb key) Object_prototype_keys.

(** [if (!m[key]) m[key] = {...zeros}; update m[key]] on the entries of
    [m]. *)
Definition agg_update (key : string) (f : Agg.t → Agg.t)
    (m : gmap string Agg.t) : gmap string Agg.t :=
  if inherited key then m
  else <[key := f (default Agg.zero (m !! key))]> m.

(** The body of [data.forEach(event => ...)]. *)
Definition add_event (stats : Stats.t) (event : Event.t) : Stats.t :=
  let maxMode := resolve_maxMode event in
  let model := model_key event in
  let kind := kind_key event in
  let date := date_key event in
  Stats.mk
    (Stats.timestamp stats)
    (Stats.totalEvents stats)
    (Stats.totalTokens stats + JS.or_Qc (Event.tokens event) 0%Qc)%Qc
    (if charged event
     then (Stats.totalCost stats + eventCost event)%Qc
     else Stats.totalCost stats)
    (Stats.estimatedCost stats + eventCost event)%Qc
    (if maxMode then S (Stats.totalMaxMode stats) else Stats.totalMaxMode stats)
    (agg_update model (agg_add event maxMode (charged event))
       (Stats.byModel stats))
    (agg_update kind (agg_add event maxMode true) (Stats.byKind stats))
    (<[date := date_add event (default DateAgg.zero (Stats.byDate stats !! date))]>
       (Stats.byDate stats))
    (Stats.recentEvents stats).

Definition recent (event : Event.t) : RecentEvent.t :=
  RecentEvent.mk (Event.id event) (Event.date event) (Event.model event)
    (Event.kind event) (Event.kindDisplay event) (Event.tokens event)
    (Event.cost event) (Event.tokenUsage event) (Event.costInfo event)
    (Event.credits event) (resolve_maxMode event).

Definition stats_init (now : Z) (data : list Event.t) : Stats.t :=
  Stats.mk now (length data) 0%Qc 0%Qc 0%Qc 0 ∅ ∅ ∅ [].

(** [data.sort(...)] sorts the array it is called on: after
    [calculateStats(data)] the array of the caller holds its events
    newest first. *)
Definition sorted_in_place (data : list Event.t) : list Event.t :=
  Arr.sort by_date_desc data.

Definition calculateStats (now : Z) (data : list Event.t) : Stats.t :=
  let stats := fold_left add_event data (stats_init now data) in
  Stats.mk (Stats.timestamp stats) (Stats.totalEvents stats)
    (Stats.totalTokens stats) (Stats.totalCost stats)
    (Stats.estimatedCost stats) (Stats.totalMaxMode stats)
    (Stats.byModel stats) (Stats.byKind stats) (Stats.byDate stats)
    (map recent (take 10 (sorted_in_place data))).

(** [updateStats(events)]: recompute and rewrite [stats.json].
    [calculateStats] throws only on an event whose date is an Invalid
    Date ([toISOString]); on dated events the [catch] branch, which
    leaves the file as it is, is not reached. *)
Definition updateStats (now : Z) (events : list Event.t) (fs : FS.t) : FS.t :=
  FS.mk (FS.USAGE_DATA_FILE fs) (Some (calculateStats now events)).

(** *** saveUsageData *)

(** The watermark written by a save. *)
Definition syncDate (now : Z) (data : list Event.t) (isIncremental : bool) : Z :=
  if isIncremental then now
  else
    match Arr.sort by_date_desc data with
    | newestEvent :: _ => Event.date newestEvent
    | [] => now
    end.

(** [existingData?.syncMetadata?.adaptivePageSize || 500] *)
Definition carried_page_size (existingData : option UsageDataset.t) : Z :=
  match existingData ≫= UsageDataset.syncMetadata with
  | Some sm => JS.or_Z (SyncMetadata.adaptivePageSize sm) 500
  | None => 500
  end.

Definition saveUsageData (now : Z) (data : list Event.t) (isIncremental : bool)
    (fs : FS.t) : FS.t :=
  let existingData := if isIncremental then loadUsageData fs else None in
  let dataWithMeta :=
    UsageDataset.mk now (syncDate now data isIncremental) (length data)
      (Some (SyncMetadata.mk now (carried_page_size existingData)
               (if isIncremental then SyncMetadata.incremental
                else SyncMetadata.full)))
      data in
  updateStats now (UsageDataset.events dataWithMeta)
    (FS.mk (Some dataWithMeta) (FS.STATS_FILE fs)).

(** *** getActiveEvents *)

Definition getActiveEvents (CONFIG : gmap string Z) (now : Z)
    (events : list Event.t) : list Event.t :=
  match events with
  | [] => []
  | _ =>
      let checkHours := JS.ToNumber (CONFIG !! "ACTIVE_EVENTS_CHECK_HOURS") in
      let checkMs :=
        JS.mul (JS.mul (JS.mul checkHours (JS.Num 60)) (JS.Num 60)) (JS.Num 1000) in
      let cutoffTime := JS.sub (JS.Num now) checkMs in
      let timeFilteredEvents :=
        List.filter (fun event => JS.geb (JS.Num (Event.date event)) cutoffTime)
          events in
      let maxCount := JS.ToNumber (CONFIG !! "ACTIVE_EVENTS_MAX_COUNT") in
      if JS.gtb (JS.Num (Z.of_nat (length timeFilteredEvents))) maxCount then
        match maxCount with
        | JS.Num n => Arr.slice0 n timeFilteredEvents
        | JS.NaN => timeFilteredEvents
        end
      else timeFilteredEvents
  end.

(** *** isEventUpdated *)

Definition tokenUsage_changed (a b : TokenUsage.t) : bool :=
  sne (TokenUsage.inputTokens a) (TokenUsage.inputTokens b)
  || sne (TokenUsage.outputTokens a) (TokenUsage.outputTokens b)
  || sne (TokenUsage.cacheReadTokens a) (TokenUsage.cacheReadTokens b)
  || sne (TokenUsage.cacheWriteTokens a) (TokenUsage.cacheWriteTokens b).

Definition costInfo_changed (a b : CostInfo.t) : bool :=
  sne (CostInfo.originalCost a) (CostInfo.originalCost b)
  || sne (CostInfo.discountedCost a) (CostInfo.discountedCost b)
  || sne (CostInfo.discount a) (CostInfo.discount b).

Definition isEventUpdated (existingEvent newEvent : Event.t) : bool :=
  if sne (JS.split0 (Event.id existingEvent)) (JS.split0 (Event.id newEvent))
  then false
  else if sne (Event.credits existingEvent) (Event.credits newEvent)
          || sne (Event.tokens existingEvent) (Event.tokens newEvent)
          || sne (Event.cost existingEvent) (Event.cost newEvent)
          || sne (Event.kind existingEvent) (Event.kind newEvent)
          || sne (Event.model existingEvent) (Event.model newEvent)
  then true
  else if match Event.tokenUsage existingEvent, Event.tokenUsage newEvent with
          | Some a, Some b => tokenUsage_changed a b
          | _, _ => false
          end
  then true
  else match Event.costInfo existingEvent, Event.costInfo newEvent with
       | Some a, Some b => costInfo_changed a b
       | _, _ => false
       end.

(** *** mergeUsageData *)

(** [new Map(newData.map(event => [event.id, event]))] *)
Definition newEventsMap (newData : list Event.t) : list (string * Event.t) :=
  Arr.Map_new (map (fun event => (Event.id event, event)) newData).

(** [values.find(event => event.id && event.id.startsWith(activeTimestamp))] *)
Definition find_updatedEvent (values : list Event.t) (activeTimestamp : string)
    : option Event.t :=
  List.find
    (fun event =>
       JS.truthy_str (Event.id event)
       && JS.startsWith (Event.id event) activeTimestamp)
    values.

(** The body of the loop over the active events. The state is the
    [existingData.events] array, updated in place, and the counter
    [updatedEvents]. *)
Definition check_active (values : list Event.t) (st : list Event.t * nat)
    (activeEvent : Event.t) : list Event.t * nat :=
  match find_updatedEvent values (JS.split0 (Event.id activeEvent)) with
  | Some updatedEvent =>
      if isEventUpdated activeEvent updatedEvent then
        (match Arr.findIndex
                 (fun e => String.eqb (Event.id e) (Event.id activeEvent))
                 (fst st) with
         | Some eventIndex => <[eventIndex := updatedEvent]> (fst st)
         | None => fst st
         end,
         S (snd st))
      else st
  | None => st
  end.

Definition check_updates (CONFIG : gmap string Z) (now : Z)
    (events newData : list Event.t) : list Event.t * nat :=
  fold_left (check_active (Arr.Map_values (newEventsMap newData)))
    (getActiveEvents CONFIG now events) (events, O).

(** The addition pass over [newData]. *)
Definition select_newEvents (events newData : list Event.t) : list Event.t :=
  let existingIds : gset string := list_to_set (map Event.id events) in
  let existingTimestamps : gset string :=
    list_to_set (map (fun event => JS.split0 (Event.id event)) events) in
  List.filter
    (fun newEvent =>
       negb (bool_decide (Event.id newEvent ∈ existingIds))
       && negb (bool_decide (JS.split0 (Event.id newEvent) ∈ existingTimestamps)))
    newData.

Definition mergeUsageData (CONFIG : gmap string Z) (now : Z)
    (newData : list Event.t) (isIncremental : bool) (fs : FS.t) : FS.t :=
  match loadUsageData fs with
  | Some existingData =>
      if isIncremental then
        let checked :=
          check_updates CONFIG now (UsageDataset.events existingData) newData in
        let newEvents := select_newEvents (fst checked) newData in
        if Nat.eqb (length newEvents) 0 && Nat.eqb (snd checked) 0 then fs
        else
          let mergedEvents := Arr.sort by_date_desc (newEvents ++ fst checked) in
          saveUsageData now mergedEvents true fs
      else saveUsageData now newData isIncremental fs
  | None => saveUsageData now newData isIncremental fs
  end.

(** The array [newData] of the caller after [mergeUsageData]: the branch
    that saves it hands it to [saveUsageData], which writes the document
    and then has [calculateStats] sort this very array; the incremental
    branch works on arrays of its own. *)
Definition newData_after_merge (newData : list Event.t) (isIncremental : bool)
    (fs : FS.t) : list Event.t :=
  match loadUsageData fs with
  | Some _ => if isIncremental then newData else sorted_in_place newData
  | None => sorted_in_place newData
  end.

(** *** updateAdaptivePageSize *)

(** The page size computed from one observation, before rounding. *)
Definition newPageSize (responseTime eventsCount currentPageSize : Z) : Double.t :=
  if (responseTime <? 1000) && (eventsCount =? currentPageSize) then
    Double.min (Double.mul (Double.of_Z currentPageSize) (Double.literal 15 10))
      (Double.of_Z 1000)
  else if 3000 <? responseTime then
    Double.max (Double.mul (Double.of_Z currentPageSize) (Double.literal 7 10))
      (Double.of_Z 100)
  else Double.of_Z currentPageSize.

Definition set_adaptivePageSize (v : Z) (data : UsageDataset.t) : UsageDataset.t :=
  UsageDataset.mk (UsageDataset.timestamp data) (UsageDataset.lastSyncDate data)
    (UsageDataset.totalEvents data)
    (match UsageDataset.syncMetadata data with
     | Some sm =>
         Some (SyncMetadata.mk (SyncMetadata.lastSuccessfulSync sm) v
                 (SyncMetadata.syncStrategy sm))
     | None => None
     end)
    (UsageDataset.events data).

Definition updateAdaptivePageSize (responseTime eventsCount : Z) (fs : FS.t) : FS.t :=
  match loadUsageData fs with
  | Some data =>
      match UsageDataset.syncMetadata data with
      | Some sm =>
          let currentPageSize := JS.or_Z (SyncMetadata.adaptivePageSize sm) 500 in
          let new := newPageSize responseTime eventsCount currentPageSize in
          if negb (Double.eqb new (Double.of_Z currentPageSize)) then
            FS.mk (Some (set_adaptivePageSize (Double.round new) data))
              (FS.STATS_FILE fs)
          else fs
      | None => fs
      end
  | None => fs
  end.

(** *** appendUsageData, loadStats *)

Definition appendUsageData (CONFIG : gmap string Z) (now : Z)
    (newData : list Event.t) (fs : FS.t) : FS.t :=
  mergeUsageData CONFIG now newData false fs.

Definition loadStats (fs : FS.t) : option Stats.t := FS.STATS_FILE fs.

(** *** getSyncMetadata *)

(** The object [getSyncMetadata] returns; [lastSyncDate] is [null] and
    [lastSuccessfulSync] is absent when there is no dataset. *)
Module SyncInfo.
Record t := mk {
  lastSyncDate : option Z;
  adaptivePageSize : Z;
  syncStrategy : SyncMetadata.strategy;
  lastSuccessfulSync : option Z
}.
End SyncInfo.

Definition getSyncMetadata (fs : FS.t) : SyncInfo.t :=
  match loadUsageData fs with
  | None => SyncInfo.mk None 500 SyncMetadata.full None
  | Some data =>
      SyncInfo.mk
        (Some (UsageDataset.lastSyncDate data))
        (match UsageDataset.syncMetadata data with
         | Some sm => JS.or_Z (SyncMetadata.adaptivePageSize sm) 500
         | None => 500
         end)
        (match UsageDataset.syncMetadata data with
         | Some sm => SyncMetadata.syncStrategy sm
         | None => SyncMetadata.full
         end)
        (SyncMetadata.lastSuccessfulSync <$> UsageDataset.syncMetadata data)
  end.

(** *** cleanupOldData *)

(** [daysBefore now n] is the instant [cutoffDate] reaches by
    [setDate(getDate() - n)] from the clock reading [now]: the same local
    time of day [n] calendar days earlier. It is a function of the host
    calendar and time zone. *)
Definition cleanupOldData (daysBefore : Z → Z → Z) (now : Z) (daysToKeep : Z)
    (fs : FS.t) : FS.t :=
  match loadUsageData fs with
  | Some data =>
      match UsageDataset.events data with
      | [] => fs
      | _ =>
          let cutoffDate := daysBefore now daysToKeep in
          let filteredEvents :=
            List.filter (fun event => cutoffDate <=? Event.date event)
              (UsageDataset.events data) in
          if Nat.ltb (length filteredEvents) (length (UsageDataset.events data))
          then saveUsageData now filteredEvents false fs
          else fs
      end
  | None => fs
  end.

End DataStorage.

(** ** Collection ([data_collector.js], the methods that use the storage) *)

Module Collection.

Import DataStorage.

(** The body of the POST to the events endpoint. *)
Module Request.
Record t := mk {
  startDate : Z;
  endDate : Z;
  page : Z;
  pageSize : Z
}.
End Request.

(** What [page.evaluate] yields for a request: the measured round trip
    and the [usageEventsDisplay] array of the response (empty when the
    request failed inside the page or the field is missing), or an
    exception. *)
Inductive reply :=
| Reply (responseTime : Z) (usageEventsDisplay : list RawVendorEvent.t)
| Failure.

(** [syncMetadata && syncMetadata.lastSyncDate] of [fetchAllEvents]; the
    decimal string of a watermark is never empty. *)
Definition fetch_isIncremental (syncMetadata : option SyncInfo.t) : bool :=
  match syncMetadata with
  | Some md => bool_decide (is_Some (SyncInfo.lastSyncDate md))
  | None => false
  end.

(** [syncMetadata?.adaptivePageSize || 500] *)
Definition fetch_pageSize (syncMetadata : option SyncInfo.t) : Z :=
  match syncMetadata with
  | Some md => JS.or_Z (SyncInfo.adaptivePageSize md) 500
  | None => 500
  end.

(** The request of a page: from the watermark to now for an incremental
    sync, from the epoch to now for a full one. *)
Definition request_of (syncMetadata : option SyncInfo.t) (now pageNum : Z)
    : Request.t :=
  Request.mk
    (match syncMetadata with
     | Some md =>
         match SyncInfo.lastSyncDate md with
         | Some lastSyncDate => lastSyncDate
         | None => 0
         end
     | None => 0
     end)
    now pageNum (fetch_pageSize syncMetadata).

(** The [while (hasMore)] loop of [fetchAllEvents]; [fuel] bounds the
    number of pages, [None] is a loop still running when it is spent. *)
Fixpoint fetch_pages (fuel : nat) (server : Request.t → reply)
    (syncMetadata : option SyncInfo.t) (now pageNum : Z)
    (allEvents : list RawVendorEvent.t) (fs : FS.t)
    : option (list RawVendorEvent.t * FS.t) :=
  match fuel with
  | O => None
  | S fuel' =>
      match server (request_of syncMetadata now pageNum) with
      | Failure => Some (allEvents, fs)
      | Reply responseTime events =>
          let fs' :=
            match syncMetadata with
            | Some _ =>
                updateAdaptivePageSize responseTime (Z.of_nat (length events)) fs
            | None => fs
            end in
          match events with
          | [] => Some (allEvents, fs')
          | _ =>
              fetch_pages fuel' server syncMetadata now (pageNum + 1)
                (allEvents ++ events) fs'
          end
      end
  end.

Definition fetchAllEvents (fuel : nat) (server : Request.t → reply)
    (syncMetadata : option SyncInfo.t) (now : Z) (fs : FS.t)
    : option (list RawVendorEvent.t * FS.t) :=
  fetch_pages fuel server syncMetadata now 1 [] fs.

(** The filter of [collectActiveEventsForUpdates]:
    [activeEventIds.some(activeId => activeId.startsWith(event.timestamp))]. *)
Definition relevantEvents (activeEventIds : list string)
    (events : list RawVendorEvent.t) : list RawVendorEvent.t :=
  List.filter
    (fun event =>
       existsb
         (fun activeId =>
            JS.startsWith activeId
              (default "undefined" (RawVendorEvent.timestamp event)))
         activeEventIds)
    events.

Section Collector.

Variable parseInt : string → JS.num Z.
Variable parseFloat : string → JS.num Qc.

(** [events.map(event => this.parseUsageEvent(event))]; [rnd i] is the
    random suffix drawn for the event at index [i]. *)
Definition parse_all (now : Z) (rnd : nat → string)
    (events : list RawVendorEvent.t) : list Event.t :=
  imap
    (fun i event =>
       DataCollector.parseUsageEvent parseInt parseFloat now (rnd i) event)
    events.

(** [collectFromAPI]: fetch, then normalize every record. *)
Definition collectFromAPI (fuel : nat) (server : Request.t → reply)
    (syncMetadata : option SyncInfo.t) (now : Z) (rnd : nat → string)
    (fs : FS.t) : option (list Event.t * FS.t) :=
  match fetchAllEvents fuel server syncMetadata now fs with
  | Some (eventsData, fs') => Some (parse_all now rnd eventsData, fs')
  | None => None
  end.

(** [collectActiveEventsForUpdates]; [response] is the events array of
    the one request for the last thirty days, [None] when a step before
    it or the request itself fails. *)
Definition collectActiveEventsForUpdates (CONFIG : gmap string Z) (now : Z)
    (rnd : nat → string) (response : option (list RawVendorEvent.t))
    (fs : FS.t) : list Event.t :=
  match loadUsageData fs with
  | None => []
  | Some existingData =>
      match getActiveEvents CONFIG now (UsageDataset.events existingData) with
      | [] => []
      | activeEvents =>
          let activeEventIds := map Event.id activeEvents in
          match response with
          | None => []
          | Some [] => []
          | Some events =>
              parse_all now rnd (relevantEvents activeEventIds events)
          end
      end
  end.

(** The sync decision of [collectUsageData]:
    [syncMetadata && syncMetadata.lastSyncDate &&
     syncMetadata.lastSyncDate !== '0']. *)
Definition isIncremental (syncMetadata : SyncInfo.t) : bool :=
  match SyncInfo.lastSyncDate syncMetadata with
  | Some lastSyncDate => negb (lastSyncDate =? 0)
  | None => false
  end.

(** The outcome of one collection cycle. *)
Inductive outcome :=
| StillFetching
| AuthenticationRequired
| Collected (data : list Event.t) (fs : FS.t).

(** [collectUsageData]. The browser steps are inputs: whether the
    session is authenticated, the replies of the events endpoint, the
    response of the active-events request and the rows extracted from
    the page. The array [data] it returns is the one it handed to
    [mergeUsageData]. *)
Definition collectUsageData (CONFIG : gmap string Z) (now : Z)
    (isAuthenticated : bool) (fuel : nat) (server : Request.t → reply)
    (rnd : nat → string) (activeResponse : option (list RawVendorEvent.t))
    (activeRnd : nat → string) (domData : list Event.t) (fs : FS.t)
    : outcome :=
  if negb isAuthenticated then AuthenticationRequired
  else
    let syncMetadata := getSyncMetadata fs in
    let incremental := isIncremental syncMetadata in
    match collectFromAPI fuel server (Some syncMetadata) now rnd fs with
    | None => StillFetching
    | Some (apiData, fs1) =>
        let data :=
          if incremental && Nat.eqb (length apiData) 0
          then collectActiveEventsForUpdates CONFIG now activeRnd
                 activeResponse fs1
          else apiData in
        if Nat.eqb (length data) 0 then Collected domData fs1
        else
          Collected (newData_after_merge data incremental fs1)
            (mergeUsageData CONFIG now data incremental fs1)
    end.

End Collector.

End Collection.


(** * Specification-side definitions *)

(** The vendor kinds whose usage a plan includes, and the vendor kinds of
    requests that are not charged. *)
Definition included_plan_kinds : list string :=
  ["USAGE_EVENT_KIND_CUSTOM_SUBSCRIPTION";
   "USAGE_EVENT_KIND_INCLUDED_IN_PRO";
   "USAGE_EVENT_KIND_INCLUDED_IN_BUSINESS";
   "USAGE_EVENT_KIND_INCLUDED_IN_PRO_PLUS";
   "USAGE_EVENT_KIND_INCLUDED_IN_ULTRA"].

Definition not_charged_kinds : list string :=
  ["USAGE_EVENT_KIND_ERRORED_NOT_CHARGED";
   "USAGE_EVENT_KIND_ABORTED_NOT_CHARGED"].

(** The kind of a record is one of [kinds]; a record without kind has none
    of them. *)
Definition kind_among (kinds : list string) (kind : option string) : bool :=
  match kind with
  | Some k => existsb (String.eqb k) kinds
  | None => false
  end.

(** The precedence of the display cost as the specification words it, over
    an event's vendor kind and the three cost figures of its [costInfo]. *)
Definition displayCost_by_precedence (kind : option string)
    (totalCents : Qc) (usageBasedCosts : JS.num Qc) (requestsCosts : Qc) : Qc :=
  if kind_among included_plan_kinds kind then 0%Qc
  else if kind_among not_charged_kinds kind then 0%Qc
  else if bool_decide (0 < totalCents)%Qc then (totalCents / Qc_of_Z 100)%Qc
  else match usageBasedCosts with
       | JS.Num u =>
           if bool_decide (0 < u)%Qc then u
           else if bool_decide (0 < requestsCosts)%Qc then requestsCosts
           else 0%Qc
       | JS.NaN =>
           if bool_decide (0 < requestsCosts)%Qc then requestsCosts else 0%Qc
       end.

(** The [costInfo] object of the normalizer when the display-cost chain is
    entered. *)
Definition costInfo_copied (parseFloat : string → JS.num Qc)
    (event : RawVendorEvent.t) : CostInfo.t :=
  DataCollector.copy_usageBasedCosts parseFloat event
    (DataCollector.copy_requestsCosts event
       (DataCollector.copy_totalCents event DataCollector.costInfo_init)).

(** The field comparison for "updated" as the specification words it. A
    sub-field of [tokenUsage] or of [costInfo] is compared when both events
    carry the object. *)
Definition top_fields_differ (e1 e2 : Event.t) : Prop :=
  Event.credits e1 ≠ Event.credits e2
  ∨ Event.tokens e1 ≠ Event.tokens e2
  ∨ Event.cost e1 ≠ Event.cost e2
  ∨ Event.kind e1 ≠ Event.kind e2
  ∨ Event.model e1 ≠ Event.model e2.

Definition tokenUsage_fields_differ (e1 e2 : Event.t) : Prop :=
  ∃ a b,
    Event.tokenUsage e1 = Some a ∧ Event.tokenUsage e2 = Some b
    ∧ (TokenUsage.inputTokens a ≠ TokenUsage.inputTokens b
       ∨ TokenUsage.outputTokens a ≠ TokenUsage.outputTokens b
       ∨ TokenUsage.cacheReadTokens a ≠ TokenUsage.cacheReadTokens b
       ∨ TokenUsage.cacheWriteTokens a ≠ TokenUsage.cacheWriteTokens b).

Definition costInfo_fields_differ (e1 e2 : Event.t) : Prop :=
  ∃ a b,
    Event.costInfo e1 = Some a ∧ Event.costInfo e2 = Some b
    ∧ (CostInfo.originalCost a ≠ CostInfo.originalCost b
       ∨ CostInfo.discountedCost a ≠ CostInfo.discountedCost b
       ∨ CostInfo.discount a ≠ CostInfo.discount b).

Definition compared_fields_differ (e1 e2 : Event.t) : Prop :=
  top_fields_differ e1 e2
  ∨ tokenUsage_fields_differ e1 e2
  ∨ costInfo_fields_differ e1 e2.

(** The timestamp prefix of an event: its id up to the first underscore. *)
Definition ts_prefix (e : Event.t) : string := JS.split0 (Event.id e).

(** [cur] multiplied by [num / den], to the nearest integer, a half upwards. *)
Definition scaled (cur num den : Z) : Z := (2 * num * cur + den) / (2 * den).

(** The sizes between 100 and 1000 whose seven tenths end in a half that
    the binary64 product misses from below: [165 * 0.7] is
    [115.49999999999999]. *)
Definition below_half_sizes : list Z :=
  [165; 175; 325; 335; 345; 355; 365; 645; 655; 665; 675; 685; 695; 705; 715; 725].

(** [cur * 0.7] as the controller rounds it: to the nearest integer, a
    half upwards where binary64 reaches it. *)
Definition shrunk (cur : Z) : Z :=
  if existsb (Z.eqb cur) below_half_sizes then scaled cur 7 10 - 1
  else scaled cur 7 10.

(** The sizes from 100 to 1000, and the comparison of the controller's two
    products with [scaled] and [shrunk] at one of them. *)
Definition bounded_sizes : list Z := map Z.of_nat (seq 100 901).

Definition products_agree (cur : Z) : bool :=
  let c := Double.of_Z cur in
  let up := Double.min (Double.mul c (Double.literal 15 10)) (Double.of_Z 1000) in
  let down := Double.max (Double.mul c (Double.literal 7 10)) (Double.of_Z 100) in
  (Double.round up =? Z.min (scaled cur 3 2) 1000)
  && Bool.eqb (Double.eqb up c) (Double.round up =? cur)
  && (Double.round down =? Z.max (shrunk cur) 100)
  && Bool.eqb (Double.eqb down c) (Double.round down =? cur)
  && (Double.round c =? cur)
  && Double.eqb c c.

(** The persisted adaptive page size, if any. *)
Definition pageSize_of (fs : FS.t) : option Z :=
  SyncMetadata.adaptivePageSize
    <$> (DataStorage.loadUsageData fs ≫= UsageDataset.syncMetadata).

(** The controller fed with the observations (latency, event count) of
    successive pages. *)
Definition observe_pages (observations : list (Z * Z)) (fs : FS.t) : FS.t :=
  fold_left
    (fun fs o => DataStorage.updateAdaptivePageSize (fst o) (snd o) fs)
    observations fs.

(** The newest date of a batch, if the batch has an event. *)
Fixpoint max_date (data : list Event.t) : option Z :=
  match data with
  | [] => None
  | e :: r =>
      Some (match max_date r with
            | Some m => Z.max (Event.date e) m
            | None => Event.date e
            end)
  end.

(** The persisted watermark and the persisted events, if any. *)
Definition watermark_of (fs : FS.t) : option Z :=
  UsageDataset.lastSyncDate <$> DataStorage.loadUsageData fs.

Definition events_of (fs : FS.t) : option (list Event.t) :=
  UsageDataset.events <$> DataStorage.loadUsageData fs.

(** Newest first: every event is followed by events that are not newer. *)
Definition newest_first (l : list Event.t) : Prop :=
  StronglySorted (fun a b => Event.date b <= Event.date a) l.

(** An event with the given id, date, kind, cost and credits, for the
    examples. *)
Definition sample (id : string) (date : Z) (kind : string) (cost credits : Z)
    : Event.t :=
  Event.mk id date "auto" kind kind (Some 0%Qc) None (Some (Qc_of_Z cost)) None
    (Some (Qc_of_Z credits)) None "API" None.

(** A data directory without files, and one holding a dataset. *)
Definition no_files : FS.t := FS.mk None None.

Definition stored (pageSize : Z) (events : list Event.t) : FS.t :=
  FS.mk
    (Some (UsageDataset.mk 0 0 (length events)
             (Some (SyncMetadata.mk 0 pageSize SyncMetadata.full)) events))
    None.

(** The sum of the costs of a list of events, added from 0 in the order of
    the list; the cost of an event is the [eventCost] of the aggregator. *)
Definition sum_costs_from (init : Qc) (l : list Event.t) : Qc :=
  fold_left (fun s e => (s + DataStorage.eventCost e)%Qc) l init.

Definition sum_costs (l : list Event.t) : Qc := sum_costs_from 0%Qc l.

(** The [cost] of the entry of a key in [byModel] or [byKind], 0 for a key
    without entry. *)
Definition cost_at (m : gmap string Agg.t) (key : string) : Qc :=
  default 0%Qc (Agg.cost <$> m !! key).

(** The cost the statistics count for an event: the original cost of its
    [costInfo] when it has one other than 0, else its [cost], 0 without. *)
Definition shown_cost (e : Event.t) : Qc :=
  match Event.cost e with Some c => c | None => 0%Qc end.

Definition cost_in_stats (e : Event.t) : Qc :=
  match Event.costInfo e with
  | Some c =>
      match CostInfo.originalCost c with
      | Some oc => if bool_decide (oc = 0%Qc) then shown_cost e else oc
      | None => shown_cost e
      end
  | None => shown_cost e
  end.

(** The sum of these costs over a list of events, added from 0 in the
    order of the list. *)
Definition total_cost (l : list Event.t) : Qc :=
  fold_left (fun s e => (s + cost_in_stats e)%Qc) l 0%Qc.

(** "The kind is errored, not charged": the slug of the kind table or the
    vendor's name of the kind. *)
Definition errored_not_charged (e : Event.t) : bool :=
  String.eqb (Event.kind e) "errored_not_charged"
  || String.eqb (Event.kind e) "USAGE_EVENT_KIND_ERRORED_NOT_CHARGED".

Definition paid (e : Event.t) : bool := negb (errored_not_charged e).

(** The key an event is filed under: its model, its kind, [unknown] for an
    empty one. *)
Definition key_of (s : string) : string :=
  if String.eqb s "" then "unknown" else s.

Definition has_model (m : string) (e : Event.t) : bool :=
  String.eqb (key_of (Event.model e)) m.

Definition has_kind (k : string) (e : Event.t) : bool :=
  String.eqb (key_of (Event.kind e)) k.

(** The names of the properties of [Object.prototype]. *)
Definition prototype_property_names : list string :=
  ["constructor"; "hasOwnProperty"; "isPrototypeOf"; "propertyIsEnumerable";
   "toLocaleString"; "toString"; "valueOf"; "__proto__"; "__defineGetter__";
   "__defineSetter__"; "__lookupGetter__"; "__lookupSetter__"].

Definition ordinary_key (key : string) : bool :=
  negb (existsb (String.eqb key) prototype_property_names).

(** A usage-based vendor record of 500 cents whose model is named
    [constructor]. *)
Definition constructor_record : RawVendorEvent.t :=
  RawVendorEvent.mk (Some "1756000000000") (Some "USAGE_EVENT_KIND_USAGE_BASED")
    (Some "constructor")
    (Some (RawTokenUsage.mk None None None None (Some (Qc_of_Z 500))))
    None None None None None.

(** [has_prefix T e]: the id of [e] has the timestamp prefix [T]. *)
Definition has_prefix (T : string) (e : Event.t) : bool :=
  String.eqb (ts_prefix e) T.

(** The incoming events as the update pass sees them: the values of the
    map keyed by id. *)
Definition batch_values (newData : list Event.t) : list Event.t :=
  Arr.Map_values (DataStorage.newEventsMap newData).

(** "Neither its full id nor its timestamp prefix is already present." *)
Definition fresh (present : list Event.t) (e : Event.t) : bool :=
  negb (existsb (fun s => String.eqb (Event.id s) (Event.id e)) present)
  && negb (existsb (fun s => String.eqb (ts_prefix s) (ts_prefix e)) present).







(** * Further specification-side definitions *)

(** The [count] of the entry of a key in [byModel] or [byKind], and of a
    day in [byDate]; 0 without entry. *)
Definition count_at (m : gmap string Agg.t) (key : string) : nat :=
  default O (Agg.count <$> m !! key).

Definition day_count_at (m : gmap Z DateAgg.t) (day : Z) : nat :=
  default O (DateAgg.count <$> m !! day).

(** The UTC calendar day of an event, counted from the epoch. *)
Definition on_day (day : Z) (e : Event.t) : bool :=
  Event.date e / 86400000 =? day.

(** A string without underscore. *)
Fixpoint no_underscore (s : string) : bool :=
  match s with
  | EmptyString => true
  | String c r => negb (Ascii.eqb c "_") && no_underscore r
  end.

(** The slugs of the kind table. *)
Definition kind_slugs : list string :=
  ["pro-free-trial"; "free"; "custom_subscription"; "included_pro";
   "included_business"; "included_pro_plus"; "included_ultra";
   "errored_not_charged"; "aborted_not_charged"; "usage_based";
   "user_api_key"; "unknown"].

(** The observations the fetcher feeds to the page-size controller for a
    run of non-empty pages, and for the reply that ends the run. *)
Definition page_observations (pages : list (Z * list RawVendorEvent.t))
    : list (Z * Z) :=
  map (fun p => (fst p, Z.of_nat (length (snd p)))) pages.

Definition last_observation (last : Collection.reply) : list (Z * Z) :=
  match last with
  | Collection.Reply responseTime _ => [(responseTime, 0)]
  | Collection.Failure => []
  end.

(** A server that holds [n] full pages and answers every request within
    [responseTime] ms: a page up to the [n]-th carries as many records as
    the request asks for, a later page none. *)
Definition blank_record : RawVendorEvent.t :=
  RawVendorEvent.mk (Some "1756000000000") None None None None None None None None.

Definition full_pages (n responseTime : Z) (q : Collection.Request.t)
    : Collection.reply :=
  if Collection.Request.page q <=? n then
    Collection.Reply responseTime
      (repeat blank_record (Z.to_nat (Collection.Request.pageSize q)))
  else Collection.Reply responseTime [].

(** The max-mode flag of an event as the statistics read it: the flag of
    the raw record when it has one, else the flag of the event, else
    false. *)
Definition max_mode_set (e : Event.t) : bool :=
  match Event.rawData e with
  | Some raw =>
      match RawVendorEvent.maxMode raw with
      | Some b => b
      | None => default false (Event.maxMode e)
      end
  | None => default false (Event.maxMode e)
  end.

(** The largest time value of a [Date]: [new Date(t)] is an Invalid Date
    for a number beyond it. *)
Definition Date_max : Z := 8640000000000000.

(** The number read from the timestamp of a record, if any, does not
    exceed it. *)
Definition timestamp_within_Date (parseInt : string → JS.num Z)
    (event : RawVendorEvent.t) : Prop :=
  ∀ s ts,
    RawVendorEvent.timestamp event = Some s →
    parseInt s = JS.Num ts →
    ts <= Date_max.

(** * Properties *)

(** ** Normalizer: the display cost *)

Section NormalizerFacts.

Import DataCollector.

Variable parseFloat : string → JS.num Qc.

Lemma copied_totalCents event :
  CostInfo.totalCents (costInfo_copied parseFloat event)
  = JS.or_Qc (RawVendorEvent.tokenUsage event ≫= RawTokenUsage.totalCents) 0%Qc.
Proof.
  unfold costInfo_copied, copy_usageBasedCosts, copy_requestsCosts,
    copy_totalCents, JS.or_Qc.
  destruct event as [ts k m [tu|] rc ubc csn mm dmm]; simpl;
    [destruct (RawTokenUsage.totalCents tu) as [c|]; simpl;
     [destruct (JS.truthy_Qc c)|]|];
    destruct rc as [r|]; try destruct (JS.truthy_Qc r);
    destruct ubc as [s|];
    try destruct (JS.truthy_str s && negb (String.eqb s "-"));
    reflexivity.
Qed.

Lemma copied_requestsCosts event :
  CostInfo.requestsCosts (costInfo_copied parseFloat event)
  = JS.or_Qc (RawVendorEvent.requestsCosts event) 0%Qc.
Proof.
  unfold costInfo_copied, copy_usageBasedCosts, copy_requestsCosts,
    copy_totalCents, JS.or_Qc.
  destruct event as [ts k m [tu|] rc ubc csn mm dmm]; simpl;
    [destruct (RawTokenUsage.totalCents tu) as [c|]; simpl;
     [destruct (JS.truthy_Qc c)|]|];
    destruct rc as [r|]; try destruct (JS.truthy_Qc r);
    destruct ubc as [s|];
    try destruct (JS.truthy_str s && negb (String.eqb s "-"));
    reflexivity.
Qed.

Lemma copied_usageBasedCosts event :
  CostInfo.usageBasedCosts (costInfo_copied parseFloat event)
  = match RawVendorEvent.usageBasedCosts event with
    | Some s =>
        if JS.truthy_str s && negb (String.eqb s "-") then parseFloat s
        else JS.Num 0%Qc
    | None => JS.Num 0%Qc
    end.
Proof.
  unfold costInfo_copied, copy_usageBasedCosts, copy_requestsCosts,
    copy_totalCents.
  destruct event as [ts k m [tu|] rc ubc csn mm dmm]; simpl;
    [destruct (RawTokenUsage.totalCents tu) as [c|]; simpl;
     [destruct (JS.truthy_Qc c)|]|];
    destruct rc as [r|]; try destruct (JS.truthy_Qc r);
    destruct ubc as [s|];
    try destruct (JS.truthy_str s && negb (String.eqb s "-"));
    reflexivity.
Qed.

(** The two classifiers of the chain, by the kinds they accept. *)
Lemma included_plan_kind_among k :
  included_plan_kind k = kind_among included_plan_kinds k.
Proof.
  destruct k as [k|]; [|reflexivity].
  unfold included_plan_kind, kind_among, included_plan_kinds, JS.is_str.
  cbn [existsb]. now rewrite orb_false_r, !orb_assoc.
Qed.

Lemma not_charged_kind_among k :
  not_charged_kind k = kind_among not_charged_kinds k.
Proof.
  destruct k as [k|]; [|reflexivity].
  unfold not_charged_kind, kind_among, not_charged_kinds, JS.is_str.
  cbn [existsb]. now rewrite orb_false_r.
Qed.

(** The chain leaves the three cost figures as they were copied. *)
Lemma choose_displayCost_figures event c :
  CostInfo.totalCents (choose_displayCost event c) = CostInfo.totalCents c
  ∧ CostInfo.usageBasedCosts (choose_displayCost event c)
    = CostInfo.usageBasedCosts c
  ∧ CostInfo.requestsCosts (choose_displayCost event c)
    = CostInfo.requestsCosts c.
Proof.
  destruct c; unfold choose_displayCost; simpl.
  repeat match goal with
         | |- context [if ?b then _ else _] => destruct b
         | |- context [match ?x with JS.Num _ => _ | JS.NaN => _ end] =>
             destruct x
         end; simpl; auto.
Qed.

Lemma choose_displayCost_value event c :
  CostInfo.displayCost c = 0%Qc →
  CostInfo.displayCost (choose_displayCost event c)
  = displayCost_by_precedence (RawVendorEvent.kind event)
      (CostInfo.totalCents c) (CostInfo.usageBasedCosts c)
      (CostInfo.requestsCosts c).
Proof.
  intros H0. unfold choose_displayCost, displayCost_by_precedence,
    JS.num_pos, JS.Qc_pos.
  rewrite <- included_plan_kind_among, <- not_charged_kind_among.
  destruct (included_plan_kind _); [reflexivity|].
  destruct (not_charged_kind _); [reflexivity|].
  destruct (bool_decide (0 < CostInfo.totalCents c)%Qc); [reflexivity|].
  destruct (CostInfo.usageBasedCosts c) as [u|].
  - destruct (bool_decide (0 < u)%Qc); [reflexivity|].
    destruct (bool_decide (0 < CostInfo.requestsCosts c)%Qc);
      [reflexivity|exact H0].
  - destruct (bool_decide (0 < CostInfo.requestsCosts c)%Qc);
      [reflexivity|exact H0].
Qed.

Lemma copied_displayCost event :
  CostInfo.displayCost (costInfo_copied parseFloat event) = 0%Qc.
Proof.
  unfold costInfo_copied, copy_usageBasedCosts, copy_requestsCosts,
    copy_totalCents.
  destruct event as [ts k m [tu|] rc ubc csn mm dmm]; simpl;
    [destruct (RawTokenUsage.totalCents tu) as [c|]; simpl;
     [destruct (JS.truthy_Qc c)|]|];
    destruct rc as [r|]; try destruct (JS.truthy_Qc r);
    destruct ubc as [s|];
    try destruct (JS.truthy_str s && negb (String.eqb s "-"));
    reflexivity.
Qed.

End NormalizerFacts.

(** C4. For every raw vendor event the normalizer stores in [displayCost]
    (and in the event's [cost]) the value chosen by the precedence:
    0 for an included-plan kind (the custom subscription and the four
    [INCLUDED_IN_] kinds), else 0 for the errored and the aborted
    not-charged kind, else [totalCents / 100] when [totalCents > 0], else
    [usageBasedCosts] when positive, else [requestsCosts] when positive,
    else 0. The three figures are those of the event's own [costInfo], which
    are the raw record's figures. In particular an [INCLUDED_IN_PRO] record
    has display cost 0 whatever its cost figures. *)
Theorem parseUsageEvent_displayCost :
  ∀ (parseInt : string → JS.num Z) (parseFloat : string → JS.num Qc)
    (now : Z) (rnd : string) (event : RawVendorEvent.t),
    let parsed := DataCollector.parseUsageEvent parseInt parseFloat now rnd event in
    let c := DataCollector.parse_costInfo parseFloat event in
    Event.costInfo parsed = Some c
    ∧ Event.cost parsed = Some (CostInfo.displayCost c)
    ∧ CostInfo.displayCost c
      = displayCost_by_precedence (RawVendorEvent.kind event)
          (CostInfo.totalCents c) (CostInfo.usageBasedCosts c)
          (CostInfo.requestsCosts c)
    ∧ CostInfo.totalCents c
      = JS.or_Qc (RawVendorEvent.tokenUsage event ≫= RawTokenUsage.totalCents) 0%Qc
    ∧ CostInfo.requestsCosts c = JS.or_Qc (RawVendorEvent.requestsCosts event) 0%Qc
    ∧ CostInfo.usageBasedCosts c
      = match RawVendorEvent.usageBasedCosts event with
        | Some s =>
            if JS.truthy_str s && negb (String.eqb s "-") then parseFloat s
            else JS.Num 0%Qc
        | None => JS.Num 0%Qc
        end
    ∧ (∀ ts m tu rc ubc csn mm dmm,
         CostInfo.displayCost
           (DataCollector.parse_costInfo parseFloat
              (RawVendorEvent.mk ts (Some "USAGE_EVENT_KIND_INCLUDED_IN_PRO")
                 m tu rc ubc csn mm dmm))
         = 0%Qc).
Proof.
  intros parseInt parseFloat now rnd event parsed c. subst parsed c.
  change (DataCollector.parse_costInfo parseFloat event)
    with (DataCollector.choose_displayCost event (costInfo_copied parseFloat event)).
  destruct (choose_displayCost_figures event (costInfo_copied parseFloat event))
    as (Ht & Hu & Hr).
  split; [reflexivity|]. split; [reflexivity|]. split; [|split; [|split; [|split]]].
  - rewrite Ht, Hu, Hr. apply choose_displayCost_value, copied_displayCost.
  - rewrite Ht. apply copied_totalCents.
  - rewrite Hr. apply copied_requestsCosts.
  - rewrite Hu. apply copied_usageBasedCosts.
  - reflexivity.
Qed.

(** ** Update detection *)

Section UpdateDetection.

Import DataStorage.

Lemma sne_true {A} `{EqDecision A} (a b : A) : sne a b = true ↔ a ≠ b.
Proof. unfold sne. apply bool_decide_eq_true. Qed.

Lemma sne_false {A} `{EqDecision A} (a b : A) : sne a b = false ↔ a = b.
Proof.
  unfold sne. rewrite bool_decide_eq_false. split.
  - intros Hn. destruct (decide (a = b)); [assumption|contradiction].
  - intros -> Hn. now apply Hn.
Qed.

Lemma tokenUsage_changed_true a b :
  tokenUsage_changed a b = true
  ↔ TokenUsage.inputTokens a ≠ TokenUsage.inputTokens b
    ∨ TokenUsage.outputTokens a ≠ TokenUsage.outputTokens b
    ∨ TokenUsage.cacheReadTokens a ≠ TokenUsage.cacheReadTokens b
    ∨ TokenUsage.cacheWriteTokens a ≠ TokenUsage.cacheWriteTokens b.
Proof.
  unfold tokenUsage_changed. rewrite !orb_true_iff, !sne_true. tauto.
Qed.

Lemma costInfo_changed_true a b :
  costInfo_changed a b = true
  ↔ CostInfo.originalCost a ≠ CostInfo.originalCost b
    ∨ CostInfo.discountedCost a ≠ CostInfo.discountedCost b
    ∨ CostInfo.discount a ≠ CostInfo.discount b.
Proof.
  unfold costInfo_changed. rewrite !orb_true_iff, !sne_true. tauto.
Qed.

Lemma top_changed_true e1 e2 :
  sne (Event.credits e1) (Event.credits e2)
  || sne (Event.tokens e1) (Event.tokens e2)
  || sne (Event.cost e1) (Event.cost e2)
  || sne (Event.kind e1) (Event.kind e2)
  || sne (Event.model e1) (Event.model e2) = true
  ↔ top_fields_differ e1 e2.
Proof.
  unfold top_fields_differ. rewrite !orb_true_iff, !sne_true. tauto.
Qed.

(** Events with different timestamp prefixes are never "updated". *)
Lemma isEventUpdated_prefix e1 e2 :
  isEventUpdated e1 e2 = true → ts_prefix e1 = ts_prefix e2.
Proof.
  unfold isEventUpdated, ts_prefix.
  destruct (sne (JS.split0 (Event.id e1)) (JS.split0 (Event.id e2))) eqn:E.
  - discriminate.
  - intros _. now apply sne_false.
Qed.

Lemma isEventUpdated_true e1 e2 :
  ts_prefix e1 = ts_prefix e2 →
  isEventUpdated e1 e2 = true ↔ compared_fields_differ e1 e2.
Proof.
  intros Hts. unfold isEventUpdated, compared_fields_differ.
  apply sne_false in Hts. unfold ts_prefix in Hts. rewrite Hts.
  destruct (sne (Event.credits e1) (Event.credits e2) || _ || _ || _ || _)
    eqn:Etop.
  - apply top_changed_true in Etop. tauto.
  - assert (Hntop : ¬ top_fields_differ e1 e2).
    { intros H. apply top_changed_true in H. congruence. }
    unfold tokenUsage_fields_differ, costInfo_fields_differ.
    destruct (Event.tokenUsage e1) as [a|], (Event.tokenUsage e2) as [b|];
      try destruct (tokenUsage_changed a b) eqn:Etu;
      try (apply tokenUsage_changed_true in Etu; split; [intros _|reflexivity];
           right; left; exists a, b; auto);
      (destruct (Event.costInfo e1) as [c|], (Event.costInfo e2) as [d|];
       [rewrite costInfo_changed_true; split;
        [intros H; right; right; exists c, d; auto
        |intros [H|[(a' & b' & Ha & Hb & H)|(c' & d' & Hc & Hd & H)]];
         [contradiction
         |try discriminate; simplify_eq;
          apply tokenUsage_changed_true in H; congruence
         |simplify_eq; assumption]]
       |split; [discriminate|
         intros [H|[(a' & b' & Ha & Hb & H)|(c' & d' & Hc & Hd & H)]];
         [contradiction
         |try discriminate; simplify_eq;
          apply tokenUsage_changed_true in H; congruence
         |discriminate]]..]).
Qed.

End UpdateDetection.

(** C8. For two events with the same timestamp prefix, [isEventUpdated]
    answers true exactly when one of [credits], [tokens], [cost], [kind],
    [model] differs, or one of the four [tokenUsage] sub-fields differs, or
    one of [originalCost], [discountedCost], [discount] of [costInfo]
    differs. Hence two events that agree on all compared fields are
    unchanged, whatever their full ids, and two events that differ in
    [credits] are updated. *)
Theorem isEventUpdated_compares_fields :
  ∀ e1 e2 : Event.t,
    ts_prefix e1 = ts_prefix e2 →
    (DataStorage.isEventUpdated e1 e2 = true ↔ compared_fields_differ e1 e2)
    ∧ (¬ compared_fields_differ e1 e2 → DataStorage.isEventUpdated e1 e2 = false)
    ∧ (Event.credits e1 ≠ Event.credits e2 → DataStorage.isEventUpdated e1 e2 = true).
Proof.
  intros e1 e2 Hts. pose proof (isEventUpdated_true e1 e2 Hts) as Hiff.
  split; [exact Hiff|]. split.
  - intros Hn. destruct (DataStorage.isEventUpdated e1 e2) eqn:E; [|reflexivity].
    exfalso. apply Hn, Hiff. reflexivity.
  - intros Hc. apply Hiff. left. left. exact Hc.
Qed.

Lemma isEventUpdated_compares_fields_witness :
  ts_prefix (sample "1000_a" 1000 "usage_based" 1 1)
  = ts_prefix (sample "1000_b" 1000 "usage_based" 1 2)
  ∧ DataStorage.isEventUpdated
      (sample "1000_a" 1000 "usage_based" 1 1)
      (sample "1000_b" 1000 "usage_based" 1 2) = true.
Proof.
  split; [reflexivity|].
  apply (isEventUpdated_compares_fields
           (sample "1000_a" 1000 "usage_based" 1 1)
           (sample "1000_b" 1000 "usage_based" 1 2)); [reflexivity|].
  vm_compute. intros H. discriminate H.
Defined.
(** ** Adaptive page-size controller *)

Section PageSize.

Import DataStorage.

Lemma products_agree_bounded : forallb products_agree bounded_sizes = true.
Proof. vm_compute. reflexivity. Qed.

Lemma products_agree_at cur : 100 <= cur <= 1000 → products_agree cur = true.
Proof.
  intros H. apply (proj1 (forallb_forall _ _) products_agree_bounded).
  unfold bounded_sizes. apply in_map_iff. exists (Z.to_nat cur).
  split; [lia|]. apply in_seq. lia.
Qed.

Lemma shrunk_near cur : scaled cur 7 10 - 1 <= shrunk cur <= scaled cur 7 10.
Proof. unfold shrunk. destruct (existsb _ _); lia. Qed.

Lemma scaled_seven_tenths cur : -5 < 10 * scaled cur 7 10 - 7 * cur <= 5.
Proof.
  unfold scaled.
  pose proof (Z.div_mod (2 * 7 * cur + 10) (2 * 10) ltac:(lia)) as Hd.
  pose proof (Z.mod_pos_bound (2 * 7 * cur + 10) (2 * 10) ltac:(lia)) as Hm.
  lia.
Qed.

(** The products of the table are nearest integers of the exact ones. *)
Lemma shrunk_nearest cur : Z.abs (10 * shrunk cur - 7 * cur) <= 5.
Proof.
  pose proof (scaled_seven_tenths cur) as Hs.
  unfold shrunk. destruct (existsb _ _) eqn:E; [|lia].
  apply existsb_exists in E as (x & Hx & E). apply Z.eqb_eq in E. subst x.
  unfold below_half_sizes in Hx. simpl in Hx.
  repeat (destruct Hx as [<-|Hx]; [vm_compute; discriminate|]).
  destruct Hx.
Qed.

(** The rounded new size, in integer terms. *)
Lemma round_newPageSize responseTime eventsCount cur :
  100 <= cur <= 1000 →
  Double.round (newPageSize responseTime eventsCount cur)
  = if (responseTime <? 1000) && (eventsCount =? cur)
    then Z.min (scaled cur 3 2) 1000
    else if 3000 <? responseTime then Z.max (shrunk cur) 100
         else cur.
Proof.
  intros H. pose proof (products_agree_at cur H) as Hc.
  unfold products_agree in Hc. cbv zeta in Hc.
  repeat (apply andb_prop in Hc as [Hc ?]).
  unfold newPageSize.
  destruct ((responseTime <? 1000) && (eventsCount =? cur)); [lia|].
  destruct (3000 <? responseTime); lia.
Qed.

(** The new size differs from the current one exactly when its rounding
    does. *)
Lemma newPageSize_unchanged responseTime eventsCount cur :
  100 <= cur <= 1000 →
  Double.eqb (newPageSize responseTime eventsCount cur) (Double.of_Z cur)
  = (Double.round (newPageSize responseTime eventsCount cur) =? cur).
Proof.
  intros H. pose proof (products_agree_at cur H) as Hc.
  unfold products_agree in Hc. cbv zeta in Hc.
  repeat (apply andb_prop in Hc as [Hc ?]).
  unfold newPageSize.
  destruct ((responseTime <? 1000) && (eventsCount =? cur));
    [now apply eqb_prop|].
  destruct (3000 <? responseTime); [now apply eqb_prop|].
  match goal with
  | H1 : Double.eqb _ _ = true, H2 : (Double.round _ =? _) = true |- _ =>
      now rewrite H1, H2
  end.
Qed.

Lemma scaled_bounds cur :
  100 <= cur <= 1000 →
  100 <= Z.min (scaled cur 3 2) 1000 <= 1000
  ∧ 100 <= Z.max (shrunk cur) 100 <= 1000.
Proof.
  intros H. pose proof (shrunk_near cur) as Hs. unfold scaled in *.
  assert (150 <= (2 * 3 * cur + 2) / (2 * 2)).
  { apply Z.div_le_lower_bound; lia. }
  assert ((2 * 7 * cur + 10) / (2 * 10) < 701).
  { apply Z.div_lt_upper_bound; lia. }
  lia.
Qed.

(** What one observation leaves on disk. *)
Lemma updateAdaptivePageSize_pageSize responseTime eventsCount fs cur :
  pageSize_of fs = Some cur → 100 <= cur <= 1000 →
  pageSize_of (updateAdaptivePageSize responseTime eventsCount fs)
  = Some (Double.round (newPageSize responseTime eventsCount cur)).
Proof.
  unfold pageSize_of, updateAdaptivePageSize, loadUsageData.
  destruct fs as [[data|] stats]; simpl; [|discriminate].
  destruct (UsageDataset.syncMetadata data) as [sm|] eqn:Esm; simpl;
    [|discriminate].
  intros [= Hcur] Hb. subst cur.
  assert (Hnz : SyncMetadata.adaptivePageSize sm ≠ 0) by lia.
  unfold JS.or_Z. rewrite (proj2 (Z.eqb_neq _ _) Hnz).
  rewrite (newPageSize_unchanged _ _ _ Hb).
  destruct (Z.eqb_spec
              (Double.round
                 (newPageSize responseTime eventsCount
                    (SyncMetadata.adaptivePageSize sm)))
              (SyncMetadata.adaptivePageSize sm)) as [E|E]; simpl.
  - rewrite Esm. simpl. now rewrite E.
  - rewrite Esm. reflexivity.
Qed.

Lemma observe_pages_bounds observations :
  ∀ fs cur,
    pageSize_of fs = Some cur → 100 <= cur <= 1000 →
    ∃ cur', pageSize_of (observe_pages observations fs) = Some cur'
            ∧ 100 <= cur' <= 1000.
Proof.
  induction observations as [|[rt cnt] obs IH]; intros fs cur Hfs Hcur.
  - exists cur. auto.
  - unfold observe_pages. simpl.
    apply (IH _ (Double.round (newPageSize rt cnt cur))).
    + now apply updateAdaptivePageSize_pageSize.
    + rewrite round_newPageSize by exact Hcur.
      destruct (scaled_bounds cur Hcur).
      repeat match goal with |- context [if ?b then _ else _] => destruct b end;
        lia.
Qed.

End PageSize.

(** C7 (the code departs from it in what it takes for a full page). With a
    persisted page size [cur] in [100, 1000], one observation
    (latency, event count) leaves on disk: [cur * 1.5] to the nearest
    integer, capped at 1000, when the latency is below 1000 ms and the
    count equals [cur]; [cur * 0.7] to the nearest integer as binary64
    computes it ([shrunk]), but at least 100, when the latency is above
    3000 ms; [cur] otherwise. The new size is again in [100, 1000], and so
    is the size after any sequence of observations. The count is compared
    with the persisted size, not with the size the page was requested
    with: a fetch that starts at 500 requests every page with 500, and
    after two full pages answered in 900 ms the size is 750, where two
    growth steps give 1000. *)
Theorem updateAdaptivePageSize_controller :
  (∀ (responseTime eventsCount : Z) (fs : FS.t) (cur : Z),
     pageSize_of fs = Some cur →
     100 <= cur <= 1000 →
     ∃ new,
       pageSize_of (DataStorage.updateAdaptivePageSize responseTime eventsCount fs)
       = Some new
       ∧ (responseTime < 1000 → eventsCount = cur →
          new = Z.min (scaled cur 3 2) 1000)
       ∧ (3000 < responseTime →
          new = Z.max (shrunk cur) 100
          ∧ Z.abs (10 * shrunk cur - 7 * cur) <= 5)
       ∧ (¬ (responseTime < 1000 ∧ eventsCount = cur) → responseTime <= 3000 →
          new = cur)
       ∧ 100 <= new <= 1000
       ∧ (∀ observations, ∃ later,
            pageSize_of (observe_pages observations fs) = Some later
            ∧ 100 <= later <= 1000))
  ∧ (let fs := stored 500 [] in
     let syncMetadata := Some (DataStorage.getSyncMetadata fs) in
     (∀ now pageNum,
        Collection.Request.pageSize (Collection.request_of syncMetadata now pageNum)
        = 500)
     ∧ ∃ events fs',
         Collection.fetchAllEvents 4 (full_pages 2 900) syncMetadata 1756000100000 fs
         = Some (events, fs')
         ∧ length events = 1000%nat
         ∧ pageSize_of fs' = Some 750
         ∧ Z.min (scaled (Z.min (scaled 500 3 2) 1000) 3 2) 1000 = 1000).
Proof.
  split.
  - intros rt cnt fs cur Hfs Hcur.
    exists (Double.round (DataStorage.newPageSize rt cnt cur)).
    split; [now apply updateAdaptivePageSize_pageSize|].
    rewrite round_newPageSize by exact Hcur.
    destruct (scaled_bounds cur Hcur) as [Hup Hdown].
    pose proof (shrunk_nearest cur) as Hnear.
    destruct (Z.ltb_spec rt 1000) as [Hfast|Hfast];
      destruct (Z.eqb_spec cnt cur) as [Hfull|Hfull];
      destruct (Z.ltb_spec 3000 rt) as [Hslow|Hslow]; simpl;
      (split; [intros; try lia; reflexivity|]);
      (split; [intros; try lia; (split; [reflexivity|exact Hnear])|]);
      (split; [intros; try lia; try tauto; reflexivity|]);
      (split; [lia|]);
      intros obs; eapply observe_pages_bounds; eauto.
  - cbv zeta. split; [reflexivity|].
    eexists _, _. split; [vm_compute; reflexivity|].
    split; [reflexivity|]. split; reflexivity.
Qed.

Lemma updateAdaptivePageSize_controller_witness :
  pageSize_of (stored 165 []) = Some 165
  ∧ 100 <= 165 <= 1000
  ∧ pageSize_of (DataStorage.updateAdaptivePageSize 3500 20 (stored 165 []))
    = Some 115.
Proof.
  split; [reflexivity|]. split; [lia|].
  destruct updateAdaptivePageSize_controller as [Hlaw _].
  destruct (Hlaw 3500 20 (stored 165 []) 165 eq_refl ltac:(lia))
    as (new & Hnew & _ & Hslow & _).
  rewrite Hnew. f_equal. destruct Hslow as [-> _]; [lia|reflexivity].
Defined.

(** ** Saving: watermark, order, page size *)

Section Sorting.

Import DataStorage.

Lemma insert_head_date x l :
  Event.date <$> head (Arr.insert by_date_desc x l)
  = Some (match Event.date <$> head l with
          | Some m => Z.max (Event.date x) m
          | None => Event.date x
          end).
Proof.
  destruct l as [|y r]; simpl; [reflexivity|].
  unfold by_date_desc.
  destruct (Z.ltb_spec 0 (Event.date y - Event.date x)); simpl; f_equal; lia.
Qed.

(** The first event of the sorted copy carries the newest date. *)
Lemma sort_head_date data :
  Event.date <$> head (Arr.sort by_date_desc data) = max_date data.
Proof.
  induction data as [|x r IH]; simpl; [reflexivity|].
  rewrite insert_head_date, IH. reflexivity.
Qed.

Lemma syncDate_full now data :
  syncDate now data false = default now (max_date data).
Proof.
  unfold syncDate. rewrite <- sort_head_date.
  destruct (Arr.sort by_date_desc data); reflexivity.
Qed.

Lemma insert_Permutation x l : Permutation (Arr.insert by_date_desc x l) (x :: l).
Proof.
  induction l as [|y r IH]; simpl; [reflexivity|].
  destruct (0 <? by_date_desc x y); [|reflexivity].
  rewrite IH. apply perm_swap.
Qed.

Lemma sort_Permutation l : Permutation (Arr.sort by_date_desc l) l.
Proof.
  induction l as [|x r IH]; simpl; [reflexivity|].
  rewrite insert_Permutation. now constructor.
Qed.

Lemma insert_newest_first x l :
  newest_first l → newest_first (Arr.insert by_date_desc x l).
Proof.
  unfold newest_first. induction 1 as [|y r Hr IH Hy]; simpl.
  - repeat constructor.
  - unfold by_date_desc at 1.
    destruct (Z.ltb_spec 0 (Event.date y - Event.date x)) as [Hlt|Hge].
    + constructor; [exact IH|].
      rewrite Forall_forall. intros z Hz.
      apply list_elem_of_In in Hz.
      apply (Permutation_in _ (insert_Permutation x r)) in Hz.
      destruct Hz as [<-|Hz]; [lia|].
      rewrite Forall_forall in Hy. apply Hy. now apply list_elem_of_In.
    + constructor; [now constructor|].
      constructor; [lia|].
      rewrite Forall_forall in Hy. rewrite Forall_forall. intros z Hz.
      specialize (Hy z Hz). simpl in Hy. lia.
Qed.

(** The sort of the incremental merge orders newest first. *)
Lemma sort_newest_first l : newest_first (Arr.sort by_date_desc l).
Proof.
  induction l as [|x r IH]; simpl; [constructor|].
  now apply insert_newest_first.
Qed.

End Sorting.

(** C5. A full-sync save sets the watermark [lastSyncDate] to the newest
    date among the saved events, or to the current time when the batch is
    empty; an incremental save sets it to the current time, whatever the
    dates of the events. *)
Theorem saveUsageData_watermark :
  ∀ (now : Z) (data : list Event.t) (fs : FS.t),
    watermark_of (DataStorage.saveUsageData now data false fs)
    = Some (default now (max_date data))
    ∧ watermark_of (DataStorage.saveUsageData now data true fs) = Some now.
Proof.
  intros now data fs. split.
  - change (Some (DataStorage.syncDate now data false)
            = Some (default now (max_date data))).
    now rewrite syncDate_full.
  - reflexivity.
Qed.

Section SaveFacts.

Import DataStorage.

Lemma saveUsageData_events now data isIncremental fs :
  events_of (saveUsageData now data isIncremental fs) = Some data.
Proof. reflexivity. Qed.

Lemma mergeUsageData_full cfg now data fs :
  mergeUsageData cfg now data false fs = saveUsageData now data false fs.
Proof.
  unfold mergeUsageData. destruct (loadUsageData fs); reflexivity.
Qed.

(** An incremental merge either leaves the files alone or writes the
    events newest first. *)
Lemma mergeUsageData_incremental_newest_first cfg now newData fs :
  is_Some (loadUsageData fs) →
  mergeUsageData cfg now newData true fs = fs
  ∨ ∃ l, events_of (mergeUsageData cfg now newData true fs) = Some l
         ∧ newest_first l.
Proof.
  intros [ds Hds]. unfold mergeUsageData. rewrite Hds.
  destruct (_ && _); [left; reflexivity|].
  right. eexists. split; [apply saveUsageData_events|].
  apply sort_newest_first.
Qed.

Lemma saveUsageData_pageSize now data isIncremental fs :
  pageSize_of (saveUsageData now data isIncremental fs)
  = Some (if isIncremental
          then JS.or_Z (default 0 (pageSize_of fs)) 500
          else 500).
Proof.
  destruct isIncremental; [|reflexivity].
  unfold pageSize_of, saveUsageData, carried_page_size. simpl.
  destruct (loadUsageData fs ≫= UsageDataset.syncMetadata); reflexivity.
Qed.

End SaveFacts.

(** C6 (the code departs from it). A full-sync save persists the batch in
    the order it was handed over: the sorted copy made for the watermark is
    not the array that is written. So a batch given oldest first is
    persisted oldest first, through [saveUsageData] and through the
    full-sync branch of [mergeUsageData] alike. *)
Theorem full_save_keeps_batch_order :
  (∀ now data fs,
     events_of (DataStorage.saveUsageData now data false fs) = Some data)
  ∧ (∀ cfg now data fs,
       events_of (DataStorage.mergeUsageData cfg now data false fs) = Some data)
  ∧ events_of
      (DataStorage.saveUsageData 3000
         [sample "1000_a" 1000 "usage_based" 1 1;
          sample "2000_b" 2000 "usage_based" 1 1] false no_files)
    = Some [sample "1000_a" 1000 "usage_based" 1 1;
            sample "2000_b" 2000 "usage_based" 1 1]
  ∧ ¬ newest_first [sample "1000_a" 1000 "usage_based" 1 1;
                    sample "2000_b" 2000 "usage_based" 1 1].
Proof.
  split; [intros; apply saveUsageData_events|].
  split; [intros; rewrite mergeUsageData_full; apply saveUsageData_events|].
  split; [reflexivity|].
  intros H. unfold newest_first in H.
  apply StronglySorted_inv in H as [_ H].
  apply Forall_inv in H. simpl in H. lia.
Qed.

(** C10. A full save writes the default page size 500 into
    [syncMetadata.adaptivePageSize], whatever size was persisted before,
    also right after the controller adapted the size during the pagination
    of that sync; an incremental save carries the persisted size forward
    (500 when there is none). *)
Theorem full_save_resets_adaptivePageSize :
  ∀ (now : Z) (data : list Event.t) (fs : FS.t),
    pageSize_of (DataStorage.saveUsageData now data false fs) = Some 500
    ∧ (∀ cfg observations,
         pageSize_of
           (DataStorage.mergeUsageData cfg now data false
              (observe_pages observations fs))
         = Some 500)
    ∧ pageSize_of (DataStorage.saveUsageData now data true fs)
      = Some (JS.or_Z (default 0 (pageSize_of fs)) 500).
Proof.
  intros now data fs. split; [apply (saveUsageData_pageSize now data false)|].
  split.
  - intros cfg obs. rewrite mergeUsageData_full.
    apply (saveUsageData_pageSize now data false).
  - apply (saveUsageData_pageSize now data true).
Qed.

(** ** Active events *)

Section ActiveEvents.

Import DataStorage.

Lemma CONFIG_no_active_settings env :
  CONFIG env !! "ACTIVE_EVENTS_CHECK_HOURS" = None
  ∧ CONFIG env !! "ACTIVE_EVENTS_MAX_COUNT" = None.
Proof.
  unfold CONFIG. simpl. split; repeat (rewrite lookup_insert_ne by done);
    apply lookup_empty.
Qed.

Lemma CONFIG_documented_settings env :
  CONFIG_documented env !! "ACTIVE_EVENTS_CHECK_HOURS" = Some 24
  ∧ CONFIG_documented env !! "ACTIVE_EVENTS_MAX_COUNT" = Some 100.
Proof.
  unfold CONFIG_documented. split.
  - apply lookup_insert_eq.
  - rewrite lookup_insert_ne by done. apply lookup_insert_eq.
Qed.

Lemma filter_none {A} (l : list A) : List.filter (fun _ => false) l = [].
Proof. induction l; simpl; auto. Qed.

(** Without the two settings the cut-off is [NaN] and no event passes. *)
Lemma getActiveEvents_unset cfg now events :
  cfg !! "ACTIVE_EVENTS_CHECK_HOURS" = None →
  getActiveEvents cfg now events = [].
Proof.
  intros H. unfold getActiveEvents. destruct events as [|e r]; [reflexivity|].
  rewrite H. cbn [JS.ToNumber JS.mul JS.sub JS.lift2 JS.geb].
  rewrite filter_none. simpl.
  destruct (JS.ToNumber _) as [a|]; [|reflexivity].
  unfold Arr.slice0.
  repeat match goal with |- context [if ?b then _ else _] => destruct b end;
    rewrite ?take_nil; reflexivity.
Qed.

(** With the documented settings: the events dated in the last 24 hours
    (or later), at most the first 100 of them in stored order. *)
Lemma getActiveEvents_documented env now events :
  getActiveEvents (CONFIG_documented env) now events
  = take 100
      (List.filter (fun e => now - 86400000 <=? Event.date e) events).
Proof.
  unfold getActiveEvents.
  destruct (CONFIG_documented_settings env) as [-> ->].
  destruct events as [|e r]; [reflexivity|].
  cbn [JS.ToNumber JS.mul JS.sub JS.lift2 JS.geb JS.gtb].
  change (24 * 60 * 60 * 1000) with 86400000.
  set (l := List.filter _ (e :: r)).
  destruct (Z.ltb_spec 100 (Z.of_nat (length l))) as [Hlt|Hge].
  - reflexivity.
  - rewrite take_ge by lia. reflexivity.
Qed.

(** With a window of [h] hours configured. *)
Lemma getActiveEvents_hours cfg now events h :
  cfg !! "ACTIVE_EVENTS_CHECK_HOURS" = Some h →
  let recent :=
    List.filter (fun e => now - h * 3600000 <=? Event.date e) events in
  getActiveEvents cfg now events
  = match cfg !! "ACTIVE_EVENTS_MAX_COUNT" with
    | Some n =>
        if n <? Z.of_nat (length recent) then Arr.slice0 n recent else recent
    | None => recent
    end.
Proof.
  intros Hh recent. unfold getActiveEvents. rewrite Hh.
  cbn [JS.ToNumber JS.mul JS.sub JS.lift2].
  assert (Hf : List.filter
                 (fun event =>
                    JS.geb (JS.Num (Event.date event))
                      (JS.Num (now - h * 60 * 60 * 1000))) events
               = recent).
  { apply filter_ext. intros e. simpl. f_equal. lia. }
  destruct events as [|e r].
  - subst recent. simpl. destruct (cfg !! "ACTIVE_EVENTS_MAX_COUNT") as [n|];
      [|reflexivity].
    cbn [length List.filter]. change (Z.of_nat 0) with 0.
    destruct (n <? 0) eqn:E; [|reflexivity].
    unfold Arr.slice0. rewrite E. now rewrite take_nil.
  - rewrite Hf.
    destruct (cfg !! "ACTIVE_EVENTS_MAX_COUNT") as [n|]; reflexivity.
Qed.


End ActiveEvents.

(** C2 (the code departs from it). The [CONFIG] object defines neither
    [ACTIVE_EVENTS_CHECK_HOURS] nor [ACTIVE_EVENTS_MAX_COUNT], so the
    cut-off time is [NaN] and the selection of active events is empty for
    every stored list and every clock reading, also for a list holding an
    event dated now. *)
Theorem getActiveEvents_CONFIG_selects_nothing :
  (∀ (env : gmap string Z) (now : Z) (events : list Event.t),
     DataStorage.getActiveEvents (CONFIG env) now events = [])
  ∧ DataStorage.getActiveEvents (CONFIG ∅) 86400000
      [sample "86400000_a" 86400000 "usage_based" 1 1] = [].
Proof.
  split.
  - intros env now events. apply getActiveEvents_unset.
    apply CONFIG_no_active_settings.
  - reflexivity.
Qed.
(** ** Statistics: the cost totals *)

Section StatsCosts.

Import DataStorage.

(** The guard, the cost and the keys of the aggregator in the terms of
    the specification. *)
Lemma charged_paid e : charged e = paid e.
Proof.
  unfold charged, paid, errored_not_charged, sne.
  destruct (String.eqb_spec (Event.kind e) "errored_not_charged") as [E|E];
    destruct (String.eqb_spec (Event.kind e)
                "USAGE_EVENT_KIND_ERRORED_NOT_CHARGED") as [E'|E'];
    rewrite ?(bool_decide_eq_true_2 _ E), ?(bool_decide_eq_true_2 _ E'),
      ?(bool_decide_eq_false_2 _ (fun H => H E)),
      ?(bool_decide_eq_false_2 _ (fun H => H E')); reflexivity.
Qed.

Lemma or_Qc_default x : JS.or_Qc x 0%Qc = default 0%Qc x.
Proof.
  destruct x as [q|]; [|reflexivity]. unfold JS.or_Qc, JS.truthy_Qc. simpl.
  case_bool_decide; simpl; congruence.
Qed.

Lemma eventCost_in_stats e : eventCost e = cost_in_stats e.
Proof.
  unfold eventCost, cost_in_stats, shown_cost. rewrite or_Qc_default.
  destruct (Event.costInfo e) as [c|]; simpl;
    [|now destruct (Event.cost e)].
  destruct (CostInfo.originalCost c) as [oc|]; simpl;
    [|now destruct (Event.cost e)].
  unfold JS.truthy_Qc. case_bool_decide; simpl; now destruct (Event.cost e).
Qed.

Lemma model_key_of e : model_key e = key_of (Event.model e).
Proof.
  unfold model_key, key_of, JS.or_str, JS.truthy_str.
  now destruct (String.eqb (Event.model e) "").
Qed.

Lemma kind_key_of e : kind_key e = key_of (Event.kind e).
Proof.
  unfold kind_key, key_of, JS.or_str, JS.truthy_str.
  now destruct (String.eqb (Event.kind e) "").
Qed.

Lemma inherited_ordinary key : inherited key = negb (ordinary_key key).
Proof.
  unfold inherited, ordinary_key. rewrite negb_involutive.
  apply eq_true_iff_eq. rewrite !existsb_exists.
  split; intros (x & Hx & E); exists x; (split; [|exact E]);
    unfold Object_prototype_keys, prototype_property_names in *;
    simpl in *; intuition.
Qed.

Lemma sum_costs_total l : sum_costs l = total_cost l.
Proof.
  unfold sum_costs, sum_costs_from, total_cost. generalize 0%Qc.
  induction l as [|e r IH]; intros q; simpl; [reflexivity|].
  now rewrite IH, eventCost_in_stats.
Qed.

Lemma add_event_totalCost s e :
  Stats.totalCost (add_event s e)
  = if charged e then (Stats.totalCost s + eventCost e)%Qc
    else Stats.totalCost s.
Proof. reflexivity. Qed.

Lemma add_event_estimatedCost s e :
  Stats.estimatedCost (add_event s e) = (Stats.estimatedCost s + eventCost e)%Qc.
Proof. reflexivity. Qed.

(** The entry of a key after one update of the table. *)
Lemma agg_update_lookup key f m k :
  agg_update key f m !! k
  = if String.eqb key k && negb (inherited key)
    then Some (f (default Agg.zero (m !! k)))
    else m !! k.
Proof.
  unfold agg_update.
  destruct (String.eqb_spec key k) as [->|Hne]; simpl.
  - destruct (inherited k); simpl; [reflexivity|apply lookup_insert_eq].
  - destruct (inherited key); [reflexivity|].
    now rewrite lookup_insert_ne by exact Hne.
Qed.

Lemma add_event_byModel s e m :
  inherited m = false →
  cost_at (Stats.byModel (add_event s e)) m
  = if charged e && has_model m e
    then (cost_at (Stats.byModel s) m + eventCost e)%Qc
    else cost_at (Stats.byModel s) m.
Proof.
  intros Hm. unfold add_event, cost_at, has_model. simpl.
  rewrite agg_update_lookup, <- model_key_of.
  destruct (String.eqb_spec (model_key e) m) as [->|Hne]; simpl.
  - rewrite Hm. simpl.
    destruct (Stats.byModel s !! m) as [a|]; simpl;
      destruct (charged e); reflexivity.
  - now rewrite andb_false_r.
Qed.

Lemma add_event_byKind s e k :
  inherited k = false →
  cost_at (Stats.byKind (add_event s e)) k
  = if has_kind k e
    then (cost_at (Stats.byKind s) k + eventCost e)%Qc
    else cost_at (Stats.byKind s) k.
Proof.
  intros Hk. unfold add_event, cost_at, has_kind. simpl.
  rewrite agg_update_lookup, <- kind_key_of.
  destruct (String.eqb_spec (kind_key e) k) as [->|Hne]; simpl.
  - rewrite Hk. simpl.
    destruct (Stats.byKind s !! k) as [a|]; reflexivity.
  - reflexivity.
Qed.

(** No entry is ever made under an inherited key. *)
Lemma add_event_inherited s e key :
  inherited key = true →
  Stats.byModel (add_event s e) !! key = Stats.byModel s !! key
  ∧ Stats.byKind (add_event s e) !! key = Stats.byKind s !! key.
Proof.
  intros Hk. unfold add_event. simpl. rewrite !agg_update_lookup.
  destruct (String.eqb_spec (model_key e) key) as [->|_];
    destruct (String.eqb_spec (kind_key e) key) as [->|_];
    rewrite ?Hk; simpl; auto.
Qed.

Lemma fold_add_event_inherited data key :
  inherited key = true →
  ∀ s,
    Stats.byModel (fold_left add_event data s) !! key = Stats.byModel s !! key
    ∧ Stats.byKind (fold_left add_event data s) !! key = Stats.byKind s !! key.
Proof.
  intros Hk. induction data as [|e r IH]; intros s; simpl; [auto|].
  destruct (IH (add_event s e)) as [Hm Hkd].
  destruct (add_event_inherited s e key Hk) as [Hm' Hkd'].
  split; congruence.
Qed.

Lemma sum_costs_from_filter_cons p init e l :
  sum_costs_from init (List.filter p (e :: l))
  = sum_costs_from (if p e then (init + eventCost e)%Qc else init)
      (List.filter p l).
Proof. simpl. destruct (p e); reflexivity. Qed.

(** The four accumulators after the loop, from any starting value: each
    adds the costs it selects in the order of the events. *)
Lemma fold_add_event_costs data :
  ∀ s,
    let s' := fold_left add_event data s in
    Stats.totalCost s'
    = sum_costs_from (Stats.totalCost s) (List.filter charged data)
    ∧ Stats.estimatedCost s' = sum_costs_from (Stats.estimatedCost s) data
    ∧ (∀ m, inherited m = false →
            cost_at (Stats.byModel s') m
            = sum_costs_from (cost_at (Stats.byModel s) m)
                (List.filter (fun e => charged e && has_model m e) data))
    ∧ (∀ k, inherited k = false →
            cost_at (Stats.byKind s') k
            = sum_costs_from (cost_at (Stats.byKind s) k)
                (List.filter (has_kind k) data)).
Proof.
  induction data as [|e r IH]; intros s.
  - simpl. auto.
  - cbn [fold_left]. destruct (IH (add_event s e)) as (Ht & He & Hm & Hk).
    cbv zeta. split; [|split; [|split]].
    + rewrite Ht, add_event_totalCost, sum_costs_from_filter_cons.
      reflexivity.
    + rewrite He, add_event_estimatedCost. reflexivity.
    + intros m Hin.
      rewrite Hm, add_event_byModel, sum_costs_from_filter_cons by exact Hin.
      reflexivity.
    + intros k Hin.
      rewrite Hk, add_event_byKind, sum_costs_from_filter_cons by exact Hin.
      reflexivity.
Qed.

Lemma filter_ext_bool (p q : Event.t → bool) l :
  (∀ e, p e = q e) → List.filter p l = List.filter q l.
Proof. intros H. apply List.filter_ext. exact H. Qed.

End StatsCosts.

(** C3 (the code departs from it for some keys). In the recomputed
    statistics [totalCost] adds up, in the order of
    the events, the costs of all events except those whose kind is errored,
    not charged (the slug [errored_not_charged], and the vendor's name of the
    kind on an event that still carries it); [estimatedCost] adds up the
    costs of all events. The [cost] of the [byModel] entry of a model is
    that sum over the paid events of the model, and the [cost] of the
    [byKind] entry of a kind the sum over all events of the kind, for every
    key that does not name a property of [Object.prototype]; under a key
    that does, no entry is made. One errored event of cost 5 with two others
    of cost 4 and 6 gives a total of 10, an estimate of 15 and 5 under the
    kind [errored_not_charged]; the normalized form of a usage-based record
    of 500 cents whose model is [constructor] leaves [byModel] empty. *)
Theorem calculateStats_cost_totals :
  ∀ (now : Z) (data : list Event.t),
    let stats := DataStorage.calculateStats now data in
    Stats.totalCost stats = total_cost (List.filter paid data)
    ∧ Stats.estimatedCost stats = total_cost data
    ∧ (∀ m, ordinary_key m = true →
            cost_at (Stats.byModel stats) m
            = total_cost (List.filter (fun e => paid e && has_model m e) data))
    ∧ (∀ k, ordinary_key k = true →
            cost_at (Stats.byKind stats) k
            = total_cost (List.filter (has_kind k) data))
    ∧ (∀ key, ordinary_key key = false →
              Stats.byModel stats !! key = None
              ∧ Stats.byKind stats !! key = None)
    ∧ (let example :=
         DataStorage.calculateStats now
           [sample "1_a" 1 "errored_not_charged" 5 0;
            sample "2_b" 2 "usage_based" 4 0;
            sample "3_c" 3 "included_pro" 6 0] in
       Stats.totalCost example = Qc_of_Z 10
       ∧ Stats.estimatedCost example = Qc_of_Z 15
       ∧ cost_at (Stats.byKind example) "errored_not_charged" = Qc_of_Z 5)
    ∧ (let batch :=
         [DataCollector.parseUsageEvent (fun _ => JS.NaN) (fun _ => JS.NaN) now
            "k3x9q2m1z" constructor_record] in
       total_cost (List.filter (fun e => paid e && has_model "constructor" e) batch)
       = Qc_of_Z 5
       ∧ Stats.byModel (DataStorage.calculateStats now batch) = ∅).
Proof.
  intros now data stats.
  destruct (fold_add_event_costs data (DataStorage.stats_init now data))
    as (Ht & He & Hm & Hk).
  split; [|split; [|split; [|split; [|split; [|split]]]]].
  - rewrite <- sum_costs_total,
      <- (filter_ext_bool _ _ data charged_paid). exact Ht.
  - rewrite <- sum_costs_total. exact He.
  - intros m Hord. rewrite <- sum_costs_total.
    rewrite <- (filter_ext_bool
                  (fun e => DataStorage.charged e && has_model m e)
                  (fun e => paid e && has_model m e) data
                  (fun e => f_equal (fun b => b && has_model m e) (charged_paid e))).
    apply Hm. rewrite inherited_ordinary, Hord. reflexivity.
  - intros k Hord. rewrite <- sum_costs_total.
    apply Hk. rewrite inherited_ordinary, Hord. reflexivity.
  - intros key Hord.
    exact (fold_add_event_inherited data key
             (eq_trans (inherited_ordinary key) (f_equal negb Hord))
             (DataStorage.stats_init now data)).
  - vm_compute. repeat split; reflexivity.
  - split; [vm_compute; reflexivity|reflexivity].
Qed.

(** ** Incremental merge *)

Section MergeFacts.

Import DataStorage.

Lemma findIndex_Some {A} (p : A → bool) l i :
  Arr.findIndex p l = Some i → ∃ x, l !! i = Some x ∧ p x = true.
Proof.
  revert i. induction l as [|y r IH]; intros i; simpl; [discriminate|].
  destruct (p y) eqn:Ey.
  - intros [= <-]. exists y. auto.
  - destruct (Arr.findIndex p r) as [j|]; simpl; [|discriminate].
    intros [= <-]. apply IH. reflexivity.
Qed.

Lemma findIndex_None {A} (p : A → bool) l x :
  Arr.findIndex p l = None → In x l → p x = false.
Proof.
  induction l as [|y r IH]; simpl; [tauto|].
  destruct (p y) eqn:Ey; [discriminate|].
  destruct (Arr.findIndex p r); simpl; [discriminate|].
  intros _ [<-|Hx]; auto.
Qed.




Lemma find_updatedEvent_In values T u :
  find_updatedEvent values T = Some u → In u values.
Proof. unfold find_updatedEvent. intros H. now apply find_some in H. Qed.

(** One step of the update pass: either nothing happens, or the first slot
    holding the id of the active event receives the incoming event, which
    has the same timestamp prefix and differs in a compared field. *)
Lemma check_active_cases values st a :
  check_active values st a = st
  ∨ ∃ u, find_updatedEvent values (ts_prefix a) = Some u
         ∧ isEventUpdated a u = true
         ∧ snd (check_active values st a) = S (snd st)
         ∧ (fst (check_active values st a) = fst st
            ∧ (∀ x, In x (fst st) → Event.id x ≠ Event.id a)
            ∨ ∃ i x, fst st !! i = Some x
                     ∧ Event.id x = Event.id a
                     ∧ fst (check_active values st a) = <[i := u]> (fst st)).
Proof.
  unfold check_active, ts_prefix.
  destruct (find_updatedEvent values (JS.split0 (Event.id a))) as [u|];
    [|left; reflexivity].
  destruct (isEventUpdated a u) eqn:Eu; [|left; reflexivity].
  right. exists u. split; [reflexivity|]. split; [exact Eu|].
  split; [reflexivity|]. simpl.
  destruct (Arr.findIndex _ (fst st)) as [i|] eqn:Ei.
  - right. apply findIndex_Some in Ei as (x & Hx & Hid).
    exists i, x. apply String.eqb_eq in Hid. auto.
  - left. split; [reflexivity|]. intros x Hx Hid.
    apply (findIndex_None _ _ x Ei) in Hx.
    apply String.eqb_neq in Hx. contradiction.
Qed.

(** The update pass keeps the timestamp prefix of every slot. *)
Lemma check_active_prefixes values st a :
  map ts_prefix (fst (check_active values st a)) = map ts_prefix (fst st).
Proof.
  destruct (check_active_cases values st a)
    as [->|(u & _ & Hu & _ & [[-> _]|(i & x & Hx & Hid & ->)])];
    try reflexivity.
  rewrite list_fmap_insert. apply list_insert_id.
  rewrite list_lookup_fmap, Hx. simpl. f_equal.
  apply isEventUpdated_prefix in Hu. unfold ts_prefix in *. congruence.
Qed.

Lemma fold_check_active_prefixes values actives st :
  map ts_prefix (fst (fold_left (check_active values) actives st))
  = map ts_prefix (fst st).
Proof.
  revert st. induction actives as [|a r IH]; intros st; simpl; [reflexivity|].
  rewrite IH. apply check_active_prefixes.
Qed.

Lemma check_updates_prefixes cfg now events newData :
  map ts_prefix (fst (check_updates cfg now events newData))
  = map ts_prefix events.
Proof. unfold check_updates. apply fold_check_active_prefixes. Qed.

Lemma check_updates_length cfg now events newData :
  length (fst (check_updates cfg now events newData)) = length events.
Proof.
  rewrite <- (length_map ts_prefix), check_updates_prefixes.
  apply length_map.
Qed.

(** The counter only grows, and when it did not grow nothing changed. *)
Lemma fold_check_active_count values actives st :
  (snd st <= snd (fold_left (check_active values) actives st))%nat
  ∧ (snd (fold_left (check_active values) actives st) = snd st →
     fold_left (check_active values) actives st = st).
Proof.
  revert st. induction actives as [|a r IH]; intros st; simpl; [auto|].
  destruct (IH (check_active values st a)) as [Hle Heq].
  destruct (check_active_cases values st a) as [E|(u & _ & _ & Hs & _)].
  - rewrite E in *. auto.
  - split; [lia|]. intros H. lia.
Qed.

End MergeFacts.

Section AdditionPass.

Import DataStorage.

Lemma mem_existsb (l : list string) (x : string) :
  bool_decide (x ∈ (list_to_set l : gset string))
  = existsb (fun y => String.eqb y x) l.
Proof.
  destruct (existsb (fun y => String.eqb y x) l) eqn:E.
  - apply bool_decide_eq_true, elem_of_list_to_set, list_elem_of_In.
    apply existsb_exists in E as (y & Hy & Heq).
    apply String.eqb_eq in Heq. now subst.
  - apply bool_decide_eq_false. intros H.
    apply elem_of_list_to_set, list_elem_of_In in H.
    assert (E' : existsb (fun y => String.eqb y x) l = true).
    { apply existsb_exists. exists x. split; [exact H|apply String.eqb_refl]. }
    congruence.
Qed.

Lemma existsb_map {A B} (f : A → B) (p : B → bool) l :
  existsb p (map f l) = existsb (fun x => p (f x)) l.
Proof. induction l; simpl; congruence. Qed.

(** The addition pass keeps the incoming events that are fresh. *)
Lemma select_newEvents_fresh events newData :
  select_newEvents events newData = List.filter (fresh events) newData.
Proof.
  unfold select_newEvents. apply filter_ext. intros e. unfold fresh.
  rewrite !mem_existsb, !existsb_map. reflexivity.
Qed.

(** An id that is present brings its prefix: freshness is decided by the
    prefixes alone. *)
Lemma fresh_by_prefix present e :
  fresh present e
  = negb (existsb (fun T => String.eqb T (ts_prefix e)) (map ts_prefix present)).
Proof.
  unfold fresh. rewrite existsb_map.
  destruct (existsb (fun s => String.eqb (ts_prefix s) (ts_prefix e)) present)
    eqn:Ep; [apply andb_false_r|].
  rewrite andb_true_r. simpl.
  destruct (existsb (fun s => String.eqb (Event.id s) (Event.id e)) present)
    eqn:Ei; [|reflexivity].
  apply existsb_exists in Ei as (s & Hs & Heq). apply String.eqb_eq in Heq.
  assert (E' : existsb (fun s => String.eqb (ts_prefix s) (ts_prefix e)) present
               = true).
  { apply existsb_exists. exists s. split; [exact Hs|].
    apply String.eqb_eq. unfold ts_prefix. now rewrite Heq. }
  congruence.
Qed.

Lemma fresh_same_prefixes present present' e :
  map ts_prefix present' = map ts_prefix present →
  fresh present' e = fresh present e.
Proof. intros H. now rewrite !fresh_by_prefix, H. Qed.

Lemma select_newEvents_after_updates cfg now events newData :
  select_newEvents (fst (check_updates cfg now events newData)) newData
  = List.filter (fresh events) newData.
Proof.
  rewrite select_newEvents_fresh. apply filter_ext. intros e.
  apply fresh_same_prefixes, check_updates_prefixes.
Qed.

Lemma filter_nil_iff {A} (p : A → bool) l :
  List.filter p l = [] ↔ ∀ x, In x l → p x = false.
Proof.
  induction l as [|y r IH]; simpl; [tauto|].
  destruct (p y) eqn:Ey.
  - split; [discriminate|]. intros H. specialize (H y (or_introl eq_refl)).
    congruence.
  - rewrite IH. split.
    + intros H x [<-|Hx]; auto.
    + intros H x Hx. apply H. auto.
Qed.

(** An active event whose match, if any, is not flagged as an update is
    left alone. *)
Lemma check_active_unchanged values st a :
  (∀ u, find_updatedEvent values (ts_prefix a) = Some u →
        isEventUpdated a u = false) →
  check_active values st a = st.
Proof.
  intros H.
  destruct (check_active_cases values st a) as [E|(u & Hf & Hu & _)];
    [exact E|].
  rewrite (H u Hf) in Hu. discriminate Hu.
Qed.

Lemma fold_check_active_unchanged values actives st :
  (∀ a u, In a actives →
          find_updatedEvent values (ts_prefix a) = Some u →
          isEventUpdated a u = false) →
  fold_left (check_active values) actives st = st.
Proof.
  induction actives as [|a r IH]; intros H; simpl; [reflexivity|].
  rewrite check_active_unchanged.
  - apply IH. intros a' u Ha'. apply H. now right.
  - intros u. apply H. now left.
Qed.

(** No incoming event of the prefix differs: no match is flagged. *)
Lemma no_difference_no_update values a :
  (∀ u, In u values → ts_prefix u = ts_prefix a → ¬ compared_fields_differ a u) →
  ∀ u, find_updatedEvent values (ts_prefix a) = Some u →
       isEventUpdated a u = false.
Proof.
  intros H u Hf. destruct (isEventUpdated a u) eqn:Hu; [|reflexivity].
  exfalso. pose proof (isEventUpdated_prefix _ _ Hu) as Hp.
  apply (H u); [now apply find_updatedEvent_In in Hf|now symmetry|].
  now apply isEventUpdated_true.
Qed.

End AdditionPass.

(** C9. An incremental merge whose batch yields no new event (every
    incoming event has its id or its timestamp prefix among the stored
    events) and no updated event (no active stored event is flagged as
    updated against the incoming event matched to it) leaves both files as
    they are: the dataset with its events, watermark and sync metadata, and
    the statistics. *)
Theorem mergeUsageData_noop :
  ∀ (cfg : gmap string Z) (now : Z) (newData : list Event.t) (fs : FS.t)
    (ds : UsageDataset.t),
    DataStorage.loadUsageData fs = Some ds →
    (∀ e, In e newData →
          ∃ s, In s (UsageDataset.events ds)
               ∧ (Event.id s = Event.id e ∨ ts_prefix s = ts_prefix e)) →
    (∀ a u, In a (DataStorage.getActiveEvents cfg now (UsageDataset.events ds)) →
            DataStorage.find_updatedEvent (batch_values newData) (ts_prefix a)
            = Some u →
            DataStorage.isEventUpdated a u = false) →
    DataStorage.mergeUsageData cfg now newData true fs = fs.
Proof.
  intros cfg now newData fs ds Hds Hnew Hupd.
  unfold DataStorage.mergeUsageData. rewrite Hds.
  assert (Hc : DataStorage.check_updates cfg now (UsageDataset.events ds) newData
               = (UsageDataset.events ds, O)).
  { unfold DataStorage.check_updates. apply fold_check_active_unchanged.
    exact Hupd. }
  rewrite Hc. cbn [fst snd].
  assert (Hn : DataStorage.select_newEvents (UsageDataset.events ds) newData = []).
  { rewrite select_newEvents_fresh. apply filter_nil_iff. intros e He.
    destruct (Hnew e He) as (s & Hs & Hor). unfold fresh.
    destruct Hor as [Hid|Hp].
    - replace (existsb _ _) with true; [reflexivity|].
      symmetry. apply existsb_exists. exists s. split; [exact Hs|].
      now apply String.eqb_eq.
    - replace (existsb (fun s0 => String.eqb (ts_prefix s0) (ts_prefix e)) _)
        with true; [apply andb_false_r|].
      symmetry. apply existsb_exists. exists s. split; [exact Hs|].
      now apply String.eqb_eq. }
  rewrite Hn. reflexivity.
Qed.

Lemma mergeUsageData_noop_witness :
  let fs :=
    stored 500 [sample "864000000_a" 864000000 "usage_based" 2 1] in
  let newData := [sample "864000000_b" 864000000 "usage_based" 2 1] in
  DataStorage.mergeUsageData (CONFIG_documented ∅) 864000000 newData true fs = fs.
Proof.
  intros fs newData.
  apply (mergeUsageData_noop (CONFIG_documented ∅) 864000000 newData fs
           (UsageDataset.mk 0 0 1
              (Some (SyncMetadata.mk 0 500 SyncMetadata.full))
              [sample "864000000_a" 864000000 "usage_based" 2 1])).
  - reflexivity.
  - intros e [<-|[]]. eexists. split; [left; reflexivity|].
    right. reflexivity.
  - intros a u Ha Hf. vm_compute in Ha. destruct Ha as [<-|[]].
    vm_compute in Hf. injection Hf as <-. reflexivity.
Defined.

Section UpdatePass.

Import DataStorage.

Context {A : Type}.



Lemma List_filter_sublist (p : A → bool) l : List.filter p l `sublist_of` l.
Proof.
  induction l as [|z r IH]; simpl; [constructor|].
  destruct (p z); now constructor.
Qed.



Lemma Permutation_List_filter (p : A → bool) l l' :
  Permutation l l' → Permutation (List.filter p l) (List.filter p l').
Proof.
  induction 1 as [|x l l' _ IH|x y l|l l' l'' _ IH1 _ IH2]; simpl.
  - constructor.
  - destruct (p x); [now constructor|exact IH].
  - destruct (p x), (p y); try reflexivity. apply perm_swap.
  - now transitivity (List.filter p l').
Qed.

End UpdatePass.

Section Survivor.

Import DataStorage.

Variable values : list Event.t.
Variable T : string.

Lemma has_prefix_true e : has_prefix T e = true ↔ ts_prefix e = T.
Proof. unfold has_prefix. apply String.eqb_eq. Qed.

Lemma has_prefix_false e : has_prefix T e = false ↔ ts_prefix e ≠ T.
Proof. unfold has_prefix. apply String.eqb_neq. Qed.






End Survivor.

Section MergeDedup.

Import DataStorage.

Lemma getActiveEvents_sublist cfg now events :
  getActiveEvents cfg now events `sublist_of` events.
Proof.
  unfold getActiveEvents. destruct events as [|e r]; [constructor|].
  set (l := List.filter _ (e :: r)).
  assert (Hl : l `sublist_of` e :: r) by apply List_filter_sublist.
  destruct (JS.gtb _ _); [|exact Hl].
  destruct (JS.ToNumber (cfg !! "ACTIVE_EVENTS_MAX_COUNT")) as [n|];
    [|exact Hl].
  unfold Arr.slice0.
  destruct (n <? 0); (etransitivity; [apply sublist_take|exact Hl]).
Qed.


(** The events on disk after an incremental merge: the fresh incoming
    events together with the slots left by the update pass. *)
Lemma mergeUsageData_events cfg now newData fs ds :
  loadUsageData fs = Some ds →
  ∃ l,
    events_of (mergeUsageData cfg now newData true fs) = Some l
    ∧ Permutation l
        (List.filter (fresh (UsageDataset.events ds)) newData
         ++ fst (check_updates cfg now (UsageDataset.events ds) newData)).
Proof.
  intros Hds. unfold mergeUsageData. rewrite Hds.
  rewrite select_newEvents_after_updates.
  set (new := List.filter _ newData).
  set (checked := check_updates _ _ _ _).
  destruct (Nat.eqb_spec (length new) 0) as [Hlen|Hlen]; simpl.
  - destruct (Nat.eqb_spec (snd checked) 0) as [Hcnt|Hcnt]; simpl.
    + exists (UsageDataset.events ds). unfold events_of. rewrite Hds.
      split; [reflexivity|].
      apply length_zero_iff_nil in Hlen. rewrite Hlen. simpl.
      subst checked. unfold check_updates in *.
      destruct (fold_check_active_count (batch_values newData)
                  (getActiveEvents cfg now (UsageDataset.events ds))
                  (UsageDataset.events ds, O)) as [_ Heq].
      unfold batch_values in Heq. rewrite Heq by exact Hcnt. reflexivity.
    + eexists. split; [apply saveUsageData_events|]. apply sort_Permutation.
  - eexists. split; [apply saveUsageData_events|]. apply sort_Permutation.
Qed.

End MergeDedup.
(** ** The entry of the batch the update pass compares *)

Section BatchEntry.

Import DataStorage.





Variable g : string → bool.







End BatchEntry.





(** * Further properties of the storage *)

(** ** Retention cleanup *)

Section Cleanup.

Import DataStorage.

Lemma filter_length_eq {A} (p : A → bool) l :
length (List.filter p l) = length l → List.filter p l = l.
Proof.
induction l as [|x r IH]; simpl; [reflexivity|].
destruct (p x); simpl.
- intros [= H]. now rewrite IH.
- intros H. pose proof (filter_length_le p r). lia.
Qed.

Lemma filter_all {A} (p : A → bool) l :
(∀ x, In x l → p x = true) → List.filter p l = l.
Proof.
induction l as [|x r IH]; simpl; [reflexivity|]. intros H.
rewrite (H x) by now left. rewrite IH; [reflexivity|].
intros y Hy. apply H. now right.
Qed.

Lemma filter_length_lt {A} (p : A → bool) l x :
In x l → p x = false → (length (List.filter p l) < length l)%nat.
Proof.
induction l as [|y r IH]; simpl; [tauto|].
intros [->|Hx] Hp.
- rewrite Hp. pose proof (filter_length_le p r). lia.
- specialize (IH Hx Hp). destruct (p y); simpl; lia.
Qed.

(** The two outcomes of a cleanup. *)
Lemma cleanupOldData_cases daysBefore now daysToKeep fs :
let keep := fun e => daysBefore now daysToKeep <=? Event.date e in
(cleanupOldData daysBefore now daysToKeep fs = fs
 ∧ events_of fs = List.filter keep <$> events_of fs)
∨ (∃ ds, loadUsageData fs = Some ds
         ∧ (length (List.filter keep (UsageDataset.events ds))
            < length (UsageDataset.events ds))%nat
         ∧ cleanupOldData daysBefore now daysToKeep fs
           = saveUsageData now (List.filter keep (UsageDataset.events ds))
               false fs).
Proof.
intros keep. unfold cleanupOldData, events_of.
destruct (loadUsageData fs) as [ds|] eqn:Hds; [|left; split; reflexivity].
destruct (UsageDataset.events ds) as [|e r] eqn:Hev.
- left. split; [reflexivity|]. simpl. now rewrite Hev.
- rewrite <- Hev. fold keep.
  destruct (Nat.ltb_spec (length (List.filter keep (UsageDataset.events ds)))
              (length (UsageDataset.events ds))) as [Hlt|Hge].
  + right. exists ds. auto.
  + left. split; [reflexivity|]. simpl. f_equal. symmetry.
    apply filter_length_eq.
    pose proof (filter_length_le keep (UsageDataset.events ds)). lia.
Qed.

End Cleanup.

(** X1. After a cleanup the document holds exactly the stored events dated
    at or after the cut-off, in their stored order; a data directory
    without dataset stays without. *)
Theorem cleanupOldData_retains :
  ∀ (daysBefore : Z → Z → Z) (now daysToKeep : Z) (fs : FS.t),
    events_of (DataStorage.cleanupOldData daysBefore now daysToKeep fs)
    = List.filter (fun e => daysBefore now daysToKeep <=? Event.date e)
        <$> events_of fs.
Proof.
  intros daysBefore now days fs.
  destruct (cleanupOldData_cases daysBefore now days fs)
    as [[-> H]|(ds & Hds & _ & ->)]; [exact H|].
  rewrite saveUsageData_events. unfold events_of. now rewrite Hds.
Qed.

(** X2. When a stored event is older than the cut-off, the cleanup rewrites
    both files as a full save of the retained events does: the watermark
    moves to the newest retained date (to the clock when nothing is
    retained), the adaptive page size returns to 500, the strategy reads
    [full] and the statistics are those of the retained events. When no
    stored event is older, the files are left as they are. *)
Theorem cleanupOldData_rewrites :
  ∀ (daysBefore : Z → Z → Z) (now daysToKeep : Z) (fs : FS.t)
    (ds : UsageDataset.t),
    DataStorage.loadUsageData fs = Some ds →
    let kept :=
      List.filter (fun e => daysBefore now daysToKeep <=? Event.date e)
        (UsageDataset.events ds) in
    let fs' := DataStorage.cleanupOldData daysBefore now daysToKeep fs in
    ((∃ e, In e (UsageDataset.events ds)
           ∧ Event.date e < daysBefore now daysToKeep) →
     watermark_of fs' = Some (default now (max_date kept))
     ∧ pageSize_of fs' = Some 500
     ∧ DataStorage.SyncInfo.syncStrategy (DataStorage.getSyncMetadata fs')
       = SyncMetadata.full
     ∧ DataStorage.loadStats fs' = Some (DataStorage.calculateStats now kept))
    ∧ ((∀ e, In e (UsageDataset.events ds) →
             daysBefore now daysToKeep <= Event.date e) →
       fs' = fs).
Proof.
  intros daysBefore now days fs ds Hds kept fs'. split.
  - intros (e & He & Hold).
    assert (Hlt : (length kept < length (UsageDataset.events ds))%nat).
    { apply (filter_length_lt _ _ e He). apply Z.leb_gt. exact Hold. }
    destruct (cleanupOldData_cases daysBefore now days fs)
      as [[Hsame Hev]|(ds' & Hds' & _ & Hsave)].
    + exfalso. unfold events_of in Hev. rewrite Hds in Hev. simpl in Hev.
      injection Hev as Hev. fold kept in Hev. rewrite <- Hev in Hlt. lia.
    + rewrite Hds in Hds'. injection Hds' as <-. subst fs'. rewrite Hsave.
      fold kept. split.
      { change (Some (DataStorage.syncDate now kept false)
                = Some (default now (max_date kept))).
        now rewrite syncDate_full. }
      split; [apply (saveUsageData_pageSize now kept false)|].
      split; reflexivity.
  - intros Hall. subst fs'.
    destruct (cleanupOldData_cases daysBefore now days fs)
      as [[Hsame _]|(ds' & Hds' & Hlt & _)]; [exact Hsame|].
    exfalso. rewrite Hds in Hds'. injection Hds' as <-.
    rewrite filter_all in Hlt; [lia|].
    intros e He. apply Z.leb_le. now apply Hall.
Qed.

Lemma cleanupOldData_rewrites_witness :
  let old := sample "1000_a" 1000 "usage_based" 1 1 in
  let recent := sample "864000000_b" 864000000 "usage_based" 1 1 in
  watermark_of
    (DataStorage.cleanupOldData (fun now n => now - n * 86400000) 864000500 5
       (stored 750 [recent; old]))
  = Some 864000000
  ∧ pageSize_of
      (DataStorage.cleanupOldData (fun now n => now - n * 86400000) 864000500 5
         (stored 750 [recent; old]))
    = Some 500.
Proof.
  intros old recent.
  destruct (cleanupOldData_rewrites (fun now n => now - n * 86400000)
              864000500 5 (stored 750 [recent; old])
              (UsageDataset.mk 0 0 2
                 (Some (SyncMetadata.mk 0 750 SyncMetadata.full)) [recent; old])
              eq_refl) as [H _].
  destruct H as (Hw & Hp & _).
  - exists old. split; [right; left; reflexivity|]. vm_compute. reflexivity.
  - split; [exact Hw|exact Hp].
Defined.

(** X3. A cleanup whose cut-off is not later than that of a previous
    cleanup finds nothing to remove: it leaves the files of the previous
    one untouched. In particular a cleanup repeated at the same instant
    changes nothing. *)
Theorem cleanupOldData_again :
  ∀ (daysBefore : Z → Z → Z) (now daysToKeep now' daysToKeep' : Z) (fs : FS.t),
    daysBefore now' daysToKeep' <= daysBefore now daysToKeep →
    DataStorage.cleanupOldData daysBefore now' daysToKeep'
      (DataStorage.cleanupOldData daysBefore now daysToKeep fs)
    = DataStorage.cleanupOldData daysBefore now daysToKeep fs.
Proof.
  intros daysBefore now days now' days' fs Hle.
  set (fs1 := DataStorage.cleanupOldData daysBefore now days fs).
  destruct (cleanupOldData_cases daysBefore now' days' fs1)
    as [[Hsame _]|(ds' & Hds' & Hlt & _)]; [exact Hsame|].
  exfalso.
  assert (Hev : events_of fs1
                = List.filter (fun e => daysBefore now days <=? Event.date e)
                    <$> events_of fs).
  { subst fs1.
    destruct (cleanupOldData_cases daysBefore now days fs)
      as [[-> H]|(ds & Hds & _ & ->)]; [exact H|].
    rewrite saveUsageData_events. unfold events_of. now rewrite Hds. }
  unfold events_of in Hev at 1. rewrite Hds' in Hev. simpl in Hev.
  destruct (events_of fs) as [l|]; [|discriminate]. simpl in Hev.
  injection Hev as Hev. rewrite Hev in Hlt.
  rewrite filter_all in Hlt; [lia|].
  intros e He. apply filter_In in He as [_ He].
  apply Z.leb_le in He. apply Z.leb_le. lia.
Qed.

Lemma cleanupOldData_again_witness :
  let fs := stored 750 [sample "864000000_b" 864000000 "usage_based" 1 1;
                        sample "1000_a" 1000 "usage_based" 1 1] in
  let daysBefore := fun now n => now - n * 86400000 in
  DataStorage.cleanupOldData daysBefore 864000500 5
    (DataStorage.cleanupOldData daysBefore 864000500 5 fs)
  = DataStorage.cleanupOldData daysBefore 864000500 5 fs.
Proof.
  intros fs daysBefore.
  apply (cleanupOldData_again daysBefore 864000500 5 864000500 5 fs).
  vm_compute. discriminate.
Defined.

(** ** Statistics: counters, keys, recent events *)

Section StatsCounts.

Import DataStorage.

Lemma add_event_count_byModel s e m :
inherited m = false →
count_at (Stats.byModel (add_event s e)) m
= (count_at (Stats.byModel s) m + (if has_model m e then 1 else 0))%nat.
Proof.
intros Hm. unfold add_event, count_at, has_model. simpl.
rewrite agg_update_lookup, <- model_key_of.
destruct (String.eqb_spec (model_key e) m) as [->|Hne]; simpl.
- rewrite Hm. simpl. destruct (Stats.byModel s !! m) as [a|]; simpl; lia.
- lia.
Qed.

Lemma add_event_count_byKind s e k :
inherited k = false →
count_at (Stats.byKind (add_event s e)) k
= (count_at (Stats.byKind s) k + (if has_kind k e then 1 else 0))%nat.
Proof.
intros Hk. unfold add_event, count_at, has_kind. simpl.
rewrite agg_update_lookup, <- kind_key_of.
destruct (String.eqb_spec (kind_key e) k) as [->|Hne]; simpl.
- rewrite Hk. simpl. destruct (Stats.byKind s !! k) as [a|]; simpl; lia.
- lia.
Qed.

Lemma add_event_count_byDate s e d :
day_count_at (Stats.byDate (add_event s e)) d
= (day_count_at (Stats.byDate s) d + (if on_day d e then 1 else 0))%nat.
Proof.
unfold add_event, day_count_at, on_day. simpl.
change (Event.date e / 86400000) with (date_key e).
destruct (Z.eqb_spec (date_key e) d) as [->|Hne].
- rewrite lookup_insert_eq. simpl.
  destruct (Stats.byDate s !! d) as [a|]; simpl; lia.
- rewrite lookup_insert_ne by exact Hne. lia.
Qed.

Lemma filter_cons_length {A} (p : A → bool) x l :
length (List.filter p (x :: l))
= ((if p x then 1 else 0) + length (List.filter p l))%nat.
Proof. simpl. destruct (p x); reflexivity. Qed.

Lemma resolve_maxMode_set e : resolve_maxMode e = max_mode_set e.
Proof.
unfold resolve_maxMode, max_mode_set.
destruct (Event.rawData e) as [raw|]; simpl;
  [destruct (RawVendorEvent.maxMode raw)|]; now destruct (Event.maxMode e).
Qed.

(** The counters after the loop, from any starting value. *)
Lemma fold_add_event_counts data :
∀ s,
  let s' := fold_left add_event data s in
  Stats.totalEvents s' = Stats.totalEvents s
  ∧ Stats.totalMaxMode s'
    = (Stats.totalMaxMode s + length (List.filter max_mode_set data))%nat
  ∧ (∀ m, inherited m = false →
          count_at (Stats.byModel s') m
          = (count_at (Stats.byModel s) m
             + length (List.filter (has_model m) data))%nat)
  ∧ (∀ k, inherited k = false →
          count_at (Stats.byKind s') k
          = (count_at (Stats.byKind s) k
             + length (List.filter (has_kind k) data))%nat)
  ∧ (∀ d, day_count_at (Stats.byDate s') d
          = (day_count_at (Stats.byDate s) d
             + length (List.filter (on_day d) data))%nat).
Proof.
induction data as [|e r IH]; intros s.
- simpl. repeat split; intros; lia.
- cbn [fold_left]. destruct (IH (add_event s e)) as (Hn & Hx & Hm & Hk & Hd).
  cbv zeta. split; [|split; [|split; [|split]]].
  + rewrite Hn. reflexivity.
  + rewrite Hx, filter_cons_length, <- resolve_maxMode_set.
    unfold add_event. simpl. destruct (resolve_maxMode e); lia.
  + intros m Hin.
    rewrite Hm, add_event_count_byModel, filter_cons_length by exact Hin. lia.
  + intros k Hin.
    rewrite Hk, add_event_count_byKind, filter_cons_length by exact Hin. lia.
  + intros d. rewrite Hd, add_event_count_byDate, filter_cons_length. lia.
Qed.

(** The keys of a table after the loop: those it had, and the keys of the
  events that are not inherited ones. *)
Lemma agg_update_keys key f m k :
is_Some (agg_update key f m !! k)
↔ is_Some (m !! k) ∨ (key = k ∧ inherited k = false).
Proof.
rewrite agg_update_lookup.
destruct (String.eqb_spec key k) as [->|Hne]; simpl.
- destruct (inherited k); simpl.
  + split; [auto|]. intros [H|[_ H]]; [exact H|discriminate].
  + split; [auto|eauto].
- split; [auto|]. intros [H|[H _]]; [exact H|contradiction].
Qed.

Lemma fold_add_event_models data :
∀ s m,
  is_Some (Stats.byModel (fold_left add_event data s) !! m)
  ↔ is_Some (Stats.byModel s !! m)
    ∨ (inherited m = false ∧ ∃ e, In e data ∧ model_key e = m).
Proof.
induction data as [|e r IH]; intros s m.
- simpl. split; [auto|]. intros [H|(_ & e & [] & _)]. exact H.
- cbn [fold_left]. rewrite IH. unfold add_event at 1. simpl.
  rewrite agg_update_keys. split.
  + intros [[H|[H Hin]]|(Hin & x & Hx & Hm)]; [auto| |].
    * right. split; [exact Hin|]. exists e. auto.
    * right. split; [exact Hin|]. exists x. auto.
  + intros [H|(Hin & x & [<-|Hx] & Hm)]; [auto|auto|].
    right. split; [exact Hin|]. exists x. auto.
Qed.

Lemma fold_add_event_kinds data :
∀ s k,
  is_Some (Stats.byKind (fold_left add_event data s) !! k)
  ↔ is_Some (Stats.byKind s !! k)
    ∨ (inherited k = false ∧ ∃ e, In e data ∧ kind_key e = k).
Proof.
induction data as [|e r IH]; intros s k.
- simpl. split; [auto|]. intros [H|(_ & e & [] & _)]. exact H.
- cbn [fold_left]. rewrite IH. unfold add_event at 1. simpl.
  rewrite agg_update_keys. split.
  + intros [[H|[H Hin]]|(Hin & x & Hx & Hm)]; [auto| |].
    * right. split; [exact Hin|]. exists e. auto.
    * right. split; [exact Hin|]. exists x. auto.
  + intros [H|(Hin & x & [<-|Hx] & Hm)]; [auto|auto|].
    right. split; [exact Hin|]. exists x. auto.
Qed.

(** With costs that are not negative, what a filter selects sums to no
  more than the whole. *)
Lemma sum_costs_from_filter_le p l :
(∀ e, In e l → (0 <= eventCost e)%Qc) →
∀ a b, (a <= b)%Qc →
       (sum_costs_from a (List.filter p l) <= sum_costs_from b l)%Qc.
Proof.
induction l as [|e r IH]; intros Hpos a b Hab; [exact Hab|].
assert (Hr : ∀ x, In x r → (0 <= eventCost x)%Qc)
  by (intros x Hx; apply Hpos; now right).
assert (He : (0 <= eventCost e)%Qc) by (apply Hpos; now left).
simpl. destruct (p e); simpl; apply (IH Hr).
- now apply Qcplus_le_compat; [|apply Qcle_refl].
- apply Qcle_trans with b; [exact Hab|].
  rewrite <- (Qcplus_0_r b) at 1.
  apply Qcplus_le_compat; [apply Qcle_refl|exact He].
Qed.

End StatsCounts.

(** X4. The recomputed statistics count every event once: [totalEvents]
    is the number of events, and the [count] of a model, of a kind and of a
    day is the number of events with that key, the errored ones included,
    for every key that does not name a property of [Object.prototype];
    under a key that does, nothing is counted. When no event is filed under
    [__proto__], [totalMaxMode] is the number of events whose max mode (the
    raw record's flag first) is set. *)
Theorem calculateStats_counts :
  ∀ (now : Z) (data : list Event.t),
    let stats := DataStorage.calculateStats now data in
    Stats.totalEvents stats = length data
    ∧ (∀ m, ordinary_key m = true →
            count_at (Stats.byModel stats) m
            = length (List.filter (has_model m) data))
    ∧ (∀ k, ordinary_key k = true →
            count_at (Stats.byKind stats) k
            = length (List.filter (has_kind k) data))
    ∧ (∀ key, ordinary_key key = false →
              count_at (Stats.byModel stats) key = O
              ∧ count_at (Stats.byKind stats) key = O)
    ∧ (∀ d, day_count_at (Stats.byDate stats) d
            = length (List.filter (on_day d) data))
    ∧ ((∀ e, In e data →
             key_of (Event.model e) ≠ "__proto__"
             ∧ key_of (Event.kind e) ≠ "__proto__") →
       Stats.totalMaxMode stats = length (List.filter max_mode_set data)).
Proof.
  intros now data stats.
  destruct (fold_add_event_counts data (DataStorage.stats_init now data))
    as (Hn & Hx & Hm & Hk & Hd).
  split; [exact Hn|].
  split; [intros m Hord; apply (Hm m); now rewrite inherited_ordinary, Hord|].
  split; [intros k Hord; apply (Hk k); now rewrite inherited_ordinary, Hord|].
  split; [|split; [intros d; exact (Hd d)|intros _; exact Hx]].
  intros key Hord.
  destruct (fold_add_event_inherited data key
              (eq_trans (inherited_ordinary key) (f_equal negb Hord))
              (DataStorage.stats_init now data)) as [Hmk Hkk].
  unfold count_at. subst stats. unfold DataStorage.calculateStats.
  cbn [Stats.byModel Stats.byKind]. rewrite Hmk, Hkk. split; reflexivity.
Qed.

(** X5. [byModel] has an entry exactly for the model keys of the events
    that do not name a property of [Object.prototype], and [byKind] for
    such kind keys, where an empty model or kind is filed under [unknown]:
    neither map ever has an entry for the empty string, nor for
    [constructor]. *)
Theorem calculateStats_keys :
  ∀ (now : Z) (data : list Event.t),
    let stats := DataStorage.calculateStats now data in
    (∀ m, is_Some (Stats.byModel stats !! m)
          ↔ ordinary_key m = true
            ∧ ∃ e, In e data ∧ key_of (Event.model e) = m)
    ∧ (∀ k, is_Some (Stats.byKind stats !! k)
            ↔ ordinary_key k = true
              ∧ ∃ e, In e data ∧ key_of (Event.kind e) = k)
    ∧ Stats.byModel stats !! "" = None
    ∧ Stats.byKind stats !! "" = None
    ∧ Stats.byModel stats !! "constructor" = None
    ∧ Stats.byKind stats !! "constructor" = None.
Proof.
  intros now data stats.
  assert (Hord : ∀ key, DataStorage.inherited key = false ↔ ordinary_key key = true).
  { intros key. rewrite inherited_ordinary. now destruct (ordinary_key key). }
  assert (Hm : ∀ m, is_Some (Stats.byModel stats !! m)
                    ↔ ordinary_key m = true
                      ∧ ∃ e, In e data ∧ key_of (Event.model e) = m).
  { intros m. subst stats. unfold DataStorage.calculateStats. cbn [Stats.byModel].
    rewrite fold_add_event_models. simpl. rewrite lookup_empty, Hord.
    split.
    - intros [[? H]|(Ho & e & He & <-)]; [discriminate|].
      split; [exact Ho|]. exists e. split; [exact He|].
      symmetry. apply model_key_of.
    - intros (Ho & e & He & <-). right. split; [exact Ho|].
      exists e. split; [exact He|apply model_key_of]. }
  assert (Hk : ∀ k, is_Some (Stats.byKind stats !! k)
                    ↔ ordinary_key k = true
                      ∧ ∃ e, In e data ∧ key_of (Event.kind e) = k).
  { intros k. subst stats. unfold DataStorage.calculateStats. cbn [Stats.byKind].
    rewrite fold_add_event_kinds. simpl. rewrite lookup_empty, Hord.
    split.
    - intros [[? H]|(Ho & e & He & <-)]; [discriminate|].
      split; [exact Ho|]. exists e. split; [exact He|].
      symmetry. apply kind_key_of.
    - intros (Ho & e & He & <-). right. split; [exact Ho|].
      exists e. split; [exact He|apply kind_key_of]. }
  assert (Hne : ∀ s, key_of s ≠ "").
  { intros s. unfold key_of. destruct (String.eqb_spec s ""); [discriminate|].
    assumption. }
  split; [exact Hm|]. split; [exact Hk|].
  split; [|split; [|split]]; apply eq_None_not_Some.
  - rewrite Hm. intros (_ & e & _ & He). exact (Hne _ He).
  - rewrite Hk. intros (_ & e & _ & He). exact (Hne _ He).
  - rewrite Hm. intros (Ho & _). discriminate Ho.
  - rewrite Hk. intros (Ho & _). discriminate Ho.
Qed.

(** X6. When no event has a negative cost, the paid total never exceeds the
    estimate: [totalCost <= estimatedCost]. *)
Theorem calculateStats_total_le_estimate :
  ∀ (now : Z) (data : list Event.t),
    (∀ e, In e data → (0 <= DataStorage.eventCost e)%Qc) →
    (Stats.totalCost (DataStorage.calculateStats now data)
     <= Stats.estimatedCost (DataStorage.calculateStats now data))%Qc.
Proof.
  intros now data Hpos.
  destruct (fold_add_event_costs data (DataStorage.stats_init now data))
    as (Ht & He & _).
  unfold DataStorage.calculateStats. cbn [Stats.totalCost Stats.estimatedCost].
  rewrite Ht, He. apply sum_costs_from_filter_le; [exact Hpos|apply Qcle_refl].
Qed.

Lemma calculateStats_total_le_estimate_witness :
  let data := [sample "1_a" 1 "errored_not_charged" 5 0;
               sample "2_b" 2 "usage_based" 4 0] in
  (Stats.totalCost (DataStorage.calculateStats 0 data)
   <= Stats.estimatedCost (DataStorage.calculateStats 0 data))%Qc.
Proof.
  intros data. apply (calculateStats_total_le_estimate 0 data).
  intros e [<-|[<-|[]]]; vm_compute; discriminate.
Defined.

Section RecentEvents.

Import DataStorage.

Lemma In_take {A} (x : A) n l : In x (take n l) → In x l.
Proof.
revert n. induction l as [|y r IH]; intros [|n]; simpl; try tauto.
intros [->|H]; [now left|right; eauto].
Qed.

Lemma StronglySorted_take {A} (R : A → A → Prop) n l :
StronglySorted R l → StronglySorted R (take n l).
Proof.
intros H. revert n. induction H as [|x l Hl IH Hx]; intros [|n]; simpl;
  try constructor.
- apply IH.
- rewrite Forall_forall in Hx. rewrite Forall_forall. intros y Hy.
  apply Hx. apply list_elem_of_In. apply list_elem_of_In in Hy.
  apply (In_take _ n). exact Hy.
Qed.

Lemma StronglySorted_map {A B} (f : A → B) (R : B → B → Prop) l :
StronglySorted (fun a b => R (f a) (f b)) l → StronglySorted R (map f l).
Proof.
induction 1 as [|x l Hl IH Hx]; simpl; constructor; [exact IH|].
rewrite Forall_forall in Hx. rewrite Forall_forall. intros y Hy.
apply list_elem_of_In, in_map_iff in Hy as (z & <- & Hz).
apply Hx. now apply list_elem_of_In.
Qed.

End RecentEvents.

(** X7. [recentEvents] lists at most ten events, all of them events of the
    data set in the shape the dashboard shows (with the resolved max-mode
    flag), newest first; its first entry carries the newest date of the
    data set. *)
Theorem calculateStats_recentEvents :
  ∀ (now : Z) (data : list Event.t),
    let recent := Stats.recentEvents (DataStorage.calculateStats now data) in
    length recent = Nat.min 10 (length data)
    ∧ StronglySorted (fun a b => RecentEvent.date b <= RecentEvent.date a) recent
    ∧ RecentEvent.date <$> head recent = max_date data
    ∧ (∀ r, In r recent → ∃ e, In e data ∧ r = DataStorage.recent e).
Proof.
  intros now data recent. subst recent. unfold DataStorage.calculateStats.
  cbn [Stats.recentEvents]. unfold DataStorage.sorted_in_place.
  pose proof (sort_Permutation data) as Hperm.
  pose proof (sort_newest_first data) as Hsorted.
  split; [|split; [|split]].
  - rewrite length_map, length_take, (Permutation_length Hperm). reflexivity.
  - apply StronglySorted_map. simpl. apply StronglySorted_take. exact Hsorted.
  - rewrite <- sort_head_date.
    destruct (Arr.sort DataStorage.by_date_desc data); reflexivity.
  - intros r Hr. apply in_map_iff in Hr as (e & <- & He).
    exists e. split; [|reflexivity].
    apply (Permutation_in _ Hperm). apply (In_take _ 10). exact He.
Qed.

(** ** Active events and update detection *)

Section ActiveConfigured.

Import DataStorage.

Lemma sne_sym {A} `{EqDecision A} (a b : A) : sne a b = sne b a.
Proof.
destruct (sne b a) eqn:E.
- apply sne_true. apply (proj1 (sne_true b a)) in E.
  exact (fun H' => E (eq_sym H')).
- apply sne_false. apply (proj1 (sne_false b a)) in E. exact (eq_sym E).
Qed.

Lemma sne_refl {A} `{EqDecision A} (a : A) : sne a a = false.
Proof. now apply sne_false. Qed.

End ActiveConfigured.

(** X8. With a recency window of [h] hours configured, the active events
    are stored events dated at or after [now - h] hours, in stored order;
    with a non-negative cap [n] configured as well they are the first [n]
    of those (all of them when there are at most [n]), and without a cap
    all of them. *)
Theorem getActiveEvents_configured :
  ∀ (cfg : gmap string Z) (now h : Z) (events : list Event.t),
    cfg !! "ACTIVE_EVENTS_CHECK_HOURS" = Some h →
    let recent :=
      List.filter (fun e => now - h * 3600000 <=? Event.date e) events in
    let active := DataStorage.getActiveEvents cfg now events in
    (∀ e, In e active → now - h * 3600000 <= Event.date e)
    ∧ active `sublist_of` events
    ∧ (∀ n, cfg !! "ACTIVE_EVENTS_MAX_COUNT" = Some n → 0 <= n →
            active = take (Z.to_nat n) recent
            ∧ (length active <= Z.to_nat n)%nat)
    ∧ (cfg !! "ACTIVE_EVENTS_MAX_COUNT" = None → active = recent).
Proof.
  intros cfg now h events Hh recent active.
  assert (Hsub : active `sublist_of` events) by apply getActiveEvents_sublist.
  assert (Hcap : ∀ n, cfg !! "ACTIVE_EVENTS_MAX_COUNT" = Some n → 0 <= n →
                      active = take (Z.to_nat n) recent).
  { intros n Hn Hpos. subst active.
    rewrite (getActiveEvents_hours cfg now events h Hh), Hn. fold recent.
    destruct (Z.ltb_spec n (Z.of_nat (length recent))) as [Hlt|Hge].
    - unfold Arr.slice0. destruct (Z.ltb_spec n 0); [lia|reflexivity].
    - rewrite take_ge by lia. reflexivity. }
  assert (Hnone : cfg !! "ACTIVE_EVENTS_MAX_COUNT" = None → active = recent).
  { intros Hn. subst active.
    rewrite (getActiveEvents_hours cfg now events h Hh), Hn. reflexivity. }
  split; [|split; [exact Hsub|split; [|exact Hnone]]].
  - intros e He.
    assert (Hin : In e recent).
    { destruct (cfg !! "ACTIVE_EVENTS_MAX_COUNT") as [n|] eqn:Hn.
      - subst active.
        rewrite (getActiveEvents_hours cfg now events h Hh), Hn in He.
        fold recent in He. destruct (n <? Z.of_nat (length recent));
          [|exact He].
        unfold Arr.slice0 in He. destruct (n <? 0);
          eapply In_take; exact He.
      - rewrite (Hnone eq_refl) in He. exact He. }
    apply filter_In in Hin as [_ Hin]. now apply Z.leb_le.
  - intros n Hn Hpos. split; [now apply Hcap|].
    rewrite (Hcap n Hn Hpos), length_take. lia.
Qed.

Lemma getActiveEvents_configured_witness :
  let events := [sample "864000000_b" 864000000 "usage_based" 1 1;
                 sample "1000_a" 1000 "usage_based" 1 1] in
  DataStorage.getActiveEvents (CONFIG_documented ∅) 864000500 events
  = [sample "864000000_b" 864000000 "usage_based" 1 1].
Proof.
  intros events.
  destruct (getActiveEvents_configured (CONFIG_documented ∅) 864000500 24 events
              eq_refl) as (_ & _ & Hcap & _).
  destruct (Hcap 100 eq_refl ltac:(lia)) as [-> _]. reflexivity.
Defined.

(** X9. Update detection is irreflexive and symmetric: an event is never
    an update of itself, and two events are flagged in one order exactly
    when they are flagged in the other. *)
Theorem isEventUpdated_irreflexive_symmetric :
  ∀ a b : Event.t,
    DataStorage.isEventUpdated a a = false
    ∧ DataStorage.isEventUpdated a b = DataStorage.isEventUpdated b a.
Proof.
  intros a b. split.
  - unfold DataStorage.isEventUpdated. rewrite !sne_refl. simpl.
    destruct (Event.tokenUsage a) as [t|];
      [unfold DataStorage.tokenUsage_changed; rewrite !sne_refl; simpl|];
      (destruct (Event.costInfo a) as [c|]; [|reflexivity];
       unfold DataStorage.costInfo_changed; rewrite !sne_refl; reflexivity).
  - unfold DataStorage.isEventUpdated.
    rewrite (sne_sym (JS.split0 (Event.id a))),
      (sne_sym (Event.credits a)), (sne_sym (Event.tokens a)),
      (sne_sym (Event.cost a)), (sne_sym (Event.kind a)),
      (sne_sym (Event.model a)).
    destruct (Event.tokenUsage a) as [ta|], (Event.tokenUsage b) as [tb|],
      (Event.costInfo a) as [ca|], (Event.costInfo b) as [cb|];
      unfold DataStorage.tokenUsage_changed, DataStorage.costInfo_changed;
      rewrite ?(sne_sym (TokenUsage.inputTokens ta)),
        ?(sne_sym (TokenUsage.outputTokens ta)),
        ?(sne_sym (TokenUsage.cacheReadTokens ta)),
        ?(sne_sym (TokenUsage.cacheWriteTokens ta)),
        ?(sne_sym (CostInfo.originalCost ca)),
        ?(sne_sym (CostInfo.discountedCost ca)),
        ?(sne_sym (CostInfo.discount ca));
      reflexivity.
Qed.

(** ** Page size: frame and progress *)

(** X10. An observation of the controller touches nothing but the
    persisted page size: events, watermark, event counter and the
    statistics file stay as they are, and without a dataset, or with a
    dataset lacking sync metadata, nothing at all is written. *)
Theorem updateAdaptivePageSize_frame :
  ∀ (responseTime eventsCount : Z) (fs : FS.t),
    let fs' := DataStorage.updateAdaptivePageSize responseTime eventsCount fs in
    events_of fs' = events_of fs
    ∧ watermark_of fs' = watermark_of fs
    ∧ UsageDataset.totalEvents <$> DataStorage.loadUsageData fs'
      = UsageDataset.totalEvents <$> DataStorage.loadUsageData fs
    ∧ DataStorage.loadStats fs' = DataStorage.loadStats fs
    ∧ (pageSize_of fs = None → fs' = fs).
Proof.
  intros rt cnt fs fs'. subst fs'.
  unfold DataStorage.updateAdaptivePageSize, events_of, watermark_of,
    pageSize_of, DataStorage.loadStats, DataStorage.loadUsageData.
  destruct fs as [[data|] stats]; simpl; [|auto 6].
  destruct (UsageDataset.syncMetadata data) as [sm|]; simpl; [|auto 6].
  destruct (negb _); simpl; repeat split; try reflexivity; discriminate.
Qed.



(** ** Incremental merge: invariants *)

Section MergeInvariants.

Import DataStorage.

Lemma fresh_prefix_absent present e :
fresh present e = true → ¬ In (ts_prefix e) (map ts_prefix present).
Proof.
rewrite fresh_by_prefix. intros H Hin. apply negb_true_iff in H.
assert (E : existsb (fun T => String.eqb T (ts_prefix e))
              (map ts_prefix present) = true).
{ apply existsb_exists. exists (ts_prefix e). split; [exact Hin|].
  apply String.eqb_refl. }
congruence.
Qed.

Lemma prefix_absent_fresh present e :
¬ In (ts_prefix e) (map ts_prefix present) → fresh present e = true.
Proof.
rewrite fresh_by_prefix. intros Hn. apply negb_true_iff.
destruct (existsb _ _) eqn:E; [|reflexivity].
apply existsb_exists in E as (T & HT & Heq). apply String.eqb_eq in Heq.
subst T. contradiction.
Qed.

Lemma sublist_map {A B} (f : A → B) l1 l2 :
l1 `sublist_of` l2 → map f l1 `sublist_of` map f l2.
Proof. induction 1; simpl; now constructor. Qed.

(** The two outcomes of a merge. *)
End MergeInvariants.

(** X12. An incremental merge keeps timestamp prefixes pairwise distinct:
    when no two stored events and no two incoming events share a prefix, no
    two events on disk share one afterwards. *)
Theorem mergeUsageData_distinct_prefixes :
  ∀ (cfg : gmap string Z) (now : Z) (newData : list Event.t) (fs : FS.t)
    (ds : UsageDataset.t),
    DataStorage.loadUsageData fs = Some ds →
    NoDup (map ts_prefix (UsageDataset.events ds)) →
    NoDup (map ts_prefix newData) →
    ∃ l,
      events_of (DataStorage.mergeUsageData cfg now newData true fs) = Some l
      ∧ NoDup (map ts_prefix l).
Proof.
  intros cfg now newData fs ds Hds Hstored Hbatch.
  destruct (mergeUsageData_events cfg now newData fs ds Hds) as (l & Hl & Hperm).
  exists l. split; [exact Hl|].
  apply (Permutation_map ts_prefix) in Hperm.
  rewrite Hperm, map_app, check_updates_prefixes.
  apply NoDup_app. split; [|split; [|exact Hstored]].
  - eapply sublist_NoDup; [exact Hbatch|].
    apply sublist_map, List_filter_sublist.
  - intros T HT Hin. apply list_elem_of_In in HT, Hin.
    apply in_map_iff in HT as (e & <- & He).
    apply filter_In in He as [_ He].
    now apply fresh_prefix_absent in He.
Qed.

Lemma mergeUsageData_distinct_prefixes_witness :
  let a := sample "864000000_a" 864000000 "usage_based" 2 1 in
  let u := sample "864000000_b" 864000000 "usage_based" 2 3 in
  let n := sample "864000500_c" 864000500 "usage_based" 1 1 in
  ∃ l,
    events_of
      (DataStorage.mergeUsageData (CONFIG_documented ∅) 864001000 [u; n] true
         (stored 500 [a]))
    = Some l
    ∧ NoDup (map ts_prefix l).
Proof.
  intros a u n.
  apply (mergeUsageData_distinct_prefixes (CONFIG_documented ∅) 864001000
           [u; n] (stored 500 [a])
           (UsageDataset.mk 0 0 1
              (Some (SyncMetadata.mk 0 500 SyncMetadata.full)) [a])).
  - reflexivity.
  - vm_compute. apply NoDup_cons. split; [apply not_elem_of_nil|apply NoDup_nil_2].
  - vm_compute. apply NoDup_cons. split.
    + intros H. apply list_elem_of_In in H. destruct H as [H|[]].
      discriminate H.
    + apply NoDup_cons. split; [apply not_elem_of_nil|apply NoDup_nil_2].
Defined.

(** X13. The merge does not deduplicate within the batch: for a timestamp
    prefix no stored event has, every incoming event of that prefix is on
    disk afterwards, as often as the batch holds it. *)
Theorem mergeUsageData_batch_duplicates :
  ∀ (cfg : gmap string Z) (now : Z) (newData : list Event.t) (fs : FS.t)
    (ds : UsageDataset.t) (T : string),
    DataStorage.loadUsageData fs = Some ds →
    (∀ s, In s (UsageDataset.events ds) → ts_prefix s ≠ T) →
    ∃ l,
      events_of (DataStorage.mergeUsageData cfg now newData true fs) = Some l
      ∧ Permutation (List.filter (has_prefix T) l)
          (List.filter (has_prefix T) newData).
Proof.
  intros cfg now newData fs ds T Hds Habsent.
  destruct (mergeUsageData_events cfg now newData fs ds Hds) as (l & Hl & Hperm).
  exists l. split; [exact Hl|].
  apply (Permutation_List_filter (has_prefix T)) in Hperm.
  rewrite Hperm, List.filter_app.
  assert (Hkept : List.filter (has_prefix T)
                    (fst (DataStorage.check_updates cfg now
                            (UsageDataset.events ds) newData)) = []).
  { apply filter_nil_iff. intros x Hx. apply has_prefix_false. intros HT.
    assert (Hin : In T (map ts_prefix (UsageDataset.events ds))).
    { rewrite <- (check_updates_prefixes cfg now _ newData).
      apply in_map_iff. exists x. auto. }
    apply in_map_iff in Hin as (s & Hs & Hin). now apply (Habsent s). }
  rewrite Hkept, app_nil_r.
  assert (Heq : List.filter (has_prefix T)
                  (List.filter (fresh (UsageDataset.events ds)) newData)
                = List.filter (has_prefix T) newData).
  { clear Hperm Hl Hkept.
    induction newData as [|e r IH]; [reflexivity|]. simpl.
    destruct (has_prefix T e) eqn:HT.
    - rewrite prefix_absent_fresh; [simpl; rewrite HT; f_equal; exact IH|].
      intros Hin. apply in_map_iff in Hin as (s & Hs & Hin).
      apply has_prefix_true in HT. apply (Habsent s Hin). congruence.
    - destruct (fresh _ e); simpl; rewrite ?HT; exact IH. }
  now rewrite Heq.
Qed.

Lemma mergeUsageData_batch_duplicates_witness :
  let a := sample "864000000_a" 864000000 "usage_based" 2 1 in
  let n1 := sample "864000500_c" 864000500 "usage_based" 1 1 in
  let n2 := sample "864000500_d" 864000500 "usage_based" 1 1 in
  ∃ l,
    events_of
      (DataStorage.mergeUsageData (CONFIG_documented ∅) 864001000 [n1; n2] true
         (stored 500 [a]))
    = Some l
    ∧ Permutation (List.filter (has_prefix "864000500") l) [n1; n2].
Proof.
  intros a n1 n2.
  apply (mergeUsageData_batch_duplicates (CONFIG_documented ∅) 864001000
           [n1; n2] (stored 500 [a])
           (UsageDataset.mk 0 0 1
              (Some (SyncMetadata.mk 0 500 SyncMetadata.full)) [a])
           "864000500").
  - reflexivity.
  - intros s [<-|[]]. vm_compute. discriminate.
Defined.

(** X14. Newest-first order is an invariant of the incremental merge: a
    dataset stored newest first is newest first afterwards, whether the
    merge wrote or not. The merge never drops a stored slot: the number of
    events grows by the number of incoming events whose id and prefix are
    both new. *)
Theorem mergeUsageData_keeps_order_and_slots :
  ∀ (cfg : gmap string Z) (now : Z) (newData : list Event.t) (fs : FS.t)
    (ds : UsageDataset.t),
    DataStorage.loadUsageData fs = Some ds →
    ∃ l,
      events_of (DataStorage.mergeUsageData cfg now newData true fs) = Some l
      ∧ (newest_first (UsageDataset.events ds) → newest_first l)
      ∧ length l
        = (length (UsageDataset.events ds)
           + length (List.filter (fresh (UsageDataset.events ds)) newData))%nat.
Proof.
  intros cfg now newData fs ds Hds.
  destruct (mergeUsageData_events cfg now newData fs ds Hds) as (l & Hl & Hperm).
  exists l. split; [exact Hl|]. split.
  - intros Hsorted.
    destruct (mergeUsageData_incremental_newest_first cfg now newData fs)
      as [Hsame|(l' & Hl' & Hs)]; [rewrite Hds; eauto| |].
    + rewrite Hsame in Hl. unfold events_of in Hl. rewrite Hds in Hl.
      injection Hl as <-. exact Hsorted.
    + rewrite Hl in Hl'. injection Hl' as <-. exact Hs.
  - rewrite (Permutation_length Hperm), length_app, check_updates_length. lia.
Qed.

Lemma mergeUsageData_keeps_order_and_slots_witness :
  let a := sample "864000000_a" 864000000 "usage_based" 2 1 in
  let n := sample "864000500_c" 864000500 "usage_based" 1 1 in
  ∃ l,
    events_of
      (DataStorage.mergeUsageData (CONFIG_documented ∅) 864001000 [n] true
         (stored 500 [a]))
    = Some l
    ∧ length l = 2%nat.
Proof.
  intros a n.
  destruct (mergeUsageData_keeps_order_and_slots (CONFIG_documented ∅)
              864001000 [n] (stored 500 [a])
              (UsageDataset.mk 0 0 1
                 (Some (SyncMetadata.mk 0 500 SyncMetadata.full)) [a])
              eq_refl) as (l & Hl & _ & Hlen).
  exists l. split; [exact Hl|]. rewrite Hlen. reflexivity.
Defined.

(** X16. [appendUsageData] does not append: it stores the batch as a full
    sync does, so the stored events that are not in the batch are gone, the
    page size is back at 500 and the watermark is the newest date of the
    batch (the clock for an empty batch). *)
Theorem appendUsageData_replaces :
  ∀ (cfg : gmap string Z) (now : Z) (newData : list Event.t) (fs : FS.t),
    let fs' := DataStorage.appendUsageData cfg now newData fs in
    events_of fs' = Some newData
    ∧ pageSize_of fs' = Some 500
    ∧ watermark_of fs' = Some (default now (max_date newData))
    ∧ DataStorage.loadStats fs' = Some (DataStorage.calculateStats now newData).
Proof.
  intros cfg now newData fs fs'. subst fs'.
  unfold DataStorage.appendUsageData. rewrite mergeUsageData_full.
  split; [apply saveUsageData_events|].
  split; [apply (saveUsageData_pageSize now newData false)|].
  split; [|reflexivity].
  change (Some (DataStorage.syncDate now newData false)
          = Some (default now (max_date newData))).
  now rewrite syncDate_full.
Qed.

(** * Further properties of the normalizer *)

Section NormalizerMore.

Import DataCollector.

Lemma split0_app s r : JS.split0 (s +:+ "_" +:+ r) = JS.split0 s.
Proof.
induction s as [|c s IH]; simpl; [reflexivity|].
destruct (Ascii.eqb c "_"); [reflexivity|]. now rewrite IH.
Qed.

Lemma split0_no_underscore s : no_underscore s = true → JS.split0 s = s.
Proof.
induction s as [|c s IH]; simpl; [reflexivity|].
destruct (Ascii.eqb c "_"); simpl; [discriminate|].
intros H. now rewrite IH.
Qed.

Lemma startsWith_app s t : JS.startsWith (s +:+ t) s = true.
Proof.
unfold JS.startsWith. induction s as [|c s IH]; simpl.
- now destruct t.
- destruct (ascii_dec c c); [exact IH|contradiction].
Qed.

Lemma Qc_pos_nonneg q : JS.Qc_pos q = true → (0 <= q)%Qc.
Proof.
unfold JS.Qc_pos. intros H. apply bool_decide_eq_true in H.
now apply Qclt_le_weak.
Qed.

Lemma is_str_true k s : JS.is_str k s = true → k = Some s.
Proof.
destruct k as [t|]; simpl; [|discriminate].
intros H. apply String.eqb_eq in H. now subst.
Qed.

Variable parseInt : string → JS.num Z.
Variable parseFloat : string → JS.num Qc.

(** The compared fields of a normalized event do not depend on the clock or
  on the random suffix. *)
Lemma parseUsageEvent_fields now1 rnd1 now2 rnd2 event :
let p1 := parseUsageEvent parseInt parseFloat now1 rnd1 event in
let p2 := parseUsageEvent parseInt parseFloat now2 rnd2 event in
Event.credits p1 = Event.credits p2
∧ Event.tokens p1 = Event.tokens p2
∧ Event.cost p1 = Event.cost p2
∧ Event.kind p1 = Event.kind p2
∧ Event.model p1 = Event.model p2
∧ Event.tokenUsage p1 = Event.tokenUsage p2
∧ Event.costInfo p1 = Event.costInfo p2.
Proof. repeat split. Qed.

End NormalizerMore.

(** X17. The id of a normalized event starts with the raw timestamp (with
    [undefined] when the record has none), and when that timestamp holds no
    underscore it is exactly the timestamp prefix of the id, whatever the
    random suffix. *)
Theorem parseUsageEvent_id_prefix :
  ∀ (parseInt : string → JS.num Z) (parseFloat : string → JS.num Qc)
    (now : Z) (rnd : string) (event : RawVendorEvent.t),
    let parsed := DataCollector.parseUsageEvent parseInt parseFloat now rnd event in
    let ts := default "undefined" (RawVendorEvent.timestamp event) in
    JS.startsWith (Event.id parsed) ts = true
    ∧ ts_prefix parsed = JS.split0 ts
    ∧ (no_underscore ts = true → ts_prefix parsed = ts).
Proof.
  intros parseInt parseFloat now rnd event parsed ts.
  assert (Hp : ts_prefix parsed = JS.split0 ts) by apply split0_app.
  split; [apply startsWith_app|]. split; [exact Hp|].
  intros H. rewrite Hp. now apply split0_no_underscore.
Qed.

Lemma parseUsageEvent_id_prefix_witness :
  ts_prefix
    (DataCollector.parseUsageEvent (fun _ => JS.NaN) (fun _ => JS.NaN) 5 "k3x9q2m1z"
       (RawVendorEvent.mk (Some "1756000000000") None None None None None None
          None None))
  = "1756000000000".
Proof.
  apply (parseUsageEvent_id_prefix (fun _ => JS.NaN) (fun _ => JS.NaN) 5
           "k3x9q2m1z"
           (RawVendorEvent.mk (Some "1756000000000") None None None None None
              None None None)).
  reflexivity.
Defined.

(** X18. Normalizing the same vendor record twice, at different times and
    with different random suffixes, yields two events of the same timestamp
    prefix that update detection does not flag: a record fetched again
    unchanged is never an update. *)
Theorem reparsed_event_not_updated :
  ∀ (parseInt : string → JS.num Z) (parseFloat : string → JS.num Qc)
    (now1 now2 : Z) (rnd1 rnd2 : string) (event : RawVendorEvent.t),
    let p1 := DataCollector.parseUsageEvent parseInt parseFloat now1 rnd1 event in
    let p2 := DataCollector.parseUsageEvent parseInt parseFloat now2 rnd2 event in
    ts_prefix p1 = ts_prefix p2
    ∧ DataStorage.isEventUpdated p1 p2 = false.
Proof.
  intros parseInt parseFloat now1 now2 rnd1 rnd2 event p1 p2.
  assert (Hp : ts_prefix p1 = ts_prefix p2).
  { unfold ts_prefix, p1, p2. simpl. now rewrite !split0_app. }
  split; [exact Hp|].
  destruct (DataStorage.isEventUpdated p1 p2) eqn:E; [|reflexivity].
  exfalso. apply (isEventUpdated_true p1 p2 Hp) in E.
  destruct (parseUsageEvent_fields parseInt parseFloat now1 rnd1 now2 rnd2 event)
    as (H1 & H2 & H3 & H4 & H5 & H6 & H7).
  fold p1 p2 in H1, H2, H3, H4, H5, H6, H7.
  destruct E as [[H|[H|[H|[H|H]]]]|[(a & b & Ha & Hb & H)|(a & b & Ha & Hb & H)]];
    try contradiction.
  - rewrite H6, Hb in Ha. injection Ha as ->. tauto.
  - rewrite H7, Hb in Ha. injection Ha as ->. tauto.
Qed.

(** The flags and the display cost in the terms of the chain. *)
Lemma choose_displayCost_flags :
  ∀ (parseFloat : string → JS.num Qc) (event : RawVendorEvent.t),
    let c := DataCollector.parse_costInfo parseFloat event in
    (0 <= CostInfo.displayCost c)%Qc
    ∧ CostInfo.isIncluded c
      = DataCollector.included_plan_kind (RawVendorEvent.kind event)
    ∧ CostInfo.isFree c
      = negb (DataCollector.included_plan_kind (RawVendorEvent.kind event))
        && DataCollector.not_charged_kind (RawVendorEvent.kind event)
    ∧ CostInfo.isIncluded c && CostInfo.isFree c = false
    ∧ (CostInfo.isIncluded c || CostInfo.isFree c = true →
       CostInfo.displayCost c = 0%Qc).
Proof.
  intros parseFloat event c. subst c.
  change (DataCollector.parse_costInfo parseFloat event)
    with (DataCollector.choose_displayCost event (costInfo_copied parseFloat event)).
  pose proof (copied_displayCost parseFloat event) as H0.
  assert (Hi : CostInfo.isIncluded (costInfo_copied parseFloat event) = false
               ∧ CostInfo.isFree (costInfo_copied parseFloat event) = false).
  { unfold costInfo_copied, DataCollector.copy_usageBasedCosts,
      DataCollector.copy_requestsCosts, DataCollector.copy_totalCents.
    destruct event as [ts k m [tu|] rc ubc csn mm dmm]; simpl;
      [destruct (RawTokenUsage.totalCents tu) as [x|]; simpl;
       [destruct (JS.truthy_Qc x)|]|];
      destruct rc as [r|]; try destruct (JS.truthy_Qc r);
      destruct ubc as [s|];
      try destruct (JS.truthy_str s && negb (String.eqb s "-"));
      split; reflexivity. }
  destruct Hi as [Hinc Hfree].
  set (c0 := costInfo_copied parseFloat event) in *.
  unfold DataCollector.choose_displayCost.
  destruct (DataCollector.included_plan_kind _); simpl.
  { rewrite Hfree. repeat split. apply Qcle_refl. }
  destruct (DataCollector.not_charged_kind _); simpl.
  { rewrite Hinc. repeat split. apply Qcle_refl. }
  assert (Hquot : JS.Qc_pos (CostInfo.totalCents c0) = true →
                  (0 <= CostInfo.totalCents c0 / Qc_of_Z 100)%Qc).
  { intros Hp. apply Qc_pos_nonneg in Hp. unfold Qcdiv.
    apply Qcmult_nonneg_nonneg; [exact Hp|].
    vm_compute. discriminate. }
  destruct (JS.Qc_pos (CostInfo.totalCents c0)) eqn:Et; simpl.
  { rewrite Hinc, Hfree. repeat split; [now apply Hquot|discriminate]. }
  unfold JS.num_pos.
  destruct (CostInfo.usageBasedCosts c0) as [u|] eqn:Eu.
  - destruct (JS.Qc_pos u) eqn:Epu; simpl.
    { rewrite Hinc, Hfree. repeat split; [now apply Qc_pos_nonneg|discriminate]. }
    destruct (JS.Qc_pos (CostInfo.requestsCosts c0)) eqn:Er; simpl;
      rewrite Hinc, Hfree; repeat split; try discriminate.
    + now apply Qc_pos_nonneg.
    + rewrite H0. apply Qcle_refl.
  - destruct (JS.Qc_pos (CostInfo.requestsCosts c0)) eqn:Er; simpl;
      rewrite Hinc, Hfree; repeat split; try discriminate.
    + now apply Qc_pos_nonneg.
    + rewrite H0. apply Qcle_refl.
Qed.

(** No kind is both an included-plan kind and a not-charged kind. *)
Lemma kinds_disjoint k :
  kind_among included_plan_kinds k = true →
  kind_among not_charged_kinds k = false.
Proof.
  destruct k as [k|]; [|reflexivity].
  unfold kind_among, included_plan_kinds. cbn [existsb].
  rewrite !orb_true_iff, !String.eqb_eq.
  intros [->|[->|[->|[->|[->|H]]]]]; try reflexivity. discriminate H.
Qed.

(** X19. The display cost of a normalized event is never negative. The
    flag [isIncluded] is set exactly for the kinds
    [USAGE_EVENT_KIND_CUSTOM_SUBSCRIPTION] and [USAGE_EVENT_KIND_INCLUDED_IN_PRO],
    [_BUSINESS], [_PRO_PLUS], [_ULTRA]; the flag [isFree] exactly for
    [USAGE_EVENT_KIND_ERRORED_NOT_CHARGED] and
    [USAGE_EVENT_KIND_ABORTED_NOT_CHARGED]; never both, and either flag
    means a display cost of 0. A usage-based record has neither flag. *)
Theorem parse_costInfo_flags :
  ∀ (parseFloat : string → JS.num Qc) (event : RawVendorEvent.t),
    let c := DataCollector.parse_costInfo parseFloat event in
    (0 <= CostInfo.displayCost c)%Qc
    ∧ CostInfo.isIncluded c
      = kind_among included_plan_kinds (RawVendorEvent.kind event)
    ∧ CostInfo.isFree c
      = kind_among not_charged_kinds (RawVendorEvent.kind event)
    ∧ CostInfo.isIncluded c && CostInfo.isFree c = false
    ∧ (CostInfo.isIncluded c || CostInfo.isFree c = true →
       CostInfo.displayCost c = 0%Qc)
    ∧ (RawVendorEvent.kind event = Some "USAGE_EVENT_KIND_USAGE_BASED" →
       CostInfo.isIncluded c = false ∧ CostInfo.isFree c = false).
Proof.
  intros parseFloat event c.
  destruct (choose_displayCost_flags parseFloat event)
    as (Hpos & Hinc & Hfree & Hboth & Hzero).
  fold c in Hpos, Hinc, Hfree, Hboth, Hzero.
  rewrite included_plan_kind_among, not_charged_kind_among in Hfree.
  rewrite included_plan_kind_among in Hinc.
  assert (Hfree' : CostInfo.isFree c
                   = kind_among not_charged_kinds (RawVendorEvent.kind event)).
  { rewrite Hfree.
    destruct (kind_among included_plan_kinds (RawVendorEvent.kind event)) eqn:E;
      [|reflexivity].
    simpl. symmetry. now apply kinds_disjoint. }
  split; [exact Hpos|]. split; [exact Hinc|]. split; [exact Hfree'|].
  split; [exact Hboth|]. split; [exact Hzero|].
  intros Hk. rewrite Hinc, Hfree', Hk. split; reflexivity.
Qed.

(** X20. The kind of a normalized event is always one of the twelve slugs
    of the kind table, never a vendor spelling; it is [errored_not_charged]
    exactly for the vendor kind [USAGE_EVENT_KIND_ERRORED_NOT_CHARGED], so
    the statistics leave exactly these normalized events out of the paid
    totals. *)
Theorem parseUsageEvent_kind_table :
  ∀ (parseInt : string → JS.num Z) (parseFloat : string → JS.num Qc)
    (now : Z) (rnd : string) (event : RawVendorEvent.t),
    let parsed := DataCollector.parseUsageEvent parseInt parseFloat now rnd event in
    In (Event.kind parsed) kind_slugs
    ∧ (Event.kind parsed = "errored_not_charged"
       ↔ RawVendorEvent.kind event = Some "USAGE_EVENT_KIND_ERRORED_NOT_CHARGED")
    ∧ DataStorage.charged parsed
      = negb (JS.is_str (RawVendorEvent.kind event)
                "USAGE_EVENT_KIND_ERRORED_NOT_CHARGED").
Proof.
  intros parseInt parseFloat now rnd event parsed.
  assert (Hk : Event.kind parsed = fst (DataCollector.parse_kind event))
    by reflexivity.
  assert (Hc : DataStorage.charged parsed
               = negb (String.eqb (Event.kind parsed) "errored_not_charged")
                 && negb (String.eqb (Event.kind parsed)
                            "USAGE_EVENT_KIND_ERRORED_NOT_CHARGED")).
  { unfold DataStorage.charged, DataStorage.sne.
    destruct (String.eqb_spec (Event.kind parsed) "errored_not_charged") as [E|E];
      destruct (String.eqb_spec (Event.kind parsed)
                  "USAGE_EVENT_KIND_ERRORED_NOT_CHARGED") as [E'|E'];
      rewrite ?(bool_decide_eq_true_2 _ E), ?(bool_decide_eq_true_2 _ E'),
        ?(bool_decide_eq_false_2 _ (fun H => H E)),
        ?(bool_decide_eq_false_2 _ (fun H => H E')); reflexivity. }
  rewrite Hc, Hk. clear Hc Hk parsed. unfold DataCollector.parse_kind, kind_slugs.
  destruct (RawVendorEvent.kind event) as [k|]; simpl.
  2:{ split; [tauto|]. split; [|reflexivity]. split; discriminate. }
  repeat match goal with
         | |- context [String.eqb k ?s] =>
             destruct (String.eqb_spec k s) as [->|?]
         | |- context [JS.is_str ?x ?s] => destruct (JS.is_str x s)
         end; simpl;
    (split; [tauto|]); (split; [|reflexivity]);
    (split; [discriminate|intros [= ?]; congruence]) || (split; reflexivity).
Qed.

(** X21. A normalized event is well formed: its [tokens] is the sum of the
    four token figures of its [tokenUsage] (absent figures count 0); its
    model is neither empty nor [default]; when the number read from the
    timestamp does not exceed the largest time value of a [Date], its date
    is the clock reading or an instant after 2020-01-01 and within that
    bound; its max-mode flag is the top-level flag if the record has one,
    else the nested one, else false; and it keeps the raw record. *)
Theorem parseUsageEvent_well_formed :
  ∀ (parseInt : string → JS.num Z) (parseFloat : string → JS.num Qc)
    (now : Z) (rnd : string) (event : RawVendorEvent.t),
    let parsed := DataCollector.parseUsageEvent parseInt parseFloat now rnd event in
    (∃ tu i o cr cw,
       Event.tokenUsage parsed = Some tu
       ∧ TokenUsage.inputTokens tu = Some i
       ∧ TokenUsage.outputTokens tu = Some o
       ∧ TokenUsage.cacheReadTokens tu = Some cr
       ∧ TokenUsage.cacheWriteTokens tu = Some cw
       ∧ Event.tokens parsed = Some (i + o + cr + cw)%Qc)
    ∧ Event.model parsed ≠ "" ∧ Event.model parsed ≠ "default"
    ∧ (timestamp_within_Date parseInt event →
       Event.date parsed = now
       ∨ 1577836800000 < Event.date parsed <= Date_max)
    ∧ Event.maxMode parsed
      = Some (default (default false (RawVendorEvent.detailsMaxMode event))
                (RawVendorEvent.maxMode event))
    ∧ Event.rawData parsed = Some event
    ∧ DataStorage.resolve_maxMode parsed
      = default (default false (RawVendorEvent.detailsMaxMode event))
          (RawVendorEvent.maxMode event).
Proof.
  intros parseInt parseFloat now rnd event parsed.
  split; [|split; [|split; [|split; [|split; [|split]]]]].
  - unfold parsed, DataCollector.parseUsageEvent. simpl.
    unfold DataCollector.parse_tokenUsage.
    destruct (RawVendorEvent.tokenUsage event) as [tu|].
    + do 5 eexists. repeat split.
    + exists (TokenUsage.mk (Some 0%Qc) (Some 0%Qc) (Some 0%Qc) (Some 0%Qc)
                (Some 0%Qc)), 0%Qc, 0%Qc, 0%Qc, 0%Qc.
      repeat split.
  - unfold parsed. simpl. unfold DataCollector.parse_model, JS.or_str,
      JS.truthy_str.
    destruct (RawVendorEvent.model event) as [m|]; simpl.
    + destruct (String.eqb_spec m ""); simpl; [discriminate|].
      destruct (String.eqb_spec m "default"); [discriminate|assumption].
    + discriminate.
  - unfold parsed. simpl. unfold DataCollector.parse_model, JS.or_str,
      JS.truthy_str.
    destruct (RawVendorEvent.model event) as [m|]; simpl.
    + destruct (String.eqb_spec m ""); simpl; [discriminate|].
      destruct (String.eqb_spec m "default"); [discriminate|assumption].
    + discriminate.
  - intros Hrange. unfold parsed. simpl. unfold DataCollector.parse_date.
    destruct (RawVendorEvent.timestamp event) as [s|] eqn:Es; [|now left].
    destruct (JS.truthy_str s); [|now left].
    destruct (parseInt s) as [ts|] eqn:Ets; [|now left].
    destruct (Z.ltb_spec 1577836800000 ts); [|now left].
    right. split; [assumption|]. exact (Hrange s ts Es Ets).
  - unfold parsed. simpl. unfold DataCollector.parse_maxMode.
    destruct (RawVendorEvent.maxMode event), (RawVendorEvent.detailsMaxMode event);
      reflexivity.
  - reflexivity.
  - unfold DataStorage.resolve_maxMode, parsed. simpl.
    unfold DataCollector.parse_maxMode.
    destruct (RawVendorEvent.maxMode event), (RawVendorEvent.detailsMaxMode event);
      reflexivity.
Qed.

(** X22. The statistics take the cost of a normalized event from the raw
    [totalCents]: when the record carries a non-zero [totalCents] the
    event counts [totalCents / 100], whatever its kind, and its display
    cost otherwise. So an included-plan record with [totalCents] is shown
    with cost 0 and still adds its original cost to [totalCost]. *)
Theorem parsed_eventCost :
  ∀ (parseInt : string → JS.num Z) (parseFloat : string → JS.num Qc)
    (now : Z) (rnd : string) (event : RawVendorEvent.t),
    let parsed := DataCollector.parseUsageEvent parseInt parseFloat now rnd event in
    let cents :=
      JS.or_Qc (RawVendorEvent.tokenUsage event ≫= RawTokenUsage.totalCents) 0%Qc in
    DataStorage.eventCost parsed
    = (if JS.truthy_Qc cents then (cents / Qc_of_Z 100)%Qc
       else CostInfo.displayCost (DataCollector.parse_costInfo parseFloat event))
    ∧ (DataCollector.included_plan_kind (RawVendorEvent.kind event) = true →
       Event.cost parsed = Some 0%Qc ∧ DataStorage.charged parsed = true).
Proof.
  intros parseInt parseFloat now rnd event parsed cents.
  assert (Ho : CostInfo.originalCost (DataCollector.parse_costInfo parseFloat event)
               = Some (if JS.truthy_Qc cents then (cents / Qc_of_Z 100)%Qc
                       else 0%Qc)).
  { subst cents.
    unfold DataCollector.parse_costInfo, DataCollector.choose_displayCost,
      DataCollector.copy_usageBasedCosts, DataCollector.copy_requestsCosts,
      DataCollector.copy_totalCents, JS.or_Qc.
    destruct event as [ts k m [tu|] rc ubc csn mm dmm]; simpl;
      [destruct (RawTokenUsage.totalCents tu) as [x|]; simpl;
       [destruct (JS.truthy_Qc x) eqn:Ex; rewrite ?Ex|]|];
      destruct rc as [r|]; try destruct (JS.truthy_Qc r);
      destruct ubc as [s|];
      try destruct (JS.truthy_str s && negb (String.eqb s "-"));
      repeat match goal with
             | |- context [if ?b then _ else _] => destruct b eqn:?
             | |- context [match ?x with JS.Num _ => _ | JS.NaN => _ end] =>
                 destruct x eqn:?
             end; simpl; try reflexivity; try discriminate. }
  split.
  - unfold DataStorage.eventCost, parsed. simpl. rewrite Ho.
    destruct (JS.truthy_Qc cents) eqn:Ec.
    + assert (Hq : JS.truthy_Qc (cents / Qc_of_Z 100) = true).
      { unfold JS.truthy_Qc in *. apply negb_true_iff, bool_decide_eq_false.
        apply negb_true_iff, bool_decide_eq_false in Ec. intros Hz.
        apply Ec. apply Qcmult_integral in Hz as [Hz|Hz]; [exact Hz|].
        vm_compute in Hz. discriminate Hz. }
      now rewrite Hq.
    + assert (Hz : JS.truthy_Qc 0 = false) by reflexivity.
      rewrite Hz. unfold JS.or_Qc.
      destruct (JS.truthy_Qc (CostInfo.displayCost _)) eqn:Ed; [reflexivity|].
      unfold JS.truthy_Qc in Ed. apply negb_false_iff, bool_decide_eq_true in Ed.
      now rewrite Ed.
  - intros Hinc. split.
    + unfold parsed. simpl. f_equal.
      unfold DataCollector.parse_costInfo, DataCollector.choose_displayCost.
      rewrite Hinc. reflexivity.
    + destruct (RawVendorEvent.kind event) as [k|] eqn:Ek; [|discriminate].
      unfold DataStorage.charged, parsed. simpl.
      unfold DataCollector.parse_kind, DataCollector.included_plan_kind in *.
      rewrite Ek in *. simpl in *.
      repeat match goal with
             | H : context [String.eqb k ?s] |- _ =>
                 destruct (String.eqb_spec k s) as [->|?]; simpl in H
             end; try discriminate; simpl;
        repeat match goal with
               | |- context [JS.is_str ?x ?s] => destruct (JS.is_str x s)
               end; reflexivity.
Qed.

Lemma parsed_eventCost_witness :
  let event :=
    RawVendorEvent.mk (Some "1756000000000")
      (Some "USAGE_EVENT_KIND_INCLUDED_IN_PRO") None
      (Some (RawTokenUsage.mk None None None None (Some (Qc_of_Z 500))))
      None None None None None in
  let parsed :=
    DataCollector.parseUsageEvent (fun _ => JS.NaN) (fun _ => JS.NaN) 5
      "k3x9q2m1z" event in
  Event.cost parsed = Some 0%Qc ∧ DataStorage.charged parsed = true.
Proof.
  intros event parsed.
  apply (parsed_eventCost (fun _ => JS.NaN) (fun _ => JS.NaN) 5 "k3x9q2m1z" event).
  reflexivity.
Defined.

(** * Properties of the collection *)

Section Fetcher.

Import DataStorage Collection.

Lemma updateAdaptivePageSize_keeps responseTime eventsCount fs :
events_of (updateAdaptivePageSize responseTime eventsCount fs) = events_of fs
∧ watermark_of (updateAdaptivePageSize responseTime eventsCount fs)
  = watermark_of fs
∧ loadStats (updateAdaptivePageSize responseTime eventsCount fs) = loadStats fs
∧ (loadUsageData fs = None →
   updateAdaptivePageSize responseTime eventsCount fs = fs).
Proof.
unfold updateAdaptivePageSize, events_of, watermark_of, loadStats, loadUsageData.
destruct fs as [[data|] stats]; simpl; [|auto].
destruct (UsageDataset.syncMetadata data) as [sm|]; simpl;
  [|repeat split; discriminate].
destruct (negb _); simpl; repeat split; discriminate.
Qed.

Lemma updateAdaptivePageSize_stays responseTime eventsCount fs cur :
pageSize_of fs = Some cur → 100 <= cur <= 1000 →
∃ cur', pageSize_of (updateAdaptivePageSize responseTime eventsCount fs)
        = Some cur'
        ∧ 100 <= cur' <= 1000.
Proof.
intros H Hb.
exact (observe_pages_bounds [(responseTime, eventsCount)] fs cur H Hb).
Qed.

(** The loop on a run of non-empty pages ended by an empty page or a
  failure. *)
Lemma fetch_pages_run server syncMetadata now pages :
∀ fuel k acc fs last,
  (∀ i rt evs, pages !! i = Some (rt, evs) →
               server (request_of syncMetadata now (k + Z.of_nat i))
               = Reply rt evs ∧ evs ≠ []) →
  server (request_of syncMetadata now (k + Z.of_nat (length pages))) = last →
  (last = Failure ∨ ∃ rt, last = Reply rt []) →
  (length pages < fuel)%nat →
  fetch_pages fuel server syncMetadata now k acc fs
  = Some (acc ++ concat (map snd pages),
          match syncMetadata with
          | Some _ =>
              observe_pages (page_observations pages ++ last_observation last) fs
          | None => fs
          end).
Proof.
induction pages as [|[rt evs] pages IH]; intros fuel k acc fs last Hp Hl Hend Hf.
- destruct fuel as [|fuel]; [simpl in Hf; lia|].
  simpl in Hl. rewrite Z.add_0_r in Hl. simpl. rewrite Hl, app_nil_r.
  destruct Hend as [->|[rt ->]]; simpl; destruct syncMetadata; reflexivity.
- destruct fuel as [|fuel]; [simpl in Hf; lia|].
  destruct (Hp O rt evs eq_refl) as [H0 Hne].
  simpl in H0. rewrite Z.add_0_r in H0. cbn [fetch_pages]. rewrite H0.
  destruct evs as [|e evs]; [contradiction|].
  rewrite (IH fuel (k + 1) _ _ last).
  + simpl. rewrite <- app_assoc. f_equal.
    destruct syncMetadata; reflexivity.
  + intros i rt' evs' Hi. specialize (Hp (S i) rt' evs' Hi).
    replace (k + 1 + Z.of_nat i) with (k + Z.of_nat (S i)) by lia. exact Hp.
  + rewrite <- Hl. f_equal. f_equal. simpl length. lia.
  + exact Hend.
  + simpl in Hf. lia.
Qed.

(** Whatever the server answers, the loop leaves events, watermark and
  statistics alone and keeps the page size within its bounds. *)
Lemma fetch_pages_frame server syncMetadata now fuel :
∀ k acc fs result fs',
  fetch_pages fuel server syncMetadata now k acc fs = Some (result, fs') →
  events_of fs' = events_of fs
  ∧ watermark_of fs' = watermark_of fs
  ∧ loadStats fs' = loadStats fs
  ∧ (loadUsageData fs = None → fs' = fs)
  ∧ (∀ cur, pageSize_of fs = Some cur → 100 <= cur <= 1000 →
            ∃ cur', pageSize_of fs' = Some cur' ∧ 100 <= cur' <= 1000).
Proof.
induction fuel as [|fuel IH]; intros k acc fs result fs'; simpl;
  [discriminate|].
destruct (server _) as [rt evs|].
2:{ intros [= <- <-]. repeat split; eauto. }
set (fs1 := match syncMetadata with
            | Some _ => updateAdaptivePageSize rt (Z.of_nat (length evs)) fs
            | None => fs
            end).
assert (H1 : events_of fs1 = events_of fs
             ∧ watermark_of fs1 = watermark_of fs
             ∧ loadStats fs1 = loadStats fs
             ∧ (loadUsageData fs = None → fs1 = fs)
             ∧ (∀ cur, pageSize_of fs = Some cur → 100 <= cur <= 1000 →
                       ∃ cur', pageSize_of fs1 = Some cur'
                               ∧ 100 <= cur' <= 1000)).
{ subst fs1. destruct syncMetadata; [|repeat split; eauto].
  destruct (updateAdaptivePageSize_keeps rt (Z.of_nat (length evs)) fs)
    as (He & Hw & Hs & Hn).
  repeat split; try assumption. intros cur.
  apply updateAdaptivePageSize_stays. }
destruct H1 as (He & Hw & Hs & Hn & Hb).
destruct evs as [|e evs].
- intros [= <- <-]. repeat split; assumption.
- intros Hrun. apply IH in Hrun as (He' & Hw' & Hs' & Hn' & Hb').
  split; [congruence|]. split; [congruence|]. split; [congruence|]. split.
  + intros Hnone. rewrite Hn' by (rewrite (Hn Hnone); exact Hnone).
    now apply Hn.
  + intros cur Hc Hr. destruct (Hb cur Hc Hr) as (c1 & Hc1 & Hr1).
    exact (Hb' c1 Hc1 Hr1).
Qed.

End Fetcher.

(** X23. The paginated fetch returns the records of the pages before the
    first empty page or failed request, in page order, and nothing of what
    comes after; the replies of these pages, the empty one included, are
    what it feeds to the page-size controller. A page budget larger than
    the number of non-empty pages is enough for it to return. *)
Theorem fetchAllEvents_pages :
  ∀ (server : Collection.Request.t → Collection.reply)
    (syncMetadata : DataStorage.SyncInfo.t) (now : Z) (fs : FS.t)
    (pages : list (Z * list RawVendorEvent.t)) (last : Collection.reply)
    (fuel : nat),
    (∀ i rt evs,
       pages !! i = Some (rt, evs) →
       server (Collection.request_of (Some syncMetadata) now (1 + Z.of_nat i))
       = Collection.Reply rt evs
       ∧ evs ≠ []) →
    server (Collection.request_of (Some syncMetadata) now
              (1 + Z.of_nat (length pages))) = last →
    (last = Collection.Failure ∨ ∃ rt, last = Collection.Reply rt []) →
    (length pages < fuel)%nat →
    Collection.fetchAllEvents fuel server (Some syncMetadata) now fs
    = Some (concat (map snd pages),
            observe_pages (page_observations pages ++ last_observation last) fs).
Proof.
  intros server md now fs pages last fuel Hp Hl Hend Hf.
  unfold Collection.fetchAllEvents.
  now rewrite (fetch_pages_run server (Some md) now pages fuel 1 [] fs last).
Qed.

Lemma fetchAllEvents_pages_witness :
  let r1 := RawVendorEvent.mk (Some "1756000000000") None None None None None
              None None None in
  let server := fun q =>
    if Collection.Request.page q =? 1 then Collection.Reply 10 [r1]
    else Collection.Reply 20 [] in
  Collection.fetchAllEvents 5 server
    (Some (DataStorage.getSyncMetadata (stored 500 []))) 7 (stored 500 [])
  = Some ([r1], observe_pages [(10, 1); (20, 0)] (stored 500 [])).
Proof.
  intros r1 server.
  apply (fetchAllEvents_pages server (DataStorage.getSyncMetadata (stored 500 []))
           7 (stored 500 []) [(10, [r1])] (Collection.Reply 20 []) 5).
  - intros [|i] rt evs; [|destruct i; discriminate].
    intros [= <- <-]. split; [reflexivity|discriminate].
  - reflexivity.
  - right. exists 20. reflexivity.
  - simpl. lia.
Defined.

(** X24. Whatever the server answers, a fetch that returns has left the
    stored events, the watermark and the statistics as they were; a page
    size within [100, 1000] is within [100, 1000] afterwards, and without a
    dataset nothing is written at all. *)
Theorem fetchAllEvents_frame :
  ∀ (fuel : nat) (server : Collection.Request.t → Collection.reply)
    (syncMetadata : option DataStorage.SyncInfo.t) (now : Z) (fs : FS.t)
    (result : list RawVendorEvent.t) (fs' : FS.t),
    Collection.fetchAllEvents fuel server syncMetadata now fs = Some (result, fs') →
    events_of fs' = events_of fs
    ∧ watermark_of fs' = watermark_of fs
    ∧ DataStorage.loadStats fs' = DataStorage.loadStats fs
    ∧ (DataStorage.loadUsageData fs = None → fs' = fs)
    ∧ (∀ cur, pageSize_of fs = Some cur → 100 <= cur <= 1000 →
              ∃ cur', pageSize_of fs' = Some cur' ∧ 100 <= cur' <= 1000).
Proof.
  intros fuel server md now fs result fs' H.
  exact (fetch_pages_frame server md now fuel 1 [] fs result fs' H).
Qed.

Lemma fetchAllEvents_frame_witness :
  let server := fun _ : Collection.Request.t => Collection.Reply 20 [] in
  ∃ fs',
    Collection.fetchAllEvents 1 server
      (Some (DataStorage.getSyncMetadata (stored 500 []))) 7 (stored 500 [])
    = Some ([], fs')
    ∧ events_of fs' = events_of (stored 500 []).
Proof.
  intros server. eexists. split; [reflexivity|].
  eapply (fetchAllEvents_frame 1 server
            (Some (DataStorage.getSyncMetadata (stored 500 []))) 7 (stored 500 [])).
  reflexivity.
Defined.

Section Reconciler.

Import DataStorage Collection.

Variable parseInt : string → JS.num Z.
Variable parseFloat : string → JS.num Qc.

Lemma parse_all_In now rnd events e :
In e (parse_all parseInt parseFloat now rnd events) →
∃ i raw,
  e = DataCollector.parseUsageEvent parseInt parseFloat now (rnd i) raw
  ∧ In raw events.
Proof.
unfold parse_all. intros H. apply list_elem_of_In in H.
apply elem_of_lookup_imap in H as (i & raw & -> & Hraw).
exists i, raw. split; [reflexivity|].
apply list_elem_of_In, list_elem_of_lookup. eauto.
Qed.

Lemma parse_all_length now rnd events :
length (parse_all parseInt parseFloat now rnd events) = length events.
Proof. unfold parse_all. apply length_imap. Qed.

Lemma relevantEvents_In ids events raw :
In raw (relevantEvents ids events) →
In raw events
∧ ∃ activeId, In activeId ids
              ∧ JS.startsWith activeId
                  (default "undefined" (RawVendorEvent.timestamp raw)) = true.
Proof.
unfold relevantEvents. intros H. apply filter_In in H as [Hin H].
split; [exact Hin|]. apply existsb_exists in H. exact H.
Qed.

(** With the shipped configuration there is no active event, hence no
  candidate. *)
Lemma collectActiveEventsForUpdates_shipped env now rnd response fs :
collectActiveEventsForUpdates parseInt parseFloat (CONFIG env) now rnd
  response fs = [].
Proof.
unfold collectActiveEventsForUpdates.
destruct (loadUsageData fs) as [ds|]; [|reflexivity].
rewrite getActiveEvents_unset; [reflexivity|].
apply CONFIG_no_active_settings.
Qed.

End Reconciler.

(** X25. Every update candidate of the reconciliation is the normalization
    of a record of the response whose timestamp starts the id of an active
    stored event; there are never more candidates than records, and none
    without a dataset or without a response. With the configuration as
    shipped there is never a candidate. *)
Theorem collectActiveEventsForUpdates_candidates :
  ∀ (parseInt : string → JS.num Z) (parseFloat : string → JS.num Qc)
    (cfg : gmap string Z) (now : Z) (rnd : nat → string)
    (response : option (list RawVendorEvent.t)) (fs : FS.t),
    let result :=
      Collection.collectActiveEventsForUpdates parseInt parseFloat cfg now rnd
        response fs in
    (∀ e, In e result →
          ∃ i raw ds a,
            e = DataCollector.parseUsageEvent parseInt parseFloat now (rnd i) raw
            ∧ In raw (default [] response)
            ∧ DataStorage.loadUsageData fs = Some ds
            ∧ In a (DataStorage.getActiveEvents cfg now (UsageDataset.events ds))
            ∧ JS.startsWith (Event.id a)
                (default "undefined" (RawVendorEvent.timestamp raw)) = true)
    ∧ (length result <= length (default [] response))%nat
    ∧ (DataStorage.loadUsageData fs = None ∨ response = None → result = [])
    ∧ (∀ env,
         Collection.collectActiveEventsForUpdates parseInt parseFloat (CONFIG env)
           now rnd response fs = []).
Proof.
  intros parseInt parseFloat cfg now rnd response fs result.
  split; [|split; [|split]].
  - intros e He. subst result. unfold Collection.collectActiveEventsForUpdates in He.
    destruct (DataStorage.loadUsageData fs) as [ds|] eqn:Hds; [|destruct He].
    destruct (DataStorage.getActiveEvents cfg now (UsageDataset.events ds))
      as [|a0 actives] eqn:Hact; [destruct He|].
    destruct response as [[|r0 events]|]; try destruct He.
    apply parse_all_In in He as (i & raw & -> & Hraw).
    apply relevantEvents_In in Hraw as (Hin & activeId & Hid & Hsw).
    apply in_map_iff in Hid as (a & <- & Ha).
    exists i, raw, ds, a.
    split; [reflexivity|]. split; [exact Hin|]. split; [reflexivity|].
    split; [rewrite Hact; exact Ha|exact Hsw].
  - subst result. unfold Collection.collectActiveEventsForUpdates.
    destruct (DataStorage.loadUsageData fs) as [ds|]; [|simpl; lia].
    destruct (DataStorage.getActiveEvents cfg now (UsageDataset.events ds));
      [simpl; lia|].
    destruct response as [[|r0 events]|]; try (simpl; lia).
    rewrite parse_all_length. apply filter_length_le.
  - subst result. unfold Collection.collectActiveEventsForUpdates.
    intros [->| ->]; [reflexivity|].
    destruct (DataStorage.loadUsageData fs) as [ds|]; [|reflexivity].
    destruct (DataStorage.getActiveEvents cfg now (UsageDataset.events ds));
      reflexivity.
  - intros env. apply collectActiveEventsForUpdates_shipped.
Qed.



(** X27. A cycle whose fetch returns no record and whose reconciliation
    yields no candidate (or which is not incremental) persists nothing: it
    hands back the rows read from the page without storing them, and the
    stored events, the watermark and the statistics stay as they were. With
    the configuration as shipped this is so for every cycle whose fetch
    returns no record. *)
Theorem collectUsageData_nothing_new :
  ∀ (parseInt : string → JS.num Z) (parseFloat : string → JS.num Qc)
    (now : Z) (fuel : nat) (server : Collection.Request.t → Collection.reply)
    (rnd : nat → string) (activeResponse : option (list RawVendorEvent.t))
    (activeRnd : nat → string) (domData : list Event.t) (fs fs1 : FS.t),
    Collection.fetchAllEvents fuel server (Some (DataStorage.getSyncMetadata fs))
      now fs = Some ([], fs1) →
    events_of fs1 = events_of fs
    ∧ watermark_of fs1 = watermark_of fs
    ∧ DataStorage.loadStats fs1 = DataStorage.loadStats fs
    ∧ (∀ cfg,
         Collection.isIncremental (DataStorage.getSyncMetadata fs) = false
         ∨ Collection.collectActiveEventsForUpdates parseInt parseFloat cfg now
             activeRnd activeResponse fs1 = [] →
         Collection.collectUsageData parseInt parseFloat cfg now true fuel server
           rnd activeResponse activeRnd domData fs
         = Collection.Collected domData fs1)
    ∧ (∀ env,
         Collection.collectUsageData parseInt parseFloat (CONFIG env) now true fuel
           server rnd activeResponse activeRnd domData fs
         = Collection.Collected domData fs1).
Proof.
  intros parseInt parseFloat now fuel server rnd aresp arnd dom fs fs1 Hfetch.
  destruct (fetch_pages_frame server (Some (DataStorage.getSyncMetadata fs)) now
              fuel 1 [] fs [] fs1 Hfetch) as (He & Hw & Hs & _).
  split; [exact He|]. split; [exact Hw|]. split; [exact Hs|].
  assert (Hgen : ∀ cfg,
    Collection.isIncremental (DataStorage.getSyncMetadata fs) = false
    ∨ Collection.collectActiveEventsForUpdates parseInt parseFloat cfg now
        arnd aresp fs1 = [] →
    Collection.collectUsageData parseInt parseFloat cfg now true fuel server
      rnd aresp arnd dom fs
    = Collection.Collected dom fs1).
  { intros cfg H. unfold Collection.collectUsageData, Collection.collectFromAPI.
    rewrite Hfetch. simpl.
    destruct H as [-> | H]; [reflexivity|].
    destruct (Collection.isIncremental _); simpl; [|reflexivity].
    now rewrite H. }
  split; [exact Hgen|].
  intros env. apply Hgen. right. apply collectActiveEventsForUpdates_shipped.
Qed.

Lemma collectUsageData_nothing_new_witness :
  let server := fun _ : Collection.Request.t => Collection.Reply 20 [] in
  let fs := stored 500 [sample "1000_a" 1000 "usage_based" 1 1] in
  let dom := [sample "dom_1_0" 7 "usage based" 1 0] in
  ∃ fs1,
    Collection.collectUsageData (fun _ => JS.NaN) (fun _ => JS.NaN) (CONFIG ∅) 7
      true 1 server (fun _ => "k3x9q2m1z") None (fun _ => "k3x9q2m1z") dom fs
    = Collection.Collected dom fs1
    ∧ events_of fs1 = events_of fs.
Proof.
  intros server fs dom. eexists.
  destruct (collectUsageData_nothing_new (fun _ => JS.NaN) (fun _ => JS.NaN) 7 1
              server (fun _ => "k3x9q2m1z") None (fun _ => "k3x9q2m1z") dom fs
              _ eq_refl) as (He & _ & _ & _ & Hshipped).
  split; [apply Hshipped|exact He].
Defined.

Lemma or_Z_nonzero (x d : Z) : d ≠ 0 → JS.or_Z x d ≠ 0.
Proof. intros Hd. unfold JS.or_Z. destruct (Z.eqb_spec x 0); assumption. Qed.

(** X28. Sync metadata round trip: what a save writes is what the next
    cycle reads. After a save the metadata carry the watermark, a non-zero
    page size, the strategy of the save and its instant; the next cycle is
    incremental unless the watermark is 0, and its fetch asks for the range
    from the watermark to its own clock with that page size. Without a
    dataset the metadata are the defaults: no watermark, page size 500,
    strategy [full]. *)
Theorem getSyncMetadata_after_save :
  ∀ (now : Z) (data : list Event.t) (isIncremental : bool) (fs : FS.t) (later : Z),
    let fs' := DataStorage.saveUsageData now data isIncremental fs in
    let md := DataStorage.getSyncMetadata fs' in
    DataStorage.SyncInfo.lastSyncDate md = watermark_of fs'
    ∧ Some (DataStorage.SyncInfo.adaptivePageSize md) = pageSize_of fs'
    ∧ DataStorage.SyncInfo.adaptivePageSize md ≠ 0
    ∧ DataStorage.SyncInfo.syncStrategy md
      = (if isIncremental then SyncMetadata.incremental else SyncMetadata.full)
    ∧ DataStorage.SyncInfo.lastSuccessfulSync md = Some now
    ∧ Collection.isIncremental md
      = negb (default 0 (watermark_of fs') =? 0)
    ∧ Collection.request_of (Some md) later 1
      = Collection.Request.mk (default 0 (watermark_of fs')) later 1
          (DataStorage.SyncInfo.adaptivePageSize md)
    ∧ DataStorage.getSyncMetadata no_files
      = DataStorage.SyncInfo.mk None 500 SyncMetadata.full None.
Proof.
  intros now data inc fs later fs' md.
  set (existingData := if inc then DataStorage.loadUsageData fs else None).
  assert (Hc : DataStorage.carried_page_size existingData ≠ 0).
  { unfold DataStorage.carried_page_size.
    destruct (existingData ≫= UsageDataset.syncMetadata) as [sm|];
      [|discriminate].
    apply or_Z_nonzero. discriminate. }
  assert (Hmd : DataStorage.SyncInfo.adaptivePageSize md
                = DataStorage.carried_page_size existingData).
  { subst md fs'. unfold DataStorage.getSyncMetadata. simpl.
    fold existingData. unfold JS.or_Z at 1.
    now rewrite (proj2 (Z.eqb_neq _ _) Hc). }
  assert (Hnz : DataStorage.SyncInfo.adaptivePageSize md ≠ 0)
    by now rewrite Hmd.
  assert (Hp : Some (DataStorage.SyncInfo.adaptivePageSize md) = pageSize_of fs').
  { rewrite Hmd. reflexivity. }
  split; [reflexivity|]. split; [exact Hp|]. split; [exact Hnz|].
  split; [reflexivity|]. split; [reflexivity|]. split; [reflexivity|].
  split; [|reflexivity].
  unfold Collection.request_of, Collection.fetch_pageSize. f_equal.
  unfold JS.or_Z. now rewrite (proj2 (Z.eqb_neq _ _) Hnz).
Qed.

(** X29. No numeric setting of [CONFIG] is ever 0: a value of 0 (like a
    missing or unparsable one) is replaced by the default, so that for
    instance zero retries cannot be configured; an unset environment gives
    the defaults. *)
Theorem CONFIG_settings_nonzero :
  (∀ (env : gmap string Z) (key : string) (v : Z),
     CONFIG env !! key = Some v → v ≠ 0)
  ∧ (∀ env : gmap string Z,
       env !! "MAX_RETRIES" = Some 0 → CONFIG env !! "MAX_RETRIES" = Some 3)
  ∧ CONFIG ∅
    = list_to_map [("WEB_PORT", 3000); ("TIMEOUT", 30000); ("API_TIMEOUT", 10000);
                   ("COLLECTION_INTERVAL", 100000); ("MAX_RETRIES", 3);
                   ("PAGE_SIZE", 100)].
Proof.
  split; [|split].
  - intros env key v. unfold CONFIG. simpl.
    repeat (rewrite lookup_insert; case_decide;
            [intros [= <-]; apply or_Z_nonzero; discriminate|]).
    rewrite lookup_empty. discriminate.
  - intros env H. unfold CONFIG. simpl.
    repeat (rewrite lookup_insert_ne by discriminate).
    rewrite lookup_insert_eq, H. reflexivity.
  - reflexivity.
Qed.

Lemma CONFIG_settings_nonzero_witness :
  CONFIG {["MAX_RETRIES" := 0]} !! "MAX_RETRIES" = Some 3.
Proof.
  destruct CONFIG_settings_nonzero as (_ & H & _).
  apply H. reflexivity.
Defined.
